(** * better-docs: route extraction and module grouping

    A shallow embedding of the extraction engine ([GenericExtractor],
    [ExpressExtractor]) and of the module grouper
    ([groupRoutesByController], [extractModuleFromName]) of the
    better-docs repository, with the properties its specification
    states about them.

    Strings.  A JavaScript string is modelled as a [string] whose
    characters are the code units below 256 (the Latin-1 range).  On
    that range [toLowerCase] is closed and is written out below; the
    regular expressions of the source only name ASCII characters, and
    [\s] and [\w] are given with their members in the range. *)

From Stdlib Require Import String Ascii List Arith Bool Lia.
From stdpp Require Import base option list gmap strings.

Local Open Scope nat_scope.

(* stdpp keeps [simpl] from unfolding string concatenation; the proofs
   below compute with it. *)
#[local] Arguments String.append !_ _ / : simpl nomatch.

(** ** Characters and strings as the source uses them *)

Module Js.

Definition code (c : ascii) : nat := nat_of_ascii c.

Definition between (lo hi : nat) (c : ascii) : bool :=
  (lo <=? code c) && (code c <=? hi).

(** [String.prototype.toLowerCase] on one code unit: A-Z, and the
    Latin-1 capitals U+00C0..U+00DE except the multiplication sign. *)
Definition toLowerChar (c : ascii) : ascii :=
  if between 65 90 c || (between 192 222 c && negb (code c =? 215))
  then ascii_of_nat (code c + 32) else c.

(** [String.prototype.toUpperCase] on one code unit.  U+00B5, U+00DF and
    U+00FF have upper-case forms outside the modelled range; the source
    upper-cases only route verbs and decorator names, which are ASCII. *)
Definition toUpperChar (c : ascii) : ascii :=
  if between 97 122 c || (between 224 254 c && negb (code c =? 247))
  then ascii_of_nat (code c - 32) else c.

Fixpoint map_string (f : ascii -> ascii) (s : string) : string :=
  match s with
  | EmptyString => EmptyString
  | String c s' => String (f c) (map_string f s')
  end.

Definition toLowerCase : string -> string := map_string toLowerChar.
Definition toUpperCase : string -> string := map_string toUpperChar.

(** A string is truthy when it is not empty. *)
Definition truthy (s : string) : bool := negb (String.eqb s EmptyString).

(** [a || b] on strings. *)
Definition or_else (a b : string) : string := if truthy a then a else b.

Fixpoint startsWith (s p : string) {struct p} : bool :=
  match p, s with
  | EmptyString, _ => true
  | String a p', String b s' => (a =? b)%char && startsWith s' p'
  | String _ _, EmptyString => false
  end.

Fixpoint endsWith (s x : string) : bool :=
  String.eqb s x ||
  match s with
  | EmptyString => false
  | String _ s' => endsWith s' x
  end.

Fixpoint includes (s x : string) : bool :=
  startsWith s x ||
  match s with
  | EmptyString => false
  | String _ s' => includes s' x
  end.

(** [s.slice(0, -1)]. *)
Fixpoint dropLast (s : string) : string :=
  match s with
  | EmptyString => EmptyString
  | String _ EmptyString => EmptyString
  | String c s' => String c (dropLast s')
  end.

(** [s.substring(0, n)]. *)
Fixpoint take (n : nat) (s : string) : string :=
  match n, s with
  | S n', String c s' => String c (take n' s')
  | _, _ => EmptyString
  end.

(** [s.split(sep)] for a one-character separator. *)
Fixpoint split (sep : ascii) (s : string) : list string :=
  match s with
  | EmptyString => [EmptyString]
  | String c s' =>
      if (c =? sep)%char then EmptyString :: split sep s'
      else match split sep s' with
           | h :: t => String c h :: t
           | [] => [String c EmptyString]
           end
  end.

(** [s.replace(/[class]/g, r)] for a one-character class [p]. *)
Fixpoint replaceChars (p : ascii -> bool) (r : string) (s : string) : string :=
  match s with
  | EmptyString => EmptyString
  | String c s' =>
      if p c then r +:+ replaceChars p r s'
      else String c (replaceChars p r s')
  end.

(** Character classes of the source's regular expressions. *)
Definition isChar (a : ascii) : ascii -> bool := fun c => (c =? a)%char.
Definition oneOf (cs : list ascii) : ascii -> bool :=
  fun c => existsb (fun a => (c =? a)%char) cs.
Definition noneOf (cs : list ascii) : ascii -> bool := fun c => negb (oneOf cs c).

Definition squote : ascii := ascii_of_nat 39.
Definition dquote : ascii := ascii_of_nat 34.
Definition backtick : ascii := ascii_of_nat 96.

(** [\w] is [A-Za-z0-9_]. *)
Definition isWord (c : ascii) : bool :=
  between 65 90 c || between 97 122 c || between 48 57 c || (code c =? 95).

(** [\s] within the range: TAB, LF, VT, FF, CR, SP and NBSP. *)
Definition isSpace (c : ascii) : bool :=
  between 9 13 c || (code c =? 32) || (code c =? 160).

(** Canonicalize of the [i] flag (no [u] flag): the upper-case form when
    it is one code unit, and a character at or above 128 never folds onto
    an ASCII one.  U+00B5 and U+00FF fold to code units outside the range
    that no other character of the range folds to, so keeping them in
    place leaves the classes of the folding as they are. *)
Definition canonicalize (c : ascii) : ascii := toUpperChar c.
Definition isCharCI (a : ascii) : ascii -> bool :=
  fun c => (canonicalize c =? canonicalize a)%char.

End Js.

(** ** A backtracking matcher for the regular expressions of the source *)

Module Re.

Inductive regex : Type :=
| Eps
| Chr (p : ascii -> bool)
| Seq (r1 r2 : regex)
| Alt (r1 r2 : regex)
| Star (r : regex)
| Grp (i : nat) (r : regex)
| Eos.

Definition Plus (r : regex) : regex := Seq r (Star r).

(** A literal word, matched exactly or under the [i] flag. *)
Fixpoint lit (w : string) : regex :=
  match w with
  | EmptyString => Eps
  | String a w' => Seq (Chr (Js.isChar a)) (lit w')
  end.

Fixpoint litCI (w : string) : regex :=
  match w with
  | EmptyString => Eps
  | String a w' => Seq (Chr (Js.isCharCI a)) (litCI w')
  end.

Fixpoint seqs (rs : list regex) : regex :=
  match rs with
  | [] => Eps
  | r :: rs' => Seq r (seqs rs')
  end.

Fixpoint alts (rs : list regex) : regex :=
  match rs with
  | [] => Chr (fun _ => false)
  | [r] => r
  | r :: rs' => Alt r (alts rs')
  end.

(** Captures: the groups set so far, latest first. *)
Definition caps : Type := list (nat * string).

Fixpoint group (i : nat) (c : caps) : option string :=
  match c with
  | [] => None
  | (j, v) :: c' => if i =? j then Some v else group i c'
  end.

Section Matcher.
Context {R : Type}.

(** The iterations of a greedy star whose body is matched by [step]: one
    more iteration first, the continuation when that fails.  An
    iteration that consumes nothing fails, as RepeatMatcher has it, so
    [length s] iterations are all a star can take on [s]. *)
Fixpoint starLoop (step : (string -> caps -> option R) -> string -> caps -> option R)
         (k : string -> caps -> option R) (n : nat) (s : string) (c : caps)
  {struct n} : option R :=
  match n with
  | O => k s c
  | S n' =>
      match step (fun s' c' =>
                    if String.length s' <? String.length s
                    then starLoop step k n' s' c' else None) s c with
      | Some x => Some x
      | None => k s c
      end
  end.

(** [m r k s c]: match [r] at the head of [s] and hand the rest of the
    input to the continuation [k]; a failing continuation makes the
    matcher backtrack, greedy choices first. *)
Fixpoint m (r : regex) (k : string -> caps -> option R)
         (s : string) (c : caps) {struct r} : option R :=
  match r with
  | Eps => k s c
  | Chr p =>
      match s with
      | String a s' => if p a then k s' c else None
      | EmptyString => None
      end
  | Seq r1 r2 => m r1 (m r2 k) s c
  | Alt r1 r2 =>
      match m r1 k s c with
      | Some x => Some x
      | None => m r2 k s c
      end
  | Star r1 => starLoop (m r1) k (String.length s) s c
  | Grp i r1 =>
      m r1 (fun s' c' =>
              k s' ((i, Js.take (String.length s - String.length s') s) :: c'))
        s c
  | Eos =>
      match s with
      | EmptyString => k s c
      | String _ _ => None
      end
  end.
End Matcher.

(** One match: the text it covers, its groups, and the input after it. *)
Record found : Type := Found {
  matched : string;
  groups : caps;
  after : string
}.

(** The pattern tried at the head of [s] only. *)
Definition matchHere (r : regex) (s : string) : option found :=
  m r (fun s' c =>
         Some (Found (Js.take (String.length s - String.length s') s) c s'))
    s [].

(** [s.match(r)] without the [g] flag: the leftmost position where the
    pattern matches, with the text before it. *)
Fixpoint search (r : regex) (s : string) : option (string * found) :=
  match matchHere r s with
  | Some f => Some (EmptyString, f)
  | None =>
      match s with
      | EmptyString => None
      | String a s' =>
          match search r s' with
          | Some (pre, f) => Some (String a pre, f)
          | None => None
          end
      end
  end.

(** [s.replace(r, x)] for a pattern anchored with [^]: the head only. *)
Definition replaceAtStart (r : regex) (x : string) (s : string) : string :=
  match matchHere r s with
  | Some f => x +:+ after f
  | None => s
  end.

(** [s.replace(r, x)] without the [g] flag. *)
Definition replaceFirst (r : regex) (x : string) (s : string) : string :=
  match search r s with
  | Some (pre, f) => pre +:+ x +:+ after f
  | None => s
  end.

(** The [while ((match = r.exec(text)) !== null)] loop of a [g] pattern:
    every match from left to right, each search resuming where the
    previous match ended.  [skip] counts the characters of the previous
    match still to pass.  (A pattern matching the empty string would keep
    the source's loop at one position for ever; every [g] pattern of the
    source starts with a literal.) *)
Fixpoint execAll (r : regex) (skip : nat) (s : string) : list found :=
  match skip with
  | S skip' =>
      match s with
      | EmptyString => []
      | String _ s' => execAll r skip' s'
      end
  | O =>
      match matchHere r s with
      | Some f =>
          f :: match s with
               | EmptyString => []
               | String _ s' => execAll r (String.length (matched f) - 1) s'
               end
      | None =>
          match s with
          | EmptyString => []
          | String _ s' => execAll r 0 s'
          end
      end
  end.

End Re.

(** ** Module names *)

(** [/(Service|Controller|Dto|Entity|Model|Type|Interface)$/i] *)
Definition suffixWords : list string :=
  ["Service"; "Controller"; "Dto"; "Entity"; "Model"; "Type"; "Interface"].

Definition suffixRe : Re.regex :=
  Re.seqs [Re.Grp 1 (Re.alts (map Re.litCI suffixWords)); Re.Eos].

(** [extractModuleFromName]; [None] is the source's [null]. *)
Definition extractModuleFromName (name : string) : option string :=
  if negb (Js.truthy name) then None
  else
    let cleanName := Js.toLowerCase (Re.replaceFirst suffixRe EmptyString name) in
    if Js.endsWith cleanName "y" then Some (Js.dropLast cleanName +:+ "ies")
    else if Js.endsWith cleanName "s" then Some cleanName
    else Some (cleanName +:+ "s").

(** The naming rule in the words of the specification: strip one of the
    suffixes when the name ends with it, whatever the case of its
    letters; lower-case; make plural. *)
Definition canon (s : string) : string := Js.map_string Js.canonicalize s.

Definition endsWithCI (s w : string) : bool := Js.endsWith (canon s) (canon w).

Definition stripSuffix (name : string) : string :=
  match find (endsWithCI name) suffixWords with
  | Some w => Js.take (String.length name - String.length w) name
  | None => name
  end.

Definition pluralize (s : string) : string :=
  if Js.endsWith s "y" then Js.dropLast s +:+ "ies"
  else if Js.endsWith s "s" then s
  else s +:+ "s".

Definition deriveModuleName (name : string) : option string :=
  if String.eqb name EmptyString then None
  else Some (pluralize (Js.toLowerCase (stripSuffix name))).

(** ** The universal data model ([universal-types.ts]) *)

Inductive Framework : Type := express | nestjs | fastify | koa.

(** [Parameter] of the source. *)
Record RouteParameter : Type := {
  name : string;
  type : string;
  optional : bool;
  decorator : option string
}.

Record UniversalRoute : Type := {
  path : string;
  method : string;
  handler : string;
  middleware : list string;
  parameters : list RouteParameter;
  framework : Framework
}.

Record UniversalController : Type := {
  ctl_name : string;
  routes : list UniversalRoute;
  ctl_framework : Framework;
  ctl_filePath : string
}.

Record Method : Type := {
  mt_name : string;
  mt_parameters : list RouteParameter;
  returnType : string;
  isPublic : bool
}.

Record UniversalService : Type := {
  svc_name : string;
  methods : list Method;
  svc_filePath : string;
  svc_framework : Framework
}.

(** ** Declarations as ts-morph hands them over *)

Record Decorator : Type := {
  getName : string;
  getArguments : list string   (* the source text of each argument *)
}.

Record ParameterDeclaration : Type := {
  prm_name : string;
  prm_typeNode : option string;
  prm_questionToken : bool;
  prm_decorators : list Decorator
}.

Record MethodDeclaration : Type := {
  mth_name : string;
  mth_decorators : list Decorator;
  mth_parameters : list ParameterDeclaration;
  mth_returnTypeNode : option string;
  mth_modifiers : list string
}.

Record ClassDeclaration : Type := {
  cls_name : option string;
  cls_decorators : list Decorator;
  cls_methods : list MethodDeclaration
}.

Record SourceFile : Type := {
  getFilePath : string;
  getFullText : string;
  getClasses : list ClassDeclaration
}.

(** ** PatternExtractor: [GenericExtractor.extractRoutes] *)

Definition quote : ascii -> bool := Js.oneOf [Js.squote; Js.dquote; Js.backtick].
Definition notQuote : ascii -> bool := Js.noneOf [Js.squote; Js.dquote; Js.backtick].
Definition notCommaParen : ascii -> bool := Js.noneOf (list_ascii_of_string ",)").

Definition lowerVerbs : list string := ["get"; "post"; "put"; "delete"; "patch"].
Definition capitalVerbs : list string := ["Get"; "Post"; "Put"; "Delete"; "Patch"].

(** The call-style pattern of the source, for a receiver [recv]:
    recv, a dot, the verb (group 1), an opening parenthesis, a quote, one
    or more characters that are no quote (group 2), a quote, a comma,
    [\s*], and [([^,)]+)] (group 3).  A quote is one of the single
    quote, the double quote and the backtick. *)
Definition callStyle (recv : string) : Re.regex :=
  Re.seqs [Re.lit recv; Re.lit ".";
           Re.Grp 1 (Re.alts (map Re.lit lowerVerbs));
           Re.lit "("; Re.Chr quote;
           Re.Grp 2 (Re.Plus (Re.Chr notQuote));
           Re.Chr quote; Re.lit ",";
           Re.Star (Re.Chr Js.isSpace);
           Re.Grp 3 (Re.Plus (Re.Chr notCommaParen))].

(** The annotation-style pattern: an at sign, the verb (group 1), an
    opening parenthesis, a quote, any characters that are no quote
    (group 2), a quote and a closing parenthesis. *)
Definition annotationStyle : Re.regex :=
  Re.seqs [Re.lit "@";
           Re.Grp 1 (Re.alts (map Re.lit capitalVerbs));
           Re.lit "("; Re.Chr quote;
           Re.Grp 2 (Re.Star (Re.Chr notQuote));
           Re.Chr quote; Re.lit ")"].

(** A pattern with the text [RegExp.prototype.toString] gives for it. *)
Record Pattern : Type := {
  source : string;
  re : Re.regex
}.

Definition dq : string := String Js.dquote EmptyString.

Definition callStyleSource (recv : string) : string :=
  "/" +:+ recv +:+ "\.(get|post|put|delete|patch)\(['" +:+ dq +:+ "`]([^'"
      +:+ dq +:+ "`]+)['" +:+ dq +:+ "`],\s*([^,)]+)/g".

Definition annotationStyleSource : string :=
  "/@(Get|Post|Put|Delete|Patch)\(['" +:+ dq +:+ "`]([^'"
      +:+ dq +:+ "`]*)['" +:+ dq +:+ "`]\)/g".

Definition appPattern : Pattern :=
  {| source := callStyleSource "app"; re := callStyle "app" |}.
Definition routerPattern : Pattern :=
  {| source := callStyleSource "router"; re := callStyle "router" |}.
Definition nestPattern : Pattern :=
  {| source := annotationStyleSource; re := annotationStyle |}.
Definition fastifyPattern : Pattern :=
  {| source := callStyleSource "fastify"; re := callStyle "fastify" |}.

(** Express, Express, NestJS, Fastify, Koa: the list of [extractRoutes]. *)
Definition routePatterns : list Pattern :=
  [appPattern; routerPattern; nestPattern; fastifyPattern; routerPattern].

(** [/(\w+)\s*=>/], [/function\s+(\w+)/], [/async\s+(\w+)/], [/(\w+)\s*\(/] *)
Definition word : Re.regex := Re.Plus (Re.Chr Js.isWord).
Definition arrowRe : Re.regex :=
  Re.seqs [Re.Grp 1 word; Re.Star (Re.Chr Js.isSpace); Re.lit "=>"].
Definition functionRe : Re.regex :=
  Re.seqs [Re.lit "function"; Re.Plus (Re.Chr Js.isSpace); Re.Grp 1 word].
Definition asyncRe : Re.regex :=
  Re.seqs [Re.lit "async"; Re.Plus (Re.Chr Js.isSpace); Re.Grp 1 word].
Definition callRe : Re.regex :=
  Re.seqs [Re.Grp 1 word; Re.Star (Re.Chr Js.isSpace); Re.lit "("].

(** [s.match(r)] then [m[1] || 'anonymous'], for a match that was found. *)
Definition firstGroup (r : Re.regex) (s : string) : option string :=
  match Re.search r s with
  | Some (_, f) =>
      Some (Js.or_else (default EmptyString (Re.group 1 (Re.groups f))) "anonymous")
  | None => None
  end.

Definition extractHandlerName (handlerCode : string) : string :=
  match firstGroup arrowRe handlerCode with
  | Some n => n
  | None =>
      match firstGroup functionRe handlerCode with
      | Some n => n
      | None =>
          match firstGroup asyncRe handlerCode with
          | Some n => n
          | None => "anonymous"
          end
      end
  end.

Definition extractMethod (f : Re.found) : string :=
  Js.or_else (Js.toUpperCase (default EmptyString (Re.group 1 (Re.groups f)))) "GET".

Definition extractPath (f : Re.found) : string :=
  Js.or_else (default EmptyString (Re.group 2 (Re.groups f))) "/".

(** With a third group the handler text is resolved; for the annotation
    pattern the name is looked for in the text after the match. *)
Definition extractHandler (f : Re.found) : string :=
  let g3 := default EmptyString (Re.group 3 (Re.groups f)) in
  if Js.truthy g3 then extractHandlerName g3
  else default "anonymous" (firstGroup callRe (Re.after f)).

Definition extractMiddleware (_text : string) (_index : nat) : list string := [].

Definition fixedParameters : list RouteParameter :=
  [ {| name := "req"; type := "Request"; optional := false; decorator := None |};
    {| name := "res"; type := "Response"; optional := false; decorator := None |};
    {| name := "next"; type := "NextFunction"; optional := true; decorator := None |} ].

Definition extractRouteParameters (_handler : string) : list RouteParameter :=
  fixedParameters.

Definition detectFrameworkFromPattern (p : Pattern) : Framework :=
  if Js.includes (source p) "@(Get|Post" then nestjs
  else if Js.includes (source p) "fastify" then fastify
  else if Js.includes (source p) "router" then koa
  else express.

(** The body of the [while] loop for one match. *)
Definition routeOfMatch (text : string) (p : Pattern) (f : Re.found)
  : list UniversalRoute :=
  let method := extractMethod f in
  let path := extractPath f in
  let handler := extractHandler f in
  if Js.truthy method && Js.truthy path then
    [ {| path := path; method := method; handler := handler;
         middleware := extractMiddleware text 0;
         parameters := extractRouteParameters handler;
         framework := detectFrameworkFromPattern p |} ]
  else [].

Definition routesOfPattern (text : string) (p : Pattern) : list UniversalRoute :=
  flat_map (routeOfMatch text p) (Re.execAll (re p) 0 text).

Definition extractRoutes (text : string) : list UniversalRoute :=
  flat_map (routesOfPattern text) routePatterns.

(** ** [ExpressExtractor.extractExpressRoutes] *)

Definition extractParameters : list RouteParameter := fixedParameters.

Definition expressPatterns : list Re.regex := [callStyle "app"; callStyle "router"].

Definition expressRouteOfMatch (f : Re.found) : UniversalRoute :=
  {| path := extractPath f;
     method := extractMethod f;
     handler := extractHandlerName
                  (Js.or_else (default EmptyString (Re.group 3 (Re.groups f))) "anonymous");
     middleware := [];
     parameters := extractParameters;
     framework := express |}.

Definition extractExpressRoutes (text : string) : list UniversalRoute :=
  flat_map (fun r => map expressRouteOfMatch (Re.execAll r 0 text)) expressPatterns.

(** ** DeclarationExtractor: controllers and services of a file *)

Definition hasDecorator (n : string) (ds : list Decorator) : bool :=
  existsb (fun d => String.eqb (getName d) n) ds.

Definition lowerName (c : ClassDeclaration) : string :=
  Js.toLowerCase (default EmptyString (cls_name c)).

Definition isControllerClass (c : ClassDeclaration) : bool :=
  hasDecorator "Controller" (cls_decorators c)
  || Js.includes (lowerName c) "controller"
  || Js.endsWith (lowerName c) "controller".

Definition isServiceClass (c : ClassDeclaration) : bool :=
  hasDecorator "Injectable" (cls_decorators c)
  || Js.includes (lowerName c) "service"
  || Js.endsWith (lowerName c) "service".

Definition routeDecoratorNames : list string :=
  ["Get"; "Post"; "Put"; "Delete"; "Patch"; "All"].

Definition isRouteDecorator (d : Decorator) : bool :=
  existsb (String.eqb (getName d)) routeDecoratorNames.

Definition isRouteMethod (mth : MethodDeclaration) : bool :=
  existsb isRouteDecorator (mth_decorators mth).

(** [text.replace(/['dq]/g, '')] with dq the double quote. *)
Definition stripQuotes (s : string) : string :=
  Js.replaceChars (Js.oneOf [Js.squote; Js.dquote]) EmptyString s.

(** [args.length > 0 ? args[0]?.getText().replace(...) || dflt : dflt] *)
Definition firstArgumentOr (dflt : string) (args : list string) : string :=
  match args with
  | a :: _ => Js.or_else (stripQuotes a) dflt
  | [] => dflt
  end.

Definition routePathOf (d : Decorator) : string :=
  firstArgumentOr "/" (getArguments d).

Definition basePathOf (c : ClassDeclaration) : string :=
  match find (fun d => String.eqb (getName d) "Controller") (cls_decorators c) with
  | Some d => firstArgumentOr EmptyString (getArguments d)
  | None => EmptyString
  end.

(** [fullPath] of [extractRouteFromMethod]. *)
Definition combinePaths (basePath routePath : string) : string :=
  if Js.truthy basePath then
    "/" +:+ basePath +:+
      (if String.eqb routePath "/" then EmptyString
       else "/" +:+ Re.replaceAtStart (Re.lit "/") EmptyString routePath)
  else routePath.

Definition getParameterDecorator (p : ParameterDeclaration) : option string :=
  match prm_decorators p with
  | d :: _ => Some (getName d)
  | [] => None
  end.

(** [x || undefined] on an optional string. *)
Definition orUndefined (o : option string) : option string :=
  match o with
  | Some s => if Js.truthy s then Some s else None
  | None => None
  end.

Definition typeText (o : option string) (dflt : string) : string :=
  Js.or_else (default EmptyString o) dflt.

Definition extractRouteFromMethod (mth : MethodDeclaration) (c : ClassDeclaration)
  : option UniversalRoute :=
  match find isRouteDecorator (mth_decorators mth) with
  | None => None
  | Some routeDecorator =>
      Some {| path := combinePaths (basePathOf c) (routePathOf routeDecorator);
              method := Js.toUpperCase (getName routeDecorator);
              handler := mth_name mth;
              middleware := [];
              parameters :=
                map (fun p => {| name := prm_name p;
                                 type := typeText (prm_typeNode p) "any";
                                 optional := prm_questionToken p;
                                 decorator := orUndefined (getParameterDecorator p) |})
                    (mth_parameters mth);
              framework := nestjs |}
  end.

Definition detectFrameworkFromClass (c : ClassDeclaration) : Framework :=
  if existsb (fun d => existsb (String.eqb (getName d)) ["Controller"; "Injectable"])
       (cls_decorators c)
  then nestjs else express.

Definition classRoutes (c : ClassDeclaration) : list UniversalRoute :=
  flat_map (fun mth =>
              if isRouteMethod mth then
                match extractRouteFromMethod mth c with
                | Some r => [r]
                | None => []
                end
              else [])
           (cls_methods c).

Definition extractControllers (sf : SourceFile) : list UniversalController :=
  flat_map (fun c =>
              if isControllerClass c then
                match classRoutes c with
                | [] => []
                | rs => [ {| ctl_name := Js.or_else (default EmptyString (cls_name c))
                                           "AnonymousController";
                             routes := rs;
                             ctl_framework := detectFrameworkFromClass c;
                             ctl_filePath := getFilePath sf |} ]
                end
              else [])
           (getClasses sf).

Definition hasModifier (n : string) (mth : MethodDeclaration) : bool :=
  existsb (String.eqb n) (mth_modifiers mth).

Definition extractServices (sf : SourceFile) : list UniversalService :=
  flat_map (fun c =>
              if isServiceClass c then
                [ {| svc_name := Js.or_else (default EmptyString (cls_name c))
                                   "AnonymousService";
                     methods :=
                       map (fun mth =>
                              {| mt_name := mth_name mth;
                                 mt_parameters :=
                                   map (fun p => {| name := prm_name p;
                                                    type := typeText (prm_typeNode p) "any";
                                                    optional := prm_questionToken p;
                                                    decorator := None |})
                                       (mth_parameters mth);
                                 returnType := typeText (mth_returnTypeNode mth) "void";
                                 isPublic := negb (hasModifier "private" mth)
                                             && negb (hasModifier "protected" mth) |})
                           (cls_methods c);
                     svc_filePath := getFilePath sf;
                     svc_framework := detectFrameworkFromClass c |} ]
              else [])
           (getClasses sf).

(** ** ModelAssembler: [GenericExtractor.extractAll] *)

Definition shouldSkipFile (sf : SourceFile) : bool :=
  Js.includes (getFilePath sf) "node_modules"
  || Js.includes (getFilePath sf) ".spec."
  || Js.includes (getFilePath sf) ".test.".

(** The accumulated result; the [types] list, which no route, controller
    or service depends on, is left out. *)
Record Extracted : Type := {
  all_routes : list UniversalRoute;
  all_controllers : list UniversalController;
  all_services : list UniversalService
}.

Definition extractFile (acc : Extracted) (sf : SourceFile) : Extracted :=
  if shouldSkipFile sf then acc
  else
    let fileControllers := extractControllers sf in
    {| all_controllers := all_controllers acc ++ fileControllers;
       all_routes := (all_routes acc ++ flat_map routes fileControllers)
                       ++ extractRoutes (getFullText sf);
       all_services := all_services acc ++ extractServices sf |}.

Definition extractAll (sourceFiles : list SourceFile) : Extracted :=
  fold_left extractFile sourceFiles
    {| all_routes := []; all_controllers := []; all_services := [] |}.

(** ** ModuleGrouper: [groupRoutesByController] *)

(** [chunks] is a plain object used as a map from module name to routes;
    it is modelled as a finite map, the order of its keys left aside.
    Reading a key the object does not own falls through to
    [Object.prototype]: for these names [chunks[moduleName]] is truthy
    without being an array, no array is stored, and [push] throws. *)
Definition objectPrototypeKeys : list string :=
  ["constructor"; "__proto__"; "hasOwnProperty"; "isPrototypeOf";
   "propertyIsEnumerable"; "toLocaleString"; "toString"; "valueOf";
   "__defineGetter__"; "__defineSetter__"; "__lookupGetter__"; "__lookupSetter__"].

Definition inherited (k : string) : bool :=
  existsb (String.eqb k) objectPrototypeKeys.

(** [if (!chunks[m]) chunks[m] = []; chunks[m].push(route)];
    [None] is the TypeError. *)
Definition pushRoute (chunks : gmap string (list UniversalRoute))
           (moduleName : string) (route : UniversalRoute)
  : option (gmap string (list UniversalRoute)) :=
  match chunks !! moduleName with
  | Some rs => Some (<[moduleName := rs ++ [route]]> chunks)
  | None =>
      if inherited moduleName then None
      else Some (<[moduleName := [route]]> chunks)
  end.

(** [xs.forEach(x => ...)] over a state [A], stopping at an exception. *)
Fixpoint forEachM {A B : Type} (f : A -> B -> option A) (a : A) (xs : list B)
  : option A :=
  match xs with
  | [] => Some a
  | x :: xs' =>
      match f a x with
      | Some a' => forEachM f a' xs'
      | None => None
      end
  end.

(** [serviceModules] is a [Map]: keys in the order of first insertion,
    [set] on a known key replaces its value in place. *)
Fixpoint mapSet (k v : string) (mp : list (string * string)) : list (string * string) :=
  match mp with
  | [] => [(k, v)]
  | (k', v') :: mp' =>
      if String.eqb k' k then (k, v) :: mp' else (k', v') :: mapSet k v mp'
  end.

Definition serviceModulesOf (services : list UniversalService)
  : list (string * string) :=
  fold_left (fun sm service =>
               if Js.truthy (svc_name service) then
                 match extractModuleFromName (svc_name service) with
                 | Some moduleName =>
                     if Js.truthy moduleName
                     then mapSet moduleName (svc_name service) sm else sm
                 | None => sm
                 end
               else sm)
            services [].

(** The controller loop; [controller.routes] is an array and so truthy. *)
Definition groupController (chunks : gmap string (list UniversalRoute))
           (controller : UniversalController)
  : option (gmap string (list UniversalRoute)) :=
  if Js.truthy (ctl_name controller) then
    match extractModuleFromName (ctl_name controller) with
    | Some moduleName =>
        if Js.truthy moduleName
        then forEachM (fun ch route => pushRoute ch moduleName route)
                      chunks (routes controller)
        else Some chunks
    | None => Some chunks
    end
  else Some chunks.

(** [/(Service|Controller)$/i] *)
Definition serviceBaseRe : Re.regex :=
  Re.seqs [Re.Grp 1 (Re.alts (map Re.litCI ["Service"; "Controller"])); Re.Eos].

Definition serviceBase (serviceName : string) : string :=
  Js.toLowerCase (Re.replaceFirst serviceBaseRe EmptyString serviceName).

(** Strategy 1: the first service module whose base the handler contains. *)
Definition matchService (serviceModules : list (string * string))
           (route : UniversalRoute) : string :=
  match find (fun '(_, serviceName) =>
                Js.truthy (handler route)
                && Js.includes (Js.toLowerCase (handler route)) (serviceBase serviceName))
             serviceModules with
  | Some (module, _) => module
  | None => "unknown"
  end.

Definition pathSegments (p : string) : list string :=
  List.filter (fun segment => Js.truthy segment && negb (Js.startsWith segment ":"))
              (Js.split "/" p).

(** Strategy 3: the route position picks a service module, else app. *)
Definition byPosition (serviceModules : list (string * string)) (index : nat)
  : string :=
  let routeGroup := index / 3 in
  let moduleNames := map fst serviceModules in
  if routeGroup <? length moduleNames
  then Js.or_else (default EmptyString (moduleNames !! routeGroup)) "app"
  else "app".

(** [/[^a-zA-Z0-9-_]/g] *)
Definition isModuleChar (c : ascii) : bool :=
  Js.between 97 122 c || Js.between 65 90 c || Js.between 48 57 c
  || Js.isChar "-" c || Js.isChar "_" c.

Definition sanitize (moduleName : string) : string :=
  Js.replaceChars (fun c => negb (isModuleChar c)) "_" moduleName.

(** The module name the fallback gives the route at [index]. *)
Definition fallbackModule (serviceModules : list (string * string))
           (index : nat) (route : UniversalRoute) : string :=
  let moduleName := matchService serviceModules route in
  let moduleName :=
    if String.eqb moduleName "unknown" then
      if String.eqb (path route) "/" || String.eqb (path route) EmptyString
      then "app"
      else match pathSegments (path route) with
           | segment :: _ => Js.toLowerCase segment
           | [] => byPosition serviceModules index
           end
    else moduleName in
  sanitize moduleName.

Fixpoint fallbackLoop (serviceModules : list (string * string)) (index : nat)
         (rs : list UniversalRoute) (chunks : gmap string (list UniversalRoute))
  : option (gmap string (list UniversalRoute)) :=
  match rs with
  | [] => Some chunks
  | route :: rs' =>
      match pushRoute chunks (fallbackModule serviceModules index route) route with
      | Some chunks' => fallbackLoop serviceModules (S index) rs' chunks'
      | None => None
      end
  end.

(** [groupRoutesByController(routes, services = [], controllers = [])];
    the [console.log] line does not touch the result. *)
Definition groupRoutesByController (rs : list UniversalRoute)
           (services : list UniversalService)
           (controllers : list UniversalController)
  : option (gmap string (list UniversalRoute)) :=
  let serviceModules := serviceModulesOf services in
  match forEachM groupController ∅ controllers with
  | None => None
  | Some chunks =>
      if size chunks =? 0 then fallbackLoop serviceModules 0 rs chunks
      else Some chunks
  end.

(** ** Vocabulary of the statements *)

Module ReSpec.
Import Re.

(** [s'] is what is left of [s] after some prefix. *)
Definition suffixOf (s' s : string) : Prop := exists pre, s = pre +:+ s'.

Fixpoint allChars (p : ascii -> bool) (s : string) : bool :=
  match s with
  | EmptyString => true
  | String a s' => p a && allChars p s'
  end.

(** The group numbers a pattern sets. *)
Fixpoint grps (r : regex) : list nat :=
  match r with
  | Grp i r1 => i :: grps r1
  | Seq r1 r2 | Alt r1 r2 => grps r1 ++ grps r2
  | Star r1 => grps r1
  | Eps | Chr _ | Eos => []
  end.

(** What a successful run hands to its continuation. *)
Definition reaches {R : Type} (r : regex) (k : string -> caps -> option R)
           (s : string) (c : caps) (x : R) : Prop :=
  exists s' c', k s' c' = Some x /\ suffixOf s' s
                /\ forall i, ~ In i (grps r) -> group i c' = group i c.

End ReSpec.

(** The text is one of the suffix words, letter case aside. *)
Definition isSuffixWord (t : string) : bool :=
  existsb (fun w => String.eqb (canon t) (canon w)) suffixWords.

(** What the suffix pattern leaves: the text up to the first place where
    the rest is a suffix word. *)
Fixpoint stripScan (s : string) : string :=
  if isSuffixWord s then EmptyString
  else match s with
       | EmptyString => EmptyString
       | String a s' => String a (stripScan s')
       end.

Definition nonEmpty (l : list UniversalRoute) : option (list UniversalRoute) :=
  match l with
  | [] => None
  | _ => Some l
  end.

(** The routes the controller-direct strategy puts under a module name:
    those of every named controller whose derived name it is, in order. *)
Definition ownedBy (controllers : list UniversalController) (moduleName : string)
  : list UniversalRoute :=
  flat_map (fun c =>
              if Js.truthy (ctl_name c)
                 && bool_decide (extractModuleFromName (ctl_name c) = Some moduleName)
              then routes c else [])
           controllers.

(** A route the fallback can only place by its position. *)
Definition pathless (r : UniversalRoute) : Prop :=
  path r <> "/" /\ path r <> EmptyString /\ pathSegments (path r) = [].

(** ** Sample inputs *)

Definition sampleRoute (p h : string) : UniversalRoute :=
  {| path := p; method := "GET"; handler := h; middleware := [];
     parameters := fixedParameters; framework := express |}.

Definition sampleController (n : string) (rs : list UniversalRoute)
  : UniversalController :=
  {| ctl_name := n; routes := rs; ctl_framework := nestjs;
     ctl_filePath := "src/users.ts" |}.

Definition usersController : UniversalController :=
  sampleController "UsersController" [sampleRoute "/users" "list"].

(** [$] is a letter of TypeScript identifiers. *)
Definition dollarController : UniversalController :=
  sampleController "User$Controller" [sampleRoute "/users" "list"].

(** A name as a hand-written analysis file may give it. *)
Definition spacedController : UniversalController :=
  sampleController "Admin/User Panel" [sampleRoute "/admin" "show"].

Definition sevenRoutes : list UniversalRoute :=
  [sampleRoute "/:id" "a"; sampleRoute "/:id/:name" "b"; sampleRoute "/:a" "c";
   sampleRoute "/:b" "d"; sampleRoute "/:c" "e"; sampleRoute "/:d" "f";
   sampleRoute "/:e" "g"].

(** The verbs a route can carry. *)
Definition httpVerbs : list string := ["GET"; "POST"; "PUT"; "DELETE"; "PATCH"].

(** A handler text as one of the three resolution patterns reads it:
    what stands before the name, the name, what separates it from the
    keyword or the arrow, and the rest. *)
Definition arrowShape (h n : string) : Prop :=
  exists pre ws post,
    h = pre +:+ n +:+ ws +:+ "=>" +:+ post
    /\ n <> EmptyString /\ ReSpec.allChars Js.isWord n = true
    /\ ReSpec.allChars Js.isSpace ws = true.

Definition keywordShape (kw h n : string) : Prop :=
  exists pre ws post,
    h = pre +:+ kw +:+ ws +:+ n +:+ post
    /\ ws <> EmptyString /\ ReSpec.allChars Js.isSpace ws = true
    /\ n <> EmptyString /\ ReSpec.allChars Js.isWord n = true.

(** The matches of the call-style patterns in a text, over the three
    receivers. *)
Definition callMatches (text : string) : nat :=
  length (Re.execAll (callStyle "app") 0 text)
  + length (Re.execAll (callStyle "router") 0 text)
  + length (Re.execAll (callStyle "fastify") 0 text).

Definition annotationMatches (text : string) : nat :=
  length (Re.execAll annotationStyle 0 text).

Definition isKoa (f : Framework) : bool :=
  match f with
  | koa => true
  | _ => false
  end.

(** The path rule in the words of the specification. *)
Definition stripLeadingSlash (p : string) : string :=
  match p with
  | String a p' => if (a =? "/")%char then p' else p
  | EmptyString => p
  end.

Definition composedPath (b p : string) : string :=
  if String.eqb b EmptyString then p
  else "/" +:+ b +:+ (if String.eqb p "/" then EmptyString
                      else "/" +:+ stripLeadingSlash p).

(** ** Sample declarations and files *)

Definition deco (n : string) (args : list string) : Decorator :=
  {| getName := n; getArguments := args |}.

Definition sampleMethod (n : string) (ds : list Decorator) : MethodDeclaration :=
  {| mth_name := n; mth_decorators := ds; mth_parameters := [];
     mth_returnTypeNode := None; mth_modifiers := [] |}.

Definition sampleClass (n : string) (ds : list Decorator)
           (ms : list MethodDeclaration) : ClassDeclaration :=
  {| cls_name := Some n; cls_decorators := ds; cls_methods := ms |}.

(** [@Controller('users') class UsersController { @Get('/:id') findOne() }] *)
Definition findOne : MethodDeclaration := sampleMethod "findOne" [deco "Get" ["'/:id'"]].
Definition usersClass : ClassDeclaration :=
  sampleClass "UsersController" [deco "Controller" ["'users'"]] [findOne].

(** [@Controller() class AppController { @Get('/') index() }] *)
Definition index : MethodDeclaration := sampleMethod "index" [deco "Get" ["'/'"]].
Definition appClass : ClassDeclaration :=
  sampleClass "AppController" [deco "Controller" []] [index].

(** One call-style registration and one annotation on a controller
    method, for the same endpoint. *)
Definition controllerFile : SourceFile :=
  {| getFilePath := "src/users.controller.ts";
     getFullText :=
"app.get('/users', listUsers)
@Controller()
class UsersController {
  @Get('/users')
  list() { return [] }
}";
     getClasses :=
       [sampleClass "UsersController" [deco "Controller" []]
                    [sampleMethod "list" [deco "Get" ["'/users'"]]]] |}.

(** The same with the [router] receiver and a class that is no
    controller. *)
Definition routerFile : SourceFile :=
  {| getFilePath := "src/users.ts";
     getFullText :=
"router.get('/users', listUsers)
class Users {
  @Get('/users')
  list() { return [] }
}";
     getClasses :=
       [sampleClass "Users" [] [sampleMethod "list" [deco "Get" ["'/users'"]]]] |}.

(** The same with the [app] receiver: two registrations, two routes. *)
Definition plainFile : SourceFile :=
  {| getFilePath := "src/users.ts";
     getFullText :=
"app.get('/users', listUsers)
class Users {
  @Get('/users')
  list() { return [] }
}";
     getClasses :=
       [sampleClass "Users" [] [sampleMethod "list" [deco "Get" ["'/users'"]]]] |}.


Definition threeParameters : list RouteParameter :=
  [ {| name := "req"; type := "Request"; optional := false; decorator := None |};
    {| name := "res"; type := "Response"; optional := false; decorator := None |};
    {| name := "next"; type := "NextFunction"; optional := true; decorator := None |} ].

(** ** [ExpressExtractor]: the routes of a project, grouped by file key *)

Module ExpressExtractor.

(** [extractRoutes()]: the call-style routes of every file that is not
    skipped, in the order of the files. *)
Definition extractRoutes (sourceFiles : list SourceFile) : list UniversalRoute :=
  flat_map (fun sf =>
              if shouldSkipFile sf then []
              else extractExpressRoutes (getFullText sf))
           sourceFiles.

(** [route.path.split('/')[0] || 'root'] *)
Definition fileKey (route : UniversalRoute) : string :=
  Js.or_else (default EmptyString (head (Js.split "/" (path route)))) "root".

(** [if (!fileGroups.has(k)) fileGroups.set(k, []); fileGroups.get(k).push(route)]
    on a [Map], whose keys keep the order of their first insertion. *)
Fixpoint groupPush (k : string) (route : UniversalRoute)
         (fileGroups : list (string * list UniversalRoute))
  : list (string * list UniversalRoute) :=
  match fileGroups with
  | [] => [(k, [route])]
  | (k', rs) :: rest =>
      if String.eqb k' k then (k', rs ++ [route]) :: rest
      else (k', rs) :: groupPush k route rest
  end.

Definition fileGroupsOf (rs : list UniversalRoute)
  : list (string * list UniversalRoute) :=
  fold_left (fun fileGroups route => groupPush (fileKey route) route fileGroups) rs [].

(** [/\.(ts|js)$/] *)
Definition extensionRe : Re.regex :=
  Re.seqs [Re.lit "."; Re.Grp 1 (Re.alts (map Re.lit ["ts"; "js"])); Re.Eos].

(** [filePath.split('/').pop()?.replace(/\.(ts|js)$/, '') || 'UnknownController'] *)
Definition getControllerName (filePath : string) : string :=
  Js.or_else
    (Re.replaceFirst extensionRe EmptyString
       (default EmptyString (last (Js.split "/" filePath))))
    "UnknownController".

Definition groupRoutesByFile (rs : list UniversalRoute) : list UniversalController :=
  map (fun '(filePath, fileRoutes) =>
         {| ctl_name := getControllerName filePath;
            routes := fileRoutes;
            ctl_framework := express;
            ctl_filePath := filePath |})
      (fileGroupsOf rs).

Definition extractControllers (sourceFiles : list SourceFile)
  : list UniversalController :=
  groupRoutesByFile (extractRoutes sourceFiles).

(** The route has the file key [k]. *)
Definition hasKey (k : string) (r : UniversalRoute) : bool :=
  String.eqb (fileKey r) k.

End ExpressExtractor.

(** ** The chunked flow: services and types that go with a module *)

Inductive TypeKind : Type := kind_interface | kind_class | kind_enum | kind_type.

Record Property : Type := {
  prop_name : string;
  prop_type : string;
  prop_optional : bool
}.

Record UniversalType : Type := {
  ty_name : string;
  ty_type : TypeKind;
  ty_filePath : string;
  properties : list Property
}.

(** The test both filters apply to a name. *)
Definition relatedName (moduleName name : string) : bool :=
  let lowered := Js.toLowerCase name in
  Js.includes lowered (Js.toLowerCase moduleName)
  || (String.eqb moduleName "app" && Js.includes lowered "app").

Definition getRelatedServices (moduleName : string) (services : list UniversalService)
  : list UniversalService :=
  List.filter (fun service => relatedName moduleName (svc_name service)) services.

Definition getRelatedTypes (moduleName : string) (types : list UniversalType)
  : list UniversalType :=
  List.filter (fun t => relatedName moduleName (ty_name t)) types.

(** ** [FrameworkDetector] *)

Module FrameworkDetector.

Inductive Framework : Type := express | nestjs | fastify | koa | unknown.

Record FrameworkInfo : Type := {
  framework : Framework;
  confidence : nat;
  indicators : list string
}.

(** What the detector reads of a project: the [dependencies] object of
    its parsed [package.json] ([None] when the file or the key is
    missing), and [existsSync(join(projectPath, ...segments))] for the
    segments it asks about. *)
Record Project : Type := {
  dependencies : option (gmap string string);
  existsSync : list string -> bool
}.

(** [packageJson.dependencies[k]] is truthy. *)
Definition dependsOn (deps : gmap string string) (k : string) : bool :=
  Js.truthy (default EmptyString (deps !! k)).

Definition hasFilePattern (p : Project) (patterns : list string) : bool :=
  existsb (fun pattern => existsSync p ["src"; pattern] || existsSync p [pattern])
          patterns.

Definition hasImportPattern (_pattern : string) : bool := false.

Definition hasExpressPatterns (p : Project) : bool :=
  hasFilePattern p ["app.js"; "server.js"; "index.js"] || hasImportPattern "express".

Definition hasNestJSPatterns (p : Project) : bool :=
  hasFilePattern p ["main.ts"; "app.module.ts"] || hasImportPattern "@nestjs".

Definition indicated (indicators : list string) (i : string) : bool :=
  existsb (String.eqb i) indicators.

Definition determineFramework (_confidence : nat) (indicators : list string)
  : Framework :=
  if indicated indicators "nestjs dependency" || indicated indicators "nestjs patterns"
  then nestjs
  else if indicated indicators "express dependency"
          || indicated indicators "express patterns"
  then express
  else if indicated indicators "fastify dependency" then fastify
  else if indicated indicators "koa dependency" then koa
  else unknown.

(** [if (cond) { indicators.push(i); confidence += w }] *)
Definition note (cond : bool) (i : string) (w : nat) (st : list string * nat)
  : list string * nat :=
  if cond then (fst st ++ [i], snd st + w) else st.

Definition detectFramework (p : Project) : FrameworkInfo :=
  let st := ([], 0) in
  let st :=
    match dependencies p with
    | Some deps =>
        let st := note (dependsOn deps "express") "express dependency" 40 st in
        let st := note (dependsOn deps "@nestjs/core") "nestjs dependency" 40 st in
        let st := note (dependsOn deps "fastify") "fastify dependency" 40 st in
        note (dependsOn deps "koa") "koa dependency" 40 st
    | None => st
    end in
  let st := note (hasExpressPatterns p) "express patterns" 20 st in
  let st := note (hasNestJSPatterns p) "nestjs patterns" 20 st in
  {| framework := determineFramework (snd st) (fst st);
     confidence := Nat.min (snd st) 100;
     indicators := fst st |}.

End FrameworkDetector.

(** ** [getAPIKeyFromEnv] *)

(** [process.env[k]], an unset variable being as falsy as an empty one. *)
Definition getenv (env : gmap string string) (k : string) : string :=
  default EmptyString (env !! k).

Definition getAPIKeyFromEnv (env : gmap string string) (provider : string) : string :=
  if String.eqb provider "google" then
    Js.or_else (getenv env "GOOGLE_AI_API_KEY")
      (Js.or_else (getenv env "GOOGLE_GENERATIVE_AI_API_KEY")
         (Js.or_else (getenv env "AUTODOCGEN_GOOGLE_API_KEY") EmptyString))
  else if String.eqb provider "openai" then
    Js.or_else (getenv env "OPENAI_API_KEY")
      (Js.or_else (getenv env "AUTODOCGEN_OPENAI_API_KEY") EmptyString)
  else if String.eqb provider "anthropic" then
    Js.or_else (getenv env "ANTHROPIC_API_KEY")
      (Js.or_else (getenv env "AUTODOCGEN_ANTHROPIC_API_KEY") EmptyString)
  else EmptyString.

(** ** Vocabulary of the further statements *)

(** A route with its framework tag replaced. *)
Definition withFramework (fw : Framework) (r : UniversalRoute) : UniversalRoute :=
  {| path := path r; method := method r; handler := handler r;
     middleware := middleware r; parameters := parameters r; framework := fw |}.

(** A text as a call-style pattern with receiver [recv] reads it: the
    verb, the path between quotes, white space, the handler text, and
    what follows the match. *)
Definition callShape (recv t v p h post : string) : Prop :=
  exists q1 q2 ws,
    t = recv +:+ "." +:+ v +:+ "(" +:+ String q1 (p +:+ String q2 ("," +:+ ws +:+ h +:+ post))
    /\ quote q1 = true /\ quote q2 = true
    /\ ReSpec.allChars Js.isSpace ws = true.

(** The input cannot feed one more iteration of a star over [p]. *)
Definition stopsAt (p : ascii -> bool) (s : string) : bool :=
  match s with
  | EmptyString => true
  | String a _ => negb (p a)
  end.

Definition notParen : ascii -> bool := Js.noneOf (list_ascii_of_string "(").

(** The text of a call-style registration with a quoted path and an
    identifier as handler. *)
Definition registration (recv v p h : string) : string :=
  recv +:+ "." +:+ v +:+ "('" +:+ p +:+ "', " +:+ h +:+ ")".

(** The routes the fallback puts under a module name: those whose
    fallback name it is, the first route having the position [index]. *)
Fixpoint assignedTo (serviceModules : list (string * string)) (index : nat)
         (rs : list UniversalRoute) (moduleName : string) : list UniversalRoute :=
  match rs with
  | [] => []
  | r :: rs' =>
      (if String.eqb (fallbackModule serviceModules index r) moduleName
       then [r] else [])
      ++ assignedTo serviceModules (S index) rs' moduleName
  end.

(** A controller the controller loop passes over. *)
Definition unusable (c : UniversalController) : Prop :=
  ctl_name c = EmptyString \/ routes c = [].

(** No capital letter A-Z. *)
Definition noCapital (c : ascii) : bool := negb (Js.between 65 90 c).

(** What one file adds to each list of [extractAll]. *)
Definition fileRoutes (sf : SourceFile) : list UniversalRoute :=
  if shouldSkipFile sf then []
  else flat_map routes (extractControllers sf) ++ extractRoutes (getFullText sf).

Definition fileControllers (sf : SourceFile) : list UniversalController :=
  if shouldSkipFile sf then [] else extractControllers sf.

Definition fileServices (sf : SourceFile) : list UniversalService :=
  if shouldSkipFile sf then [] else extractServices sf.

(** [packageJson.dependencies && packageJson.dependencies[k]] is truthy. *)
Definition hasDependency (p : FrameworkDetector.Project) (k : string) : bool :=
  match FrameworkDetector.dependencies p with
  | Some deps => FrameworkDetector.dependsOn deps k
  | None => false
  end.

(** The environment variables [getAPIKeyFromEnv] reads for a provider, in
    the order of their precedence. *)
Definition keyVariables (provider : string) : list string :=
  if String.eqb provider "google"
  then ["GOOGLE_AI_API_KEY"; "GOOGLE_GENERATIVE_AI_API_KEY"; "AUTODOCGEN_GOOGLE_API_KEY"]
  else if String.eqb provider "openai"
  then ["OPENAI_API_KEY"; "AUTODOCGEN_OPENAI_API_KEY"]
  else if String.eqb provider "anthropic"
  then ["ANTHROPIC_API_KEY"; "AUTODOCGEN_ANTHROPIC_API_KEY"]
  else [].

(** A text as the annotation-style pattern reads it: the verb, the path
    between quotes, and what follows the match. *)
Definition annotationShape (t v p post : string) : Prop :=
  exists q1 q2,
    t = "@" +:+ v +:+ "(" +:+ String q1 (p +:+ String q2 (")" +:+ post))
    /\ quote q1 = true /\ quote q2 = true.


(** ** [ConfigManager]: the configuration read from the environment *)

Module ConfigManager.

(** The fields the validation reads, and the ones they are computed
    with; the temperature, the token limit, the custom prompt, the
    collection names and the file and framework settings are left out. *)
Record AIConfig : Type := {
  provider : string;
  model : string;
  apiKey : string
}.

Record DatabaseConfig : Type := {
  enabled : bool;
  url : string;
  database : string
}.

Record UniversalConfig : Type := {
  ai : AIConfig;
  db : DatabaseConfig;
  verbose : bool
}.

Definition getModelForProvider (env : gmap string string) (provider : string)
  : string :=
  if String.eqb provider "google"
  then Js.or_else (getenv env "AUTODOCGEN_GOOGLE_MODEL") "gemini-2.5-flash"
  else if String.eqb provider "openai"
  then Js.or_else (getenv env "AUTODOCGEN_OPENAI_MODEL") "gpt-4o"
  else if String.eqb provider "anthropic"
  then Js.or_else (getenv env "AUTODOCGEN_ANTHROPIC_MODEL") "claude-3-5-sonnet"
  else "gemini-2.5-flash".

Definition getAPIKeyForProvider (env : gmap string string) (provider : string)
  : string :=
  if String.eqb provider "google" then
    Js.or_else (getenv env "GOOGLE_AI_API_KEY")
      (Js.or_else (getenv env "GOOGLE_GENERATIVE_AI_API_KEY")
         (Js.or_else (getenv env "AUTODOCGEN_GOOGLE_API_KEY") EmptyString))
  else if String.eqb provider "openai" then
    Js.or_else (getenv env "OPENAI_API_KEY")
      (Js.or_else (getenv env "AUTODOCGEN_OPENAI_API_KEY") EmptyString)
  else if String.eqb provider "anthropic" then
    Js.or_else (getenv env "ANTHROPIC_API_KEY")
      (Js.or_else (getenv env "AUTODOCGEN_ANTHROPIC_API_KEY") EmptyString)
  else EmptyString.

Definition loadAIConfig (env : gmap string string) : AIConfig :=
  let provider := Js.or_else (getenv env "AUTODOCGEN_AI_PROVIDER") "google" in
  {| provider := provider;
     model := getModelForProvider env provider;
     apiKey := getAPIKeyForProvider env provider |}.

Definition loadDatabaseConfig (env : gmap string string) : DatabaseConfig :=
  {| enabled := String.eqb (getenv env "AUTODOCGEN_DB_ENABLED") "true" || false;
     url := Js.or_else (getenv env "AUTODOCGEN_DB_URL")
              (Js.or_else (getenv env "MONGODB_URL")
                          "mongodb://localhost:27017/api_docs");
     database := Js.or_else (getenv env "AUTODOCGEN_DB_NAME") "api_docs" |}.

Definition loadConfig (env : gmap string string) : UniversalConfig :=
  {| ai := loadAIConfig env;
     db := loadDatabaseConfig env;
     verbose := String.eqb (getenv env "AUTODOCGEN_VERBOSE") "true" || false |}.

Definition keyRequired : string :=
  "AI API key is required. Set via environment variable or config file.".
Definition urlRequired : string :=
  "Database URL is required when database is enabled.".

(** [validateConfig]: the pair of [valid] and [errors]. *)
Definition validateConfig (config : UniversalConfig) : bool * list string :=
  let errors := [] in
  let errors :=
    if negb (Js.truthy (apiKey (ai config))) then errors ++ [keyRequired] else errors in
  let errors :=
    if enabled (db config) && negb (Js.truthy (url (db config)))
    then errors ++ [urlRequired] else errors in
  (length errors =? 0, errors).

Definition getAvailableProviders : list string := ["google"; "openai"; "anthropic"].

Definition getAvailableModels (provider : string) : list string :=
  if String.eqb provider "google"
  then ["gemini-2.5-flash"; "gemini-2.5-pro"; "gemini-1.5-flash"; "gemini-1.5-pro"]
  else if String.eqb provider "openai"
  then ["gpt-4o"; "gpt-4o-mini"; "gpt-4-turbo"; "gpt-3.5-turbo"]
  else if String.eqb provider "anthropic"
  then ["claude-3-5-sonnet"; "claude-3-haiku"; "claude-3-opus"]
  else [].

End ConfigManager.

(** ** Vocabulary of the scan and of the handler names *)

(** The longest head of [s] whose characters satisfy [p], and the rest. *)
Fixpoint takeWhile (p : ascii -> bool) (s : string) : string :=
  match s with
  | String a s' => if p a then String a (takeWhile p s') else EmptyString
  | EmptyString => EmptyString
  end.

Fixpoint dropWhile (p : ascii -> bool) (s : string) : string :=
  match s with
  | String a s' => if p a then dropWhile p s' else s
  | EmptyString => EmptyString
  end.



(** A greedy run over the characters of [p]: the continuation is tried
    on what is left after the longest run first, then after shorter
    ones. *)
Fixpoint greedyRun {R : Type} (p : ascii -> bool) (k : string -> Re.caps -> option R)
         (s : string) (c : Re.caps) : option R :=
  match s with
  | String a s' =>
      if p a then
        match greedyRun p k s' c with
        | Some x => Some x
        | None => k s c
        end
      else k s c
  | EmptyString => k s c
  end.

(** Modelled from the spec: the matches of a pattern in a text as they
    are read from left to right.  No match, when the pattern matches at
    no place of the text; else the match at the leftmost place where the
    pattern matches, followed by the matches of what comes after that
    match.  A place inside a match is passed over. *)
Inductive Scan (r : Re.regex) : string -> list Re.found -> Prop :=
| Scan_none (s : string) :
    (forall t, ReSpec.suffixOf t s -> Re.matchHere r t = None) ->
    Scan r s []
| Scan_found (pre t : string) (f : Re.found) (fs : list Re.found) :
    Re.matchHere r t = Some f ->
    (forall pre1 pre2, pre = pre1 +:+ pre2 -> pre2 <> EmptyString ->
                       Re.matchHere r (pre2 +:+ t) = None) ->
    Scan r (Re.after f) fs ->
    Scan r (pre +:+ t) (f :: fs).

(** The route of one match of a call-style pattern, from what the match
    captured: the verb, the path and the handler text. *)
Definition capturedRoute (fw : Framework) (v p h : string) : UniversalRoute :=
  {| path := p; method := Js.toUpperCase v; handler := extractHandlerName h;
     middleware := []; parameters := fixedParameters; framework := fw |}.

Definition captures (f : Re.found) (v p h : string) : Prop :=
  Re.groups f = [(3, h); (2, p); (1, v)].

(** The handler text of a call-style match is all there is up to the
    next comma, closing parenthesis or end of the text, without the white
    space before it; made of white space only, it is the last character
    of that white space. *)
Definition wholeHandler (h post : string) : Prop :=
  ReSpec.allChars notCommaParen h = true /\ h <> EmptyString
  /\ stopsAt notCommaParen post = true
  /\ (stopsAt Js.isSpace h = true
      \/ (String.length h = 1 /\ ReSpec.allChars Js.isSpace h = true)).







(** The route methods of the controller classes of a file: the methods
    with a route decorator. *)
Definition routeMethodCount (sf : SourceFile) : nat :=
  list_sum (map (fun c => if isControllerClass c
                          then length (List.filter isRouteMethod (cls_methods c))
                          else 0)
                (getClasses sf)).

Definition routerMatches (text : string) : nat :=
  length (Re.execAll (callStyle "router") 0 text).

(** A registration inside the handler of another one. *)
Definition nestedRouterText : string :=
  "router.get('/a', x || router.get('/b', h))".

(** A spec file with one registration of each style. *)
Definition specFile : SourceFile :=
  {| getFilePath := "src/users.spec.ts";
     getFullText := getFullText plainFile;
     getClasses := getClasses plainFile |}.

(** A controller class with three route methods and a plain one. *)
Definition threeMethodsFile : SourceFile :=
  {| getFilePath := "src/items.controller.ts";
     getFullText :=
"app.get('/items', listItems)
@Controller('items')
class ItemsController {
  @Get('/items')
  list() { return [] }
  @Post()
  create() { return 1 }
  @All()
  any() { return 2 }
  helper() { return 3 }
}";
     getClasses :=
       [sampleClass "ItemsController" [deco "Controller" ["'items'"]]
                    [sampleMethod "list" [deco "Get" ["'/items'"]];
                     sampleMethod "create" [deco "Post" []];
                     sampleMethod "any" [deco "All" []];
                     sampleMethod "helper" []]] |}.

(** * Properties *)

(** ** Strings *)

Module JsFacts.
Import Js.

Lemma append_empty_r (s : string) : s +:+ EmptyString = s.
Proof. induction s as [|a s IH]; simpl; [reflexivity | now rewrite IH]. Qed.

Lemma append_assoc (a b c : string) : (a +:+ b) +:+ c = a +:+ (b +:+ c).
Proof. induction a as [|x a IH]; simpl; [reflexivity | now rewrite IH]. Qed.

Lemma length_append (a b : string) :
  String.length (a +:+ b) = String.length a + String.length b.
Proof. induction a as [|x a IH]; simpl; [reflexivity | now rewrite IH]. Qed.

Lemma take_append (a b : string) :
  take (String.length (a +:+ b) - String.length b) (a +:+ b) = a.
Proof.
  rewrite length_append.
  replace (String.length a + String.length b - String.length b)
    with (String.length a) by lia.
  induction a as [|x a IH]; simpl.
  - now destruct b.
  - now rewrite IH.
Qed.

Lemma length_map_string f (s : string) :
  String.length (map_string f s) = String.length s.
Proof. induction s as [|a s IH]; simpl; [reflexivity | now rewrite IH]. Qed.

Lemma truthy_true (s : string) : truthy s = true <-> s <> EmptyString.
Proof.
  unfold truthy. destruct (String.eqb_spec s EmptyString); simpl; split;
    congruence.
Qed.

Lemma or_else_truthy (a b : string) : truthy b = true -> truthy (or_else a b) = true.
Proof. unfold or_else. now destruct (truthy a) eqn:E. Qed.

Lemma startsWith_append (p s : string) : startsWith (p +:+ s) p = true.
Proof.
  induction p as [|a p IH]; simpl; [reflexivity|].
  now rewrite Ascii.eqb_refl.
Qed.

Lemma includes_startsWith (s x : string) :
  startsWith s x = true -> includes s x = true.
Proof. intros H. destruct s; simpl; now rewrite H. Qed.

Lemma includes_append (pre s x : string) :
  startsWith s x = true -> includes (pre +:+ s) x = true.
Proof.
  intros H. induction pre as [|a pre IH]; simpl.
  - now apply includes_startsWith.
  - rewrite IH. apply orb_true_r.
Qed.

Lemma endsWith_refl (s : string) : endsWith s s = true.
Proof. destruct s; cbn [endsWith]; now rewrite String.eqb_refl. Qed.

Lemma endsWith_append (a b : string) : endsWith (a +:+ b) b = true.
Proof.
  induction a as [|x a IH]; simpl.
  - apply endsWith_refl.
  - rewrite IH. apply orb_true_r.
Qed.

Lemma endsWith_length (s x : string) :
  endsWith s x = true -> String.length x <= String.length s.
Proof.
  induction s as [|a s IH]; cbn [endsWith]; intros H.
  - rewrite orb_false_r in H. apply String.eqb_eq in H as <-. simpl; lia.
  - apply orb_true_iff in H as [H|H].
    + apply String.eqb_eq in H as <-. simpl; lia.
    + specialize (IH H). simpl; lia.
Qed.

End JsFacts.

(** ** The matcher *)

Module ReFacts.
Import Js JsFacts Re ReSpec.

Lemma suffixOf_refl (s : string) : suffixOf s s.
Proof. now exists EmptyString. Qed.

Lemma suffixOf_trans (a b c : string) : suffixOf a b -> suffixOf b c -> suffixOf a c.
Proof.
  intros [p ->] [q ->]. exists (q +:+ p). now rewrite append_assoc.
Qed.

Lemma suffixOf_tail (a : ascii) (s : string) : suffixOf s (String a s).
Proof. now exists (String a EmptyString). Qed.

Section Inversion.
Context {R : Type}.
Implicit Types (k : string -> caps -> option R) (s : string) (c : caps) (x : R).

Lemma starLoop_inv (r : regex) k n :
  (forall k s c x, m r k s c = Some x -> reaches r k s c x) ->
  forall s c x, starLoop (m r) k n s c = Some x -> reaches (Star r) k s c x.
Proof.
  intros IH. induction n as [|n IHn]; intros s c x H; simpl in H.
  - exists s, c. split; [assumption|]. split; [apply suffixOf_refl | reflexivity].
  - destruct (m r _ s c) as [y|] eqn:E.
    + injection H as ->.
      destruct (IH _ _ _ _ E) as (s1 & c1 & Hk & Hs & Hc).
      destruct (String.length s1 <? String.length s); [|discriminate].
      destruct (IHn _ _ _ Hk) as (s2 & c2 & Hk2 & Hs2 & Hc2).
      exists s2, c2. split; [assumption|]. split.
      * eapply suffixOf_trans; eassumption.
      * intros i Hi. simpl in *. rewrite Hc2, Hc; auto.
    + exists s, c. split; [assumption|]. split; [apply suffixOf_refl | reflexivity].
Qed.

Lemma m_inv (r : regex) : forall k s c x, m r k s c = Some x -> reaches r k s c x.
Proof.
  induction r as [|p|r1 IH1 r2 IH2|r1 IH1 r2 IH2|r1 IH1|i r1 IH1|];
    intros k s c x H; simpl in H.
  - exists s, c. split; [assumption|]. split; [apply suffixOf_refl | reflexivity].
  - destruct s as [|a s]; [discriminate|].
    destruct (p a); [|discriminate].
    exists s, c. split; [assumption|]. split; [apply suffixOf_tail | reflexivity].
  - destruct (IH1 _ _ _ _ H) as (s1 & c1 & Hk & Hs & Hc).
    destruct (IH2 _ _ _ _ Hk) as (s2 & c2 & Hk2 & Hs2 & Hc2).
    exists s2, c2. split; [assumption|]. split.
    + eapply suffixOf_trans; eassumption.
    + intros i Hi. simpl in Hi. rewrite in_app_iff in Hi.
      rewrite Hc2, Hc; auto.
  - destruct (m r1 k s c) as [y|] eqn:E.
    + injection H as ->.
      destruct (IH1 _ _ _ _ E) as (s1 & c1 & Hk & Hs & Hc).
      exists s1, c1. split; [assumption|]. split; [assumption|].
      intros i Hi. simpl in Hi. rewrite in_app_iff in Hi. auto.
    + destruct (IH2 _ _ _ _ H) as (s1 & c1 & Hk & Hs & Hc).
      exists s1, c1. split; [assumption|]. split; [assumption|].
      intros i Hi. simpl in Hi. rewrite in_app_iff in Hi. auto.
  - eapply starLoop_inv; eassumption.
  - destruct (IH1 _ _ _ _ H) as (s1 & c1 & Hk & Hs & Hc).
    eexists s1, _. split; [eassumption|]. split; [assumption|].
    intros j Hj. simpl in Hj. simpl.
    destruct (Nat.eqb_spec j i) as [->|Hne]; [tauto|]. apply Hc. tauto.
  - destruct s; [|discriminate].
    exists EmptyString, c. split; [assumption|]. split; [apply suffixOf_refl | reflexivity].
Qed.

(** A literal: the input starts with it. *)
Lemma m_lit (w : string) k s c x :
  m (lit w) k s c = Some x <-> exists s', s = w +:+ s' /\ k s' c = Some x.
Proof.
  revert s. induction w as [|a w IH]; intros s; simpl.
  - split; [intros H; now exists s | now intros (s' & -> & H)].
  - destruct s as [|b s].
    + split; [discriminate | now intros (s' & ? & _)].
    + unfold isChar at 1. destruct (Ascii.eqb_spec b a) as [->|Hne].
      * rewrite IH. split; intros (s' & E & H); exists s'; split; congruence.
      * split; [discriminate | intros (s' & E & _); congruence].
Qed.

(** A literal under the [i] flag: the input starts with a text that has
    the same canonical form. *)
Lemma m_litCI (w : string) k s c x :
  m (litCI w) k s c = Some x <->
  exists t s', s = t +:+ s' /\ map_string canonicalize t = map_string canonicalize w
               /\ k s' c = Some x.
Proof.
  revert s. induction w as [|a w IH]; intros s; simpl.
  - split.
    + intros H. now exists EmptyString, s.
    + intros (t & s' & -> & E & H). destruct t; [assumption | discriminate].
  - destruct s as [|b s].
    + split; [discriminate|].
      intros (t & s' & E & Ht & _). destruct t; discriminate.
    + unfold isCharCI at 1. destruct (Ascii.eqb_spec (canonicalize b) (canonicalize a)) as [Hc|Hne].
      * rewrite IH. split.
        -- intros (t & s' & -> & E & H). exists (String b t), s'.
           simpl. rewrite Hc, E. auto.
        -- intros (t & s' & E & Ht & H). destruct t as [|b' t]; [discriminate|].
           simpl in E, Ht. injection E as -> ->. injection Ht as _ Ht.
           now exists t, s'.
      * split; [discriminate|].
        intros (t & s' & E & Ht & _). destruct t as [|b' t]; [discriminate|].
        simpl in E, Ht. injection E as -> ->. injection Ht as Ht _. contradiction.
Qed.

(** One of several words: the input starts with one of them. *)
Lemma m_alts_lit (ws : list string) k s c x :
  m (alts (map lit ws)) k s c = Some x ->
  exists w s', In w ws /\ s = w +:+ s' /\ k s' c = Some x.
Proof.
  induction ws as [|w ws IH]; simpl.
  - destruct s; discriminate.
  - destruct ws as [|w' ws].
    + simpl. intros H. apply m_lit in H as (s' & -> & H). exists w, s'. auto.
    + change (alts (lit w :: map lit (w' :: ws)))
        with (Alt (lit w) (alts (map lit (w' :: ws)))).
      simpl m. destruct (m (lit w) k s c) as [y|] eqn:E.
      * intros [= ->]. apply m_lit in E as (s' & -> & H). exists w, s'. auto.
      * intros H. destruct (IH H) as (v & s' & Hin & -> & Hk).
        exists v, s'. auto.
Qed.

(** A class, then a star of a class. *)
Lemma m_chr (p : ascii -> bool) k s c x :
  m (Chr p) k s c = Some x ->
  exists a s', s = String a s' /\ p a = true /\ k s' c = Some x.
Proof.
  simpl. destruct s as [|a s]; [discriminate|].
  destruct (p a) eqn:E; [|discriminate]. intros H. now exists a, s.
Qed.

Lemma starLoop_chr (p : ascii -> bool) k n s c x :
  starLoop (m (Chr p)) k n s c = Some x ->
  exists t s', s = t +:+ s' /\ allChars p t = true /\ k s' c = Some x.
Proof.
  revert s. induction n as [|n IH]; intros s H; cbn [starLoop] in H.
  - now exists EmptyString, s.
  - destruct (m (Chr p) _ s c) as [y|] eqn:E.
    + injection H as ->.
      apply m_chr in E as (a & s1 & -> & Ha & Hk).
      destruct (String.length s1 <? String.length (String a s1)); [|discriminate].
      destruct (IH _ Hk) as (t & s' & -> & Ht & Hk').
      exists (String a t), s'. simpl. rewrite Ha, Ht. auto.
    + now exists EmptyString, s.
Qed.

Lemma m_star_chr (p : ascii -> bool) k s c x :
  m (Star (Chr p)) k s c = Some x ->
  exists t s', s = t +:+ s' /\ allChars p t = true /\ k s' c = Some x.
Proof. apply starLoop_chr. Qed.

Lemma m_plus_chr (p : ascii -> bool) k s c x :
  m (Plus (Chr p)) k s c = Some x ->
  exists t s', s = t +:+ s' /\ t <> EmptyString /\ allChars p t = true
               /\ k s' c = Some x.
Proof.
  unfold Plus. simpl m. intros H.
  change (m (Chr p) (m (Star (Chr p)) k) s c = Some x) in H.
  apply m_chr in H as (a & s1 & -> & Ha & H).
  apply m_star_chr in H as (t & s' & -> & Ht & Hk).
  exists (String a t), s'. simpl. rewrite Ha, Ht. repeat split; auto; discriminate.
Qed.

End Inversion.

(** Every match the scans report was found by the pattern at some place
    of the text. *)
Lemma search_matchHere (r : regex) (s pre : string) (f : found) :
  search r s = Some (pre, f) ->
  exists t, s = pre +:+ t /\ matchHere r t = Some f.
Proof.
  revert pre. induction s as [|a s IH]; intros pre; simpl.
  - destruct (matchHere r EmptyString) as [g|] eqn:E; [|discriminate].
    intros [= <- <-]. now exists EmptyString.
  - destruct (matchHere r (String a s)) as [g|] eqn:E.
    + intros [= <- <-]. now exists (String a s).
    + destruct (search r s) as [[pre' g]|]; [|discriminate].
      intros [= <- <-]. destruct (IH pre' eq_refl) as (t & -> & Ht).
      now exists t.
Qed.

Lemma execAll_matchHere (r : regex) (s : string) :
  forall skip f, In f (execAll r skip s) ->
  exists t, suffixOf t s /\ matchHere r t = Some f.
Proof.
  induction s as [|a s IH]; intros skip f; simpl.
  - destruct skip; [|intros []].
    destruct (matchHere r EmptyString) as [g|] eqn:E; [|intros []].
    intros [<-|[]]. exists EmptyString. split; [apply suffixOf_refl | assumption].
  - destruct skip as [|skip].
    + destruct (matchHere r (String a s)) as [g|] eqn:E.
      * intros [<-|H].
        -- exists (String a s). split; [apply suffixOf_refl | assumption].
        -- destruct (IH _ _ H) as (t & Ht & Hm). exists t. split; [|assumption].
           eapply suffixOf_trans; [eassumption | apply suffixOf_tail].
      * intros H. destruct (IH _ _ H) as (t & Ht & Hm). exists t. split; [|assumption].
        eapply suffixOf_trans; [eassumption | apply suffixOf_tail].
    + intros H. destruct (IH _ _ H) as (t & Ht & Hm). exists t. split; [|assumption].
      eapply suffixOf_trans; [eassumption | apply suffixOf_tail].
Qed.

End ReFacts.

(** ** Module names *)

Module NamingFacts.
Import Js JsFacts Re ReSpec ReFacts.

Lemma m_alts_litCI {R : Type} (ws : list string) (k : string -> caps -> option R) s c x :
  m (alts (map litCI ws)) k s c = Some x ->
  exists w t s', In w ws /\ s = t +:+ s' /\ canon t = canon w /\ k s' c = Some x.
Proof.
  induction ws as [|w ws IH]; simpl.
  - destruct s; discriminate.
  - destruct ws as [|w' ws].
    + simpl. intros H. apply m_litCI in H as (t & s' & -> & E & H).
      exists w, t, s'. auto.
    + change (alts (litCI w :: map litCI (w' :: ws)))
        with (Alt (litCI w) (alts (map litCI (w' :: ws)))).
      simpl m. destruct (m (litCI w) k s c) as [y|] eqn:E.
      * intros [= ->]. apply m_litCI in E as (t & s' & -> & E & H).
        exists w, t, s'. auto.
      * intros H. destruct (IH H) as (v & t & s' & Hin & -> & Ht & Hk).
        exists v, t, s'. auto.
Qed.

Lemma m_alts_litCI_complete {R : Type} (ws : list string)
      (k : string -> caps -> option R) w t s' c x :
  In w ws -> canon t = canon w -> k s' c = Some x ->
  exists y, m (alts (map litCI ws)) k (t +:+ s') c = Some y.
Proof.
  intros Hin Ht Hk. induction ws as [|w1 ws IH]; [destruct Hin|].
  assert (Hw : forall v, v = w -> m (litCI v) k (t +:+ s') c = Some x).
  { intros v ->. apply m_litCI. now exists t, s'. }
  destruct ws as [|w2 ws].
  - destruct Hin as [->|[]]. exists x. now apply Hw.
  - change (alts (map litCI (w1 :: w2 :: ws)))
      with (Alt (litCI w1) (alts (map litCI (w2 :: ws)))).
    simpl m. destruct (m (litCI w1) k (t +:+ s') c) as [y|] eqn:E.
    + now exists y.
    + destruct Hin as [->|Hin]; [rewrite (Hw w eq_refl) in E; discriminate|].
      now apply IH.
Qed.

Lemma matchHere_suffixRe (t : string) (f : found) :
  matchHere suffixRe t = Some f -> after f = EmptyString /\ isSuffixWord t = true.
Proof.
  unfold matchHere, suffixRe. cbn [seqs m]. intros H.
  apply m_alts_litCI in H as (w & u & s' & Hin & -> & Hu & H).
  destruct s'; [|discriminate]. injection H as <-. split; [reflexivity|].
  rewrite append_empty_r. apply existsb_exists. exists w. split; [assumption|].
  now apply String.eqb_eq.
Qed.

Lemma matchHere_suffixRe_complete (t : string) :
  isSuffixWord t = true -> exists f, matchHere suffixRe t = Some f.
Proof.
  intros H. apply existsb_exists in H as (w & Hin & E). apply String.eqb_eq in E.
  unfold matchHere, suffixRe. cbn [seqs m].
  match goal with
  | |- exists f, m _ ?K t [] = Some f =>
      destruct (m_alts_litCI_complete suffixWords K w t EmptyString [] _ Hin E eq_refl)
        as [y Hy]
  end.
  rewrite append_empty_r in Hy. now exists y.
Qed.

Lemma replaceFirst_suffixRe (s : string) :
  replaceFirst suffixRe EmptyString s = stripScan s.
Proof.
  induction s as [|a s IH].
  - reflexivity.
  - unfold replaceFirst in *. cbn [search stripScan].
    destruct (matchHere suffixRe (String a s)) as [f|] eqn:E.
    + destruct (matchHere_suffixRe _ _ E) as [-> ->]. reflexivity.
    + destruct (isSuffixWord (String a s)) eqn:W.
      * destruct (matchHere_suffixRe_complete _ W) as [f Hf]. congruence.
      * rewrite <- IH. destruct (search suffixRe s) as [[pre f]|]; reflexivity.
Qed.

Lemma find_whole_word (w0 : string) :
  In w0 suffixWords ->
  find (fun w => endsWith (canon w0) (canon w)) suffixWords = Some w0.
Proof.
  intros H. repeat (destruct H as [<-|H]; [reflexivity|]). destruct H.
Qed.

Lemma stripScan_stripSuffix (s : string) : stripScan s = stripSuffix s.
Proof.
  induction s as [|a s IH]; [reflexivity|].
  cbn [stripScan]. unfold stripSuffix, endsWithCI in *.
  destruct (isSuffixWord (String a s)) eqn:W.
  - apply existsb_exists in W as (w0 & Hin & E). apply String.eqb_eq in E.
    rewrite E, (find_whole_word _ Hin).
    assert (L : String.length (String a s) = String.length w0).
    { unfold canon in E. apply (f_equal String.length) in E.
      now rewrite !length_map_string in E. }
    rewrite L, Nat.sub_diag. reflexivity.
  - rewrite IH.
    assert (X : forall w, In w suffixWords ->
                endsWith (canon (String a s)) (canon w) = endsWith (canon s) (canon w)).
    { intros w Hw. change (canon (String a s)) with (String (canonicalize a) (canon s)).
      cbn [endsWith].
      destruct (String.eqb_spec (String (canonicalize a) (canon s)) (canon w)) as [E|]; [|reflexivity].
      exfalso. unfold isSuffixWord in W.
      assert (existsb (fun w => String.eqb (canon (String a s)) (canon w)) suffixWords = true)
        as Y; [|congruence].
      apply existsb_exists. exists w. split; [assumption|]. now apply String.eqb_eq. }
    revert X. generalize suffixWords as ws. induction ws as [|w ws IHws]; intros X.
    + reflexivity.
    + cbn [find]. rewrite (X w (or_introl eq_refl)).
      destruct (endsWith (canon s) (canon w)) eqn:E.
      * apply endsWith_length in E. unfold canon in E.
        rewrite !length_map_string in E.
        change (String.length (String a s)) with (S (String.length s)).
        replace (S (String.length s) - String.length w)
          with (S (String.length s - String.length w)) by lia.
        reflexivity.
      * apply IHws. intros v Hv. apply X. now right.
Qed.

Lemma extractModuleFromName_derive (nm : string) :
  extractModuleFromName nm = deriveModuleName nm.
Proof.
  unfold extractModuleFromName, deriveModuleName, truthy, pluralize.
  destruct (String.eqb nm EmptyString); [reflexivity|]. cbn [negb].
  rewrite replaceFirst_suffixRe, stripScan_stripSuffix.
  destruct (endsWith _ "y"); [reflexivity|]. destruct (endsWith _ "s"); reflexivity.
Qed.

(** A derived module name ends with an s, and so is none of the names an
    object inherits. *)
Lemma extractModuleFromName_endsWith (nm mn : string) :
  extractModuleFromName nm = Some mn -> endsWith mn "s" = true.
Proof.
  unfold extractModuleFromName. destruct (negb (truthy nm)); [discriminate|].
  destruct (endsWith _ "y") eqn:Y; [|destruct (endsWith _ "s") eqn:S].
  - intros [= <-].
    match goal with
    | |- endsWith (?a +:+ _) _ = _ =>
        replace (a +:+ "ies") with ((a +:+ "ie") +:+ "s") by apply append_assoc
    end.
    apply endsWith_append.
  - now intros [= <-].
  - intros [= <-]. apply endsWith_append.
Qed.

Lemma inherited_endsWith (k : string) : inherited k = true -> endsWith k "s" = false.
Proof.
  unfold inherited. intros H. apply existsb_exists in H as (w & Hin & E).
  apply String.eqb_eq in E as ->.
  repeat (destruct Hin as [<-|Hin]; [reflexivity|]). destruct Hin.
Qed.

Lemma extractModuleFromName_own (nm mn : string) :
  extractModuleFromName nm = Some mn -> inherited mn = false /\ truthy mn = true.
Proof.
  intros H. apply extractModuleFromName_endsWith in H. split.
  - destruct (inherited mn) eqn:E; [|reflexivity].
    apply inherited_endsWith in E. congruence.
  - destruct mn; [discriminate | reflexivity].
Qed.

End NamingFacts.

(** ** Grouping *)

Module GroupingFacts.
Import Js JsFacts NamingFacts.

Lemma pushRoute_own (chunks : gmap string (list UniversalRoute)) mn r :
  inherited mn = false ->
  pushRoute chunks mn r = Some (<[mn := default [] (chunks !! mn) ++ [r]]> chunks).
Proof.
  intros H. unfold pushRoute. destruct (chunks !! mn); simpl; [reflexivity|].
  now rewrite H.
Qed.

Lemma pushRoutes (mn : string) (l : list UniversalRoute) :
  inherited mn = false ->
  forall chunks : gmap string (list UniversalRoute),
    forEachM (fun ch r => pushRoute ch mn r) chunks l
    = Some (match l with
            | [] => chunks
            | _ => <[mn := default [] (chunks !! mn) ++ l]> chunks
            end).
Proof.
  intros H. induction l as [|r l IH]; intros chunks; [reflexivity|].
  cbn [forEachM]. rewrite (pushRoute_own _ _ _ H), IH.
  destruct l as [|r' l]; [reflexivity|].
  rewrite lookup_insert_eq, insert_insert_eq. simpl. now rewrite <- app_assoc.
Qed.

Lemma groupController_lookup (chunks : gmap string (list UniversalRoute)) c :
  exists chunks',
    groupController chunks c = Some chunks'
    /\ forall mn, chunks' !! mn
                  = match ownedBy [c] mn with
                    | [] => chunks !! mn
                    | l => Some (default [] (chunks !! mn) ++ l)
                    end.
Proof.
  unfold groupController, ownedBy. cbn [flat_map]. setoid_rewrite app_nil_r.
  destruct (truthy (ctl_name c)) eqn:T; [|now exists chunks].
  destruct (extractModuleFromName (ctl_name c)) as [m0|] eqn:E; [|now exists chunks].
  destruct (extractModuleFromName_own _ _ E) as [Hown ->].
  rewrite (pushRoutes _ _ Hown). eexists; split; [reflexivity|].
  intros mn. cbn [andb]. destruct (routes c) as [|r l] eqn:Rs.
  - now destruct (bool_decide _).
  - destruct (bool_decide_reflect (Some m0 = Some mn)) as [[= ->]|Hne].
    + now rewrite lookup_insert_eq.
    + rewrite lookup_insert_ne; [reflexivity | congruence].
Qed.

Lemma controllers_lookup (controllers : list UniversalController) :
  forall chunks : gmap string (list UniversalRoute),
  exists chunks',
    forEachM groupController chunks controllers = Some chunks'
    /\ forall mn, chunks' !! mn
                  = match ownedBy controllers mn with
                    | [] => chunks !! mn
                    | l => Some (default [] (chunks !! mn) ++ l)
                    end.
Proof.
  induction controllers as [|c cs IH]; intros chunks.
  - exists chunks. split; reflexivity.
  - destruct (groupController_lookup chunks c) as (ch1 & H1 & L1).
    destruct (IH ch1) as (ch2 & H2 & L2).
    exists ch2. cbn [forEachM]. rewrite H1. split; [assumption|].
    intros mn. rewrite L2, L1.
    assert (Eo : ownedBy (c :: cs) mn = ownedBy [c] mn ++ ownedBy cs mn)
      by (unfold ownedBy; cbn [flat_map]; now rewrite app_nil_r).
    rewrite Eo.
    destruct (ownedBy [c] mn) as [|r l]; [reflexivity|].
    destruct (ownedBy cs mn) as [|r' l'].
    + now rewrite app_nil_r.
    + simpl. now rewrite <- app_assoc.
Qed.

Lemma ownedBy_In (controllers : list UniversalController) mn r :
  In r (ownedBy controllers mn) <->
  exists c, In c controllers /\ ctl_name c <> EmptyString
            /\ extractModuleFromName (ctl_name c) = Some mn /\ In r (routes c).
Proof.
  unfold ownedBy. rewrite in_flat_map. split.
  - intros (c & Hc & Hr). exists c. split; [assumption|].
    destruct (truthy (ctl_name c)) eqn:T; [|destruct Hr].
    destruct (bool_decide_reflect (extractModuleFromName (ctl_name c) = Some mn));
      [|destruct Hr].
    apply truthy_true in T. auto.
  - intros (c & Hc & Hn & He & Hr). exists c. split; [assumption|].
    apply truthy_true in Hn. rewrite Hn, bool_decide_true by assumption. assumption.
Qed.

Lemma sanitize_idem (s : string) : sanitize (sanitize s) = sanitize s.
Proof.
  unfold sanitize. induction s as [|a s IH]; [reflexivity|].
  cbn [replaceChars]. destruct (isModuleChar a) eqn:E; cbn [negb].
  - cbn [replaceChars]. rewrite E. cbn [negb]. now rewrite IH.
  - simpl. now rewrite IH.
Qed.

(** The sibling path: every key the fallback writes is sanitized. *)
Lemma fallbackLoop_keys sm (rs : list UniversalRoute) :
  forall i (chunks chunks' : gmap string (list UniversalRoute)),
    (forall k, is_Some (chunks !! k) -> sanitize k = k) ->
    fallbackLoop sm i rs chunks = Some chunks' ->
    forall k, is_Some (chunks' !! k) -> sanitize k = k.
Proof.
  induction rs as [|r rs IH]; intros i chunks chunks' Inv H; cbn [fallbackLoop] in H.
  - now injection H as <-.
  - destruct (pushRoute chunks (fallbackModule sm i r) r) as [ch1|] eqn:P; [|discriminate].
    refine (IH _ _ _ _ H). intros k Hk.
    unfold pushRoute in P.
    assert (S : sanitize (fallbackModule sm i r) = fallbackModule sm i r)
      by apply sanitize_idem.
    destruct (chunks !! fallbackModule sm i r) eqn:L.
    + injection P as <-.
      destruct (decide (fallbackModule sm i r = k)) as [<-|Hne]; [assumption|].
      rewrite lookup_insert_ne in Hk by assumption. now apply Inv.
    + destruct (inherited _); [discriminate|]. injection P as <-.
      destruct (decide (fallbackModule sm i r = k)) as [<-|Hne]; [assumption|].
      rewrite lookup_insert_ne in Hk by assumption. now apply Inv.
Qed.

(** With no service and no usable path segment the position decides,
    and with no service module to pick the name is app. *)
Lemma fallbackModule_pathless (i : nat) (r : UniversalRoute) :
  pathless r -> fallbackModule [] i r = "app".
Proof.
  intros (H1 & H2 & H3). unfold fallbackModule, matchService. cbn [find].
  cbn [String.eqb Ascii.eqb Bool.eqb].
  destruct (String.eqb_spec (path r) "/") as [|_]; [contradiction|].
  destruct (String.eqb_spec (path r) EmptyString) as [|_]; [contradiction|].
  cbn [orb]. rewrite H3. reflexivity.
Qed.

Lemma fallbackLoop_pathless (rs : list UniversalRoute) :
  Forall pathless rs ->
  forall i chunks,
    fallbackLoop [] i rs chunks = forEachM (fun ch r => pushRoute ch "app" r) chunks rs.
Proof.
  induction 1 as [|r rs Hr _ IH]; intros i chunks; [reflexivity|].
  cbn [fallbackLoop forEachM]. rewrite (fallbackModule_pathless _ _ Hr).
  destruct (pushRoute chunks "app" r); [apply IH | reflexivity].
Qed.

Lemma mapSet_keys (k v : string) (sm : list (string * string)) :
  truthy k = true ->
  Forall (fun kv => truthy (fst kv) = true) sm ->
  Forall (fun kv => truthy (fst kv) = true) (mapSet k v sm).
Proof.
  intros Hk. induction 1 as [|[k' v'] sm Hkv Hsm IH]; cbn [mapSet].
  - repeat constructor. assumption.
  - destruct (String.eqb k' k); constructor; assumption.
Qed.

Lemma serviceModulesOf_keys (services : list UniversalService) :
  Forall (fun kv => truthy (fst kv) = true) (serviceModulesOf services).
Proof.
  unfold serviceModulesOf.
  assert (G : forall acc, Forall (fun kv => truthy (fst kv) = true) acc ->
              Forall (fun kv : string * string => truthy (fst kv) = true)
                (fold_left (fun sm service =>
                   if truthy (svc_name service) then
                     match extractModuleFromName (svc_name service) with
                     | Some moduleName =>
                         if truthy moduleName
                         then mapSet moduleName (svc_name service) sm else sm
                     | None => sm
                     end
                   else sm) services acc)).
  { induction services as [|s ss IH]; intros acc Hacc; [assumption|].
    cbn [fold_left]. apply IH.
    destruct (truthy (svc_name s)); [|assumption].
    destruct (extractModuleFromName (svc_name s)) as [mn|]; [|assumption].
    destruct (truthy mn) eqn:T; [|assumption]. now apply mapSet_keys. }
  apply G. constructor.
Qed.

(** The round robin: the bucket [index / 3] picks the module name at
    that place of the discovery order, and app beyond its end. *)
Lemma byPosition_bucket (sm : list (string * string)) (index : nat) :
  Forall (fun kv => truthy (fst kv) = true) sm ->
  byPosition sm index = default "app" (map fst sm !! (index / 3)).
Proof.
  intros H. unfold byPosition.
  destruct (Nat.ltb_spec (index / 3) (length (map fst sm))) as [L|L].
  - destruct (map fst sm !! (index / 3)) as [k|] eqn:E.
    + simpl. unfold or_else.
      assert (T : truthy k = true); [|now rewrite T].
      apply list_elem_of_lookup_2, list_elem_of_In, in_map_iff in E as ([k' v] & <- & Hin).
      rewrite List.Forall_forall in H. apply (H _ Hin).
    + apply lookup_ge_None in E. lia.
  - apply lookup_ge_None in L. now rewrite L.
Qed.

Lemma fallbackModule_byPosition (sm : list (string * string)) (index : nat)
      (r : UniversalRoute) :
  matchService sm r = "unknown" -> pathless r ->
  fallbackModule sm index r = sanitize (byPosition sm index).
Proof.
  intros M (H1 & H2 & H3). unfold fallbackModule. rewrite M.
  cbn [String.eqb Ascii.eqb Bool.eqb].
  destruct (String.eqb_spec (path r) "/") as [|_]; [contradiction|].
  destruct (String.eqb_spec (path r) EmptyString) as [|_]; [contradiction|].
  cbn [orb]. now rewrite H3.
Qed.

End GroupingFacts.

(** ** Extraction *)

Module ExtractionFacts.
Import Js JsFacts Re ReSpec ReFacts.

Section Steps.
Context {R : Type}.
Implicit Types (k : string -> caps -> option R) (s : string) (c : caps).

Lemma m_seqs_cons (r : regex) (rs : list regex) k s c :
  m (seqs (r :: rs)) k s c = m r (m (seqs rs) k) s c.
Proof. reflexivity. Qed.

Lemma m_grp (i : nat) (r : regex) k s c :
  m (Grp i r) k s c
  = m r (fun s' c' => k s' ((i, take (String.length s - String.length s') s) :: c')) s c.
Proof. reflexivity. Qed.
End Steps.



Lemma suffixOf_length (s' s : string) :
  suffixOf s' s -> String.length s' <= String.length s.
Proof. intros [pre ->]. rewrite length_append. lia. Qed.

Lemma take_nonempty (n : nat) (s : string) :
  0 < n -> s <> EmptyString -> take n s <> EmptyString.
Proof. destruct n, s; simpl; intros; (lia || congruence). Qed.

(** A route pattern never matches the empty text, so the scan of a text
    moves on after every match. *)
Lemma callStyle_nonempty (recv t : string) (f : found) :
  matchHere (callStyle recv) t = Some f -> matched f <> EmptyString.
Proof.
  unfold matchHere, callStyle. intros H.
  rewrite m_seqs_cons in H. apply m_lit in H as (s1 & -> & H).
  rewrite m_seqs_cons in H. apply m_lit in H as (s2 & -> & H).
  apply m_inv in H as (s' & c' & Hk & Hs & _).
  injection Hk as <-. cbn [matched]. apply suffixOf_length in Hs.
  apply take_nonempty.
  - rewrite !length_append. simpl. lia.
  - intros E. apply (f_equal String.length) in E.
    rewrite !length_append in E. simpl in E. lia.
Qed.

Lemma annotationStyle_nonempty (t : string) (f : found) :
  matchHere annotationStyle t = Some f -> matched f <> EmptyString.
Proof.
  unfold matchHere, annotationStyle. intros H.
  rewrite m_seqs_cons in H. apply m_lit in H as (s1 & -> & H).
  apply m_inv in H as (s' & c' & Hk & Hs & _).
  injection Hk as <-. cbn [matched]. apply suffixOf_length in Hs.
  apply take_nonempty; [simpl; lia | discriminate].
Qed.

Lemma routePatterns_re (p : Pattern) :
  In p routePatterns -> (exists recv, re p = callStyle recv) \/ re p = annotationStyle.
Proof.
  intros H. repeat (destruct H as [<-|H]; [simpl; eauto|]). destruct H.
Qed.

Lemma routePatterns_nonempty (p : Pattern) (t : string) (f : found) :
  In p routePatterns -> matchHere (re p) t = Some f -> matched f <> EmptyString.
Proof.
  intros Hp H. destruct (routePatterns_re p Hp) as [[recv E]|E]; rewrite E in H.
  - eapply callStyle_nonempty; eassumption.
  - eapply annotationStyle_nonempty; eassumption.
Qed.


(** Every match becomes one route: the guard on method and path never
    fails, both having a default. *)
Lemma routeOfMatch_single (text : string) (p : Pattern) (f : found) :
  routeOfMatch text p f
  = [ {| path := extractPath f; method := extractMethod f;
         handler := extractHandler f; middleware := [];
         parameters := fixedParameters;
         framework := detectFrameworkFromPattern p |} ].
Proof.
  unfold routeOfMatch, extractMethod, extractPath.
  now rewrite !or_else_truthy by reflexivity.
Qed.

Lemma length_routesOfPattern (text : string) (p : Pattern) :
  length (routesOfPattern text p) = length (execAll (re p) 0 text).
Proof.
  unfold routesOfPattern. induction (execAll (re p) 0 text) as [|f l IH]; [reflexivity|].
  cbn [flat_map]. rewrite routeOfMatch_single. simpl. now rewrite IH.
Qed.

Lemma In_routesOfPattern (text : string) (p : Pattern) (r : UniversalRoute) :
  In r (routesOfPattern text p) ->
  exists f t, matchHere (re p) t = Some f /\ routeOfMatch text p f = [r].
Proof.
  unfold routesOfPattern. rewrite in_flat_map. intros (f & Hf & Hr).
  apply execAll_matchHere in Hf as (t & _ & Hm). exists f, t. split; [assumption|].
  rewrite routeOfMatch_single in *. destruct Hr as [<-|[]]. reflexivity.
Qed.

Lemma In_extractRoutes (text : string) (r : UniversalRoute) :
  In r (extractRoutes text) ->
  exists p f t, In p routePatterns /\ matchHere (re p) t = Some f
                /\ routeOfMatch text p f = [r].
Proof.
  unfold extractRoutes. rewrite in_flat_map. intros (p & Hp & Hr).
  apply In_routesOfPattern in Hr as (f & t & Hm & Hr). now exists p, f, t.
Qed.



(** The routes of a controller method carry the upper-cased name of the
    route decorator, one of six. *)
Lemma extractRouteFromMethod_method (mth : MethodDeclaration) (c : ClassDeclaration)
      (r : UniversalRoute) :
  extractRouteFromMethod mth c = Some r -> In (method r) (httpVerbs ++ ["ALL"]).
Proof.
  unfold extractRouteFromMethod.
  destruct (find isRouteDecorator (mth_decorators mth)) as [d|] eqn:F; [|discriminate].
  intros [= <-]. cbn [method]. apply find_some in F as [_ F].
  unfold isRouteDecorator in F. apply existsb_exists in F as (n & Hn & E).
  apply String.eqb_eq in E as ->.
  repeat (destruct Hn as [<-|Hn]; [vm_compute; tauto|]). destruct Hn.
Qed.


Lemma extractFile_routes (acc : Extracted) (sf : SourceFile) :
  shouldSkipFile sf = false ->
  all_routes (extractFile acc sf)
  = all_routes acc ++ flat_map routes (extractControllers sf)
      ++ extractRoutes (getFullText sf).
Proof.
  unfold extractFile. intros ->. cbn [all_routes]. now rewrite <- app_assoc.
Qed.


End ExtractionFacts.

Module HandlerFacts.
Import Js JsFacts Re ReSpec ReFacts ExtractionFacts.

Lemma or_else_id (a b : string) : a <> EmptyString -> or_else a b = a.
Proof. intros H. unfold or_else. apply truthy_true in H. now rewrite H. Qed.

Lemma matchHere_arrowRe (t : string) (f : found) :
  matchHere arrowRe t = Some f ->
  exists w ws post,
    t = w +:+ ws +:+ "=>" +:+ post /\ w <> EmptyString
    /\ allChars isWord w = true /\ allChars isSpace ws = true
    /\ group 1 (groups f) = Some w.
Proof.
  unfold matchHere, arrowRe, word. intros H.
  rewrite m_seqs_cons, m_grp in H.
  apply m_plus_chr in H as (w & s1 & -> & Hw & Hw' & H).
  rewrite take_append in H.
  rewrite m_seqs_cons in H. apply m_star_chr in H as (ws & s2 & -> & Hws & H).
  rewrite m_seqs_cons in H. apply m_lit in H as (s3 & -> & H).
  injection H as <-. exists w, ws, s3. repeat split; assumption.
Qed.

Lemma matchHere_keywordRe (kw t : string) (f : found) :
  matchHere (seqs [lit kw; Plus (Chr isSpace); Grp 1 word]) t = Some f ->
  exists ws n post,
    t = kw +:+ ws +:+ n +:+ post /\ ws <> EmptyString
    /\ allChars isSpace ws = true /\ n <> EmptyString
    /\ allChars isWord n = true /\ group 1 (groups f) = Some n.
Proof.
  unfold matchHere, word. intros H.
  rewrite m_seqs_cons in H. apply m_lit in H as (s1 & -> & H).
  rewrite m_seqs_cons in H. apply m_plus_chr in H as (ws & s2 & -> & Hws & Hws' & H).
  rewrite m_seqs_cons, m_grp in H.
  apply m_plus_chr in H as (n & s3 & -> & Hn & Hn' & H).
  rewrite take_append in H. injection H as <-.
  exists ws, n, s3. repeat split; assumption.
Qed.

Lemma firstGroup_arrow (h n : string) :
  firstGroup arrowRe h = Some n -> arrowShape h n.
Proof.
  unfold firstGroup. destruct (search arrowRe h) as [[pre f]|] eqn:S; [|discriminate].
  intros [= <-]. apply search_matchHere in S as (t & -> & Hm).
  apply matchHere_arrowRe in Hm as (w & ws & post & -> & Hw & Hw' & Hws & ->).
  cbn [default]. rewrite (or_else_id _ _ Hw).
  exists pre, ws, post. repeat split; assumption.
Qed.

Lemma firstGroup_keyword (kw h n : string) :
  firstGroup (seqs [lit kw; Plus (Chr isSpace); Grp 1 word]) h = Some n ->
  keywordShape kw h n.
Proof.
  unfold firstGroup.
  destruct (search _ h) as [[pre f]|] eqn:S; [|discriminate].
  intros [= <-]. apply search_matchHere in S as (t & -> & Hm).
  apply matchHere_keywordRe in Hm as (ws & w & post & -> & Hws & Hws' & Hw & Hw' & ->).
  cbn [default]. rewrite (or_else_id _ _ Hw).
  exists pre, ws, post. repeat split; assumption.
Qed.




End HandlerFacts.

(** ** The claims on naming and grouping *)

Import Js JsFacts NamingFacts GroupingFacts.

(** C1. When some controller has a non-empty name and at least one route,
    the grouping is the one the controller-direct strategy builds: under
    every module name exactly the routes of the controllers whose derived
    name it is, in order.  The result is the same whatever routes and
    services are passed, so no fallback strategy takes part, and a route
    that no controller owns is in no group. *)
Theorem C1_controller_first (controllers : list UniversalController) :
  Exists (fun c => ctl_name c <> EmptyString /\ routes c <> []) controllers ->
  exists chunks : gmap string (list UniversalRoute),
    (forall rs services,
        groupRoutesByController rs services controllers = Some chunks)
    /\ (forall mn, chunks !! mn = nonEmpty (ownedBy controllers mn))
    /\ (forall r, (forall c, In c controllers -> ~ In r (routes c)) ->
                  forall mn l, chunks !! mn = Some l -> ~ In r l).
Proof.
  intros Hex.
  destruct (controllers_lookup controllers ∅) as (chunks & Hrun & Hl).
  assert (Hl' : forall mn, chunks !! mn = nonEmpty (ownedBy controllers mn)).
  { intros mn. rewrite Hl, lookup_empty. now destruct (ownedBy controllers mn). }
  exists chunks. split; [|split; [exact Hl'|]].
  - intros rs services. unfold groupRoutesByController. rewrite Hrun.
    apply List.Exists_exists in Hex as (c & Hc & Hn & Hr).
    destruct (extractModuleFromName (ctl_name c)) as [mn|] eqn:E.
    2:{ unfold extractModuleFromName in E. apply truthy_true in Hn. rewrite Hn in E.
        simpl in E. repeat destruct (endsWith _ _); discriminate. }
    destruct (routes c) as [|r l] eqn:Rs; [contradiction|].
    assert (In r (ownedBy controllers mn)) as Hin.
    { apply ownedBy_In. exists c. rewrite Rs. repeat split; auto; now left. }
    destruct (Nat.eqb_spec (size chunks) 0) as [Z|]; [|reflexivity].
    apply map_size_empty_iff in Z. subst chunks.
    specialize (Hl' mn). rewrite lookup_empty in Hl'. revert Hin Hl'.
    destruct (ownedBy controllers mn); [intros [] | discriminate].
  - intros r Hr mn l L Hin. rewrite Hl' in L.
    destruct (ownedBy controllers mn) as [|r0 l0] eqn:O; [discriminate|].
    injection L as <-. rewrite <- O in Hin.
    apply ownedBy_In in Hin as (c & Hc & _ & _ & Hrc). exact (Hr c Hc Hrc).
Qed.

Lemma C1_controller_first_witness :
  Exists (fun c => ctl_name c <> EmptyString /\ routes c <> []) [usersController]
  /\ exists chunks : gmap string (list UniversalRoute),
      (forall rs services,
          groupRoutesByController rs services [usersController] = Some chunks)
      /\ (forall mn, chunks !! mn = nonEmpty (ownedBy [usersController] mn))
      /\ (forall r, (forall c, In c [usersController] -> ~ In r (routes c)) ->
                    forall mn l, chunks !! mn = Some l -> ~ In r l).
Proof.
  assert (H : Exists (fun c => ctl_name c <> EmptyString /\ routes c <> [])
                     [usersController])
    by (apply Exists_cons_hd; split; discriminate).
  split; [exact H | exact (C1_controller_first [usersController] H)].
Defined.

(** C2 (the code departs from it). A controller named [User$Controller]
    is grouped under the key [user$s], and one named [Admin/User Panel]
    under [admin/user panels]: the controller loop stores the derived name
    as it is, while sanitizing would have given [user_s] and
    [admin_user_panels]. *)
Theorem C2_controller_key_unsanitized :
  groupRoutesByController [] [] [dollarController]
  = Some {[ "user$s" := routes dollarController ]}
  /\ sanitize "user$s" = "user_s"
  /\ groupRoutesByController [] [] [spacedController]
     = Some {[ "admin/user panels" := routes spacedController ]}
  /\ sanitize "admin/user panels" = "admin_user_panels".
Proof. repeat split; vm_compute; reflexivity. Qed.

(** The fallback loop, for its part, writes sanitized keys only. *)
Lemma fallback_keys_sanitized (rs : list UniversalRoute)
      (services : list UniversalService) (chunks : gmap string (list UniversalRoute)) :
  groupRoutesByController rs services [] = Some chunks ->
  forall k, is_Some (chunks !! k) -> sanitize k = k.
Proof.
  unfold groupRoutesByController. cbn [forEachM].
  rewrite map_size_empty. cbn [Nat.eqb]. intros H.
  eapply fallbackLoop_keys; [|eassumption].
  intros k [x Hx]. rewrite lookup_empty in Hx. discriminate.
Qed.

(** C3. With no controller and no service, seven routes that can only be
    placed by position: the list of service-derived module names is
    empty, the bucket [i / 3] of every position lies beyond it, each route
    is named app, and the grouping is the single module app holding the
    seven routes in order.  The rule behind it, for any services: a route
    that matches no service and has no usable path segment is given the
    sanitized module name at place [i / 3] of the discovery order, and
    app beyond its end. *)
Theorem C3_round_robin (rs : list UniversalRoute) :
  length rs = 7 -> Forall pathless rs ->
  map fst (serviceModulesOf []) = []
  /\ (forall i r, rs !! i = Some r ->
                  fallbackModule (serviceModulesOf []) i r
                  = default "app" (map fst (serviceModulesOf []) !! (i / 3)))
  /\ groupRoutesByController rs [] [] = Some {[ "app" := rs ]}
  /\ (forall services i r,
         pathless r -> matchService (serviceModulesOf services) r = "unknown" ->
         fallbackModule (serviceModulesOf services) i r
         = sanitize (default "app" (map fst (serviceModulesOf services) !! (i / 3)))).
Proof.
  intros Hlen Hall. split; [reflexivity|]. split; [|split].
  3:{ intros services i r Hr Hm.
      rewrite (fallbackModule_byPosition _ _ _ Hm Hr).
      now rewrite (byPosition_bucket _ _ (serviceModulesOf_keys services)). }
  - intros i r Hi. cbn [serviceModulesOf fold_left map]. rewrite lookup_nil.
    apply fallbackModule_pathless.
    rewrite List.Forall_forall in Hall. apply Hall.
    apply list_elem_of_In. eapply list_elem_of_lookup_2. eassumption.
  - unfold groupRoutesByController. cbn [forEachM serviceModulesOf fold_left].
    rewrite map_size_empty. cbn [Nat.eqb].
    rewrite (fallbackLoop_pathless _ Hall), pushRoutes by reflexivity.
    destruct rs; [discriminate|]. rewrite lookup_empty. reflexivity.
Qed.

Lemma C3_round_robin_witness :
  length sevenRoutes = 7 /\ Forall pathless sevenRoutes
  /\ groupRoutesByController sevenRoutes [] [] = Some {[ "app" := sevenRoutes ]}.
Proof.
  assert (H : Forall pathless sevenRoutes)
    by (repeat constructor; discriminate).
  split; [reflexivity|]. split; [exact H|].
  exact (proj1 (proj2 (proj2 (C3_round_robin sevenRoutes eq_refl H)))).
Defined.

(** C4. [extractModuleFromName] is the naming rule of the specification:
    one suffix of the list stripped when the name ends with it in any
    letter case, the rest lower-cased, then a final y turned into ies, a
    final s kept, and an s added otherwise; the empty name gives null. *)
Theorem C4_module_naming :
  (forall nm, extractModuleFromName nm = deriveModuleName nm)
  /\ extractModuleFromName "UsersService" = Some "users"
  /\ extractModuleFromName "CompanyService" = Some "companies"
  /\ extractModuleFromName "OrderController" = Some "orders"
  /\ extractModuleFromName EmptyString = None.
Proof.
  split; [exact extractModuleFromName_derive|]. repeat split; reflexivity.
Qed.

(** ** The claims on extraction *)

Import Re ReSpec ReFacts ExtractionFacts HandlerFacts.

Lemma replaceAtStart_slash (p : string) :
  replaceAtStart (lit "/") EmptyString p = stripLeadingSlash p.
Proof.
  destruct p as [|a p]; [reflexivity|].
  unfold replaceAtStart, matchHere, stripLeadingSlash. cbn [lit m].
  unfold isChar. now destruct (Ascii.eqb a "/").
Qed.

Lemma combinePaths_composedPath (b p : string) :
  combinePaths b p = composedPath b p.
Proof.
  unfold combinePaths, composedPath, truthy.
  destruct (String.eqb b EmptyString); [reflexivity|]. cbn [negb].
  now rewrite replaceAtStart_slash.
Qed.

(** C5. The path of a route taken from a controller method is composed
    from the base path [b] of the class and the path [p] of the method's
    route decorator: with [b] non-empty a slash, [b], and, unless [p] is
    the single slash, a slash and [p] without its leading slash; with [b]
    empty, [p] as it is.  Base users with /:id gives /users/:id, and an
    empty base with / gives /. *)
Theorem C5_path_composition :
  (forall mth c r,
      extractRouteFromMethod mth c = Some r ->
      exists d,
        find isRouteDecorator (mth_decorators mth) = Some d
        /\ (basePathOf c <> EmptyString ->
            path r = "/" +:+ basePathOf c +:+
                       (if String.eqb (routePathOf d) "/" then EmptyString
                        else "/" +:+ stripLeadingSlash (routePathOf d)))
        /\ (basePathOf c = EmptyString -> path r = routePathOf d))
  /\ (basePathOf usersClass = "users"
      /\ routePathOf (deco "Get" ["'/:id'"]) = "/:id"
      /\ path <$> extractRouteFromMethod findOne usersClass = Some "/users/:id")
  /\ (basePathOf appClass = EmptyString
      /\ routePathOf (deco "Get" ["'/'"]) = "/"
      /\ path <$> extractRouteFromMethod index appClass = Some "/").
Proof.
  split; [|repeat split; reflexivity].
  intros mth c r. unfold extractRouteFromMethod.
  destruct (find isRouteDecorator (mth_decorators mth)) as [d|]; [|discriminate].
  intros [= <-]. exists d. split; [reflexivity|]. cbn [path].
  rewrite combinePaths_composedPath. unfold composedPath. split.
  - intros Hb. apply String.eqb_neq in Hb. now rewrite Hb.
  - now intros ->.
Qed.

Lemma C5_path_composition_witness :
  extractRouteFromMethod findOne usersClass
  = Some {| path := "/users/:id"; method := "GET"; handler := "findOne";
            middleware := []; parameters := []; framework := nestjs |}
  /\ exists d,
      find isRouteDecorator (mth_decorators findOne) = Some d
      /\ (basePathOf usersClass <> EmptyString ->
          "/users/:id" = "/" +:+ basePathOf usersClass +:+
                     (if String.eqb (routePathOf d) "/" then EmptyString
                      else "/" +:+ stripLeadingSlash (routePathOf d)))
      /\ (basePathOf usersClass = EmptyString -> "/users/:id" = routePathOf d).
Proof.
  split; [reflexivity|].
  exact (proj1 C5_path_composition findOne usersClass _ eq_refl).
Defined.




(** C9. Every route of the pattern scan, whatever handler text its match
    captured, has the three parameters req: Request, res: Response and the
    optional next: NextFunction; so has every route of the Express
    extractor. *)
Theorem C9_fixed_parameters :
  (forall h, extractRouteParameters h = threeParameters)
  /\ (forall text p f, exists r, routeOfMatch text p f = [r]
                                 /\ parameters r = threeParameters)
  /\ (forall text r, In r (extractRoutes text) -> parameters r = threeParameters)
  /\ (forall text r, In r (extractExpressRoutes text) -> parameters r = threeParameters).
Proof.
  split; [reflexivity|]. split; [|split].
  - intros text p f. rewrite routeOfMatch_single. eexists. split; reflexivity.
  - intros text r H. apply In_extractRoutes in H as (p & f & t & _ & _ & Hr).
    rewrite routeOfMatch_single in Hr. now injection Hr as <-.
  - intros text r. unfold extractExpressRoutes. rewrite in_flat_map.
    intros (q & _ & Hr). apply in_map_iff in Hr as (f & <- & _). reflexivity.
Qed.

Lemma C9_fixed_parameters_witness :
  In (sampleRoute "/users" "anonymous") (extractRoutes "app.get('/users', listUsers)")
  /\ parameters (sampleRoute "/users" "anonymous") = threeParameters.
Proof.
  assert (H : In (sampleRoute "/users" "anonymous")
                 (extractRoutes "app.get('/users', listUsers)"))
    by (left; reflexivity).
  split; [exact H | exact (proj1 (proj2 (proj2 C9_fixed_parameters)) _ _ H)].
Defined.

(** ** The Express extractor's grouping by file key *)

Module ExpressFacts.
Import Js JsFacts ExpressExtractor.

Lemma groupPush_keys k r (G : list (string * list UniversalRoute)) :
  map fst (groupPush k r G)
  = if existsb (String.eqb k) (map fst G) then map fst G else map fst G ++ [k].
Proof.
  induction G as [|[k' l] G IH]; [reflexivity|].
  cbn [groupPush map fst existsb]. rewrite (String.eqb_sym k k').
  destruct (String.eqb k' k) eqn:E; [reflexivity|].
  cbn [orb map fst]. rewrite IH. now destruct (existsb _ _).
Qed.

Lemma groupPush_In k r (G : list (string * list UniversalRoute)) k' l' :
  List.NoDup (map fst G) ->
  In (k', l') (groupPush k r G) <->
  (k' <> k /\ In (k', l') G)
  \/ (k' = k /\ ((exists l, In (k, l) G /\ l' = l ++ [r])
                 \/ (~ In k (map fst G) /\ l' = [r]))).
Proof.
  induction G as [|[k0 l0] G IH]; intros ND.
  - cbn [groupPush In map]. split.
    + intros [[= <- <-]|[]]. right. split; [reflexivity|]. right. split; [tauto | reflexivity].
    + intros [[_ []]|[-> [(l & [] & _)|[_ ->]]]]. now left.
  - cbn [map fst] in ND. apply List.NoDup_cons_iff in ND as [Hk0 ND].
    specialize (IH ND). cbn [groupPush].
    destruct (String.eqb_spec k0 k) as [->|Hne].
    + cbn [In map fst]. split.
      * intros [[= <- <-]|H].
        -- right. split; [reflexivity|]. left. exists l0. split; [now left | reflexivity].
        -- left. split; [|now right]. intros ->. apply Hk0.
           apply in_map_iff. now exists (k, l').
      * intros [[Hne [[= ? ?]|H]]|[-> [(l & [[= <-]|H] & ->)|[Hn _]]]].
        -- congruence.
        -- now right.
        -- now left.
        -- exfalso. apply Hk0. apply in_map_iff. now exists (k, l).
        -- exfalso. apply Hn. now left.
    + cbn [In map fst]. rewrite IH. split.
      * intros [[= <- <-]|[[H1 H2]|[-> [(l & H & ->)|[Hn ->]]]]].
        -- left. split; [assumption | now left].
        -- left. split; [assumption | now right].
        -- right. split; [reflexivity|]. left. exists l. split; [now right | reflexivity].
        -- right. split; [reflexivity|]. right. split; [|reflexivity].
           intros [H|H]; [congruence | contradiction].
      * intros [[H1 [H|H]]|[-> [(l & [[= ? ?]|H] & ->)|[Hn ->]]]].
        -- now left.
        -- right. left. now split.
        -- congruence.
        -- right. right. split; [reflexivity|]. left. now exists l.
        -- right. right. split; [reflexivity|]. right. split; [|reflexivity].
           intros H. apply Hn. now right.
Qed.

Lemma fileGroupsOf_snoc (rs : list UniversalRoute) r :
  fileGroupsOf (rs ++ [r]) = groupPush (fileKey r) r (fileGroupsOf rs).
Proof. unfold fileGroupsOf. now rewrite fold_left_app. Qed.

Lemma fileGroupsOf_spec (rs : list UniversalRoute) :
  List.NoDup (map fst (fileGroupsOf rs))
  /\ (forall k l, In (k, l) (fileGroupsOf rs) ->
                  l = List.filter (hasKey k) rs /\ l <> [])
  /\ (forall r, In r rs -> In (fileKey r) (map fst (fileGroupsOf rs))).
Proof.
  induction rs as [|r rs (ND & Hl & Hr)] using rev_ind.
  - split; [constructor|]. split; [intros k l [] | intros r []].
  - rewrite fileGroupsOf_snoc.
    assert (Hex : existsb (String.eqb (fileKey r)) (map fst (fileGroupsOf rs)) = true
                  <-> In (fileKey r) (map fst (fileGroupsOf rs))).
    { rewrite existsb_exists. split.
      - intros (x & Hx & E). apply String.eqb_eq in E. now subst.
      - intros H. exists (fileKey r). split; [assumption | apply String.eqb_refl]. }
    split; [|split].
    + rewrite groupPush_keys. destruct (existsb _ _) eqn:E; [assumption|].
      apply List.NoDup_app; [assumption | repeat constructor; intros [] |].
      intros x Hx [<-|[]]. apply Hex in Hx. congruence.
    + intros k l H. apply (groupPush_In _ _ _ _ _ ND) in H.
      rewrite List.filter_app. cbn [List.filter]. unfold hasKey at 2.
      destruct H as [[Hne H]|[-> [(l0 & H & ->)|[Hn ->]]]].
      * apply String.eqb_neq in Hne. rewrite String.eqb_sym in Hne. rewrite Hne.
        rewrite app_nil_r. now apply Hl.
      * rewrite String.eqb_refl. destruct (Hl _ _ H) as [-> _].
        split; [reflexivity|]. now destruct (List.filter _ rs).
      * rewrite String.eqb_refl. split; [|discriminate].
        replace (List.filter (hasKey (fileKey r)) rs) with (@nil UniversalRoute); [reflexivity|].
        symmetry. destruct (List.filter (hasKey (fileKey r)) rs) as [|x xs] eqn:F; [reflexivity|].
        exfalso. apply Hn.
        assert (In x (List.filter (hasKey (fileKey r)) rs)) as Hx by (rewrite F; now left).
        apply filter_In in Hx as [Hx E]. unfold hasKey in E. apply String.eqb_eq in E.
        rewrite <- E. now apply Hr.
    + intros x Hx. rewrite groupPush_keys. apply in_app_iff in Hx as [Hx|[<-|[]]].
      * specialize (Hr _ Hx). destruct (existsb _ _); [assumption|].
        apply in_or_app. now left.
      * destruct (existsb _ _) eqn:E; [now apply Hex|]. apply in_or_app. right. now left.
Qed.

End ExpressFacts.

Module ExpressGrouping.
Import Js JsFacts ExpressExtractor ExpressFacts.

Lemma getControllerName_truthy (k : string) : getControllerName k <> EmptyString.
Proof.
  unfold getControllerName. apply truthy_true, or_else_truthy. reflexivity.
Qed.

Lemma fileKey_absolute (r : UniversalRoute) :
  startsWith (path r) "/" = true -> fileKey r = "root".
Proof.
  unfold fileKey. destruct (path r) as [|a p]; [discriminate|].
  cbn [startsWith]. rewrite andb_true_r. intros E. apply Ascii.eqb_eq in E. subst a.
  reflexivity.
Qed.

Lemma fold_one_key (k : string) (rs : list UniversalRoute) :
  Forall (fun r => fileKey r = k) rs ->
  forall l,
    fold_left (fun fileGroups route => groupPush (fileKey route) route fileGroups)
              rs [(k, l)]
    = [(k, l ++ rs)].
Proof.
  induction 1 as [|r rs Hr _ IH]; intros l.
  - now rewrite app_nil_r.
  - cbn [fold_left ExpressExtractor.groupPush]. rewrite Hr, String.eqb_refl, IH, <- app_assoc. reflexivity.
Qed.

End ExpressGrouping.

Import ExpressFacts ExpressGrouping.

(** X1. [ExpressExtractor.groupRoutesByFile] splits the routes by file key: the
    controllers have pairwise different file paths, each holds exactly
    the routes of its key in their order, none is empty or unnamed, all
    are tagged express, and every route is in the controller of its key. *)
Theorem groupRoutesByFile_partition (rs : list UniversalRoute) :
  List.NoDup (map ctl_filePath (ExpressExtractor.groupRoutesByFile rs))
  /\ Forall (fun c => routes c = List.filter (ExpressExtractor.hasKey (ctl_filePath c)) rs
                      /\ routes c <> []
                      /\ ctl_name c = ExpressExtractor.getControllerName (ctl_filePath c)
                      /\ ctl_name c <> EmptyString
                      /\ ctl_framework c = express)
            (ExpressExtractor.groupRoutesByFile rs)
  /\ Forall (fun r => exists c, In c (ExpressExtractor.groupRoutesByFile rs)
                                /\ ctl_filePath c = ExpressExtractor.fileKey r /\ In r (routes c))
            rs.
Proof.
  destruct (fileGroupsOf_spec rs) as (ND & Hl & Hr). unfold ExpressExtractor.groupRoutesByFile.
  split; [|split].
  - rewrite map_map.
    replace (map (fun x => ctl_filePath (let '(filePath, fileRoutes) := x in _))
                 (ExpressExtractor.fileGroupsOf rs))
      with (map fst (ExpressExtractor.fileGroupsOf rs)); [assumption|].
    apply map_ext. now intros [k l].
  - apply List.Forall_forall. intros c Hc. apply in_map_iff in Hc as ([k l] & <- & Hin).
    cbn [routes ctl_filePath ctl_name ctl_framework].
    destruct (Hl _ _ Hin) as [E Hne].
    repeat split; try assumption. apply getControllerName_truthy.
  - apply List.Forall_forall. intros r Hin.
    specialize (Hr _ Hin). apply in_map_iff in Hr as ([k l] & Hk & Hkl).
    cbn [fst] in Hk. subst k. destruct (Hl _ _ Hkl) as [E _].
    eexists. split; [apply in_map_iff; exists (ExpressExtractor.fileKey r, l); split; [reflexivity | assumption]|].
    cbn [ctl_filePath routes]. split; [reflexivity|].
    rewrite E. apply filter_In. split; [assumption|]. unfold ExpressExtractor.hasKey. apply String.eqb_refl.
Qed.

(** X2. Routes whose paths all start with a slash have the empty first
    segment, so [ExpressExtractor.groupRoutesByFile] puts them, in order, into one
    controller whose name and file path are both root. *)
Theorem groupRoutesByFile_absolute (rs : list UniversalRoute) :
  rs <> [] ->
  Forall (fun r => startsWith (path r) "/" = true) rs ->
  ExpressExtractor.groupRoutesByFile rs
  = [ {| ctl_name := "root"; routes := rs; ctl_framework := express;
         ctl_filePath := "root" |} ].
Proof.
  intros Hne Hall. destruct rs as [|r rs]; [contradiction|].
  apply List.Forall_cons_iff in Hall as [Hr Hrs].
  unfold ExpressExtractor.groupRoutesByFile, ExpressExtractor.fileGroupsOf. cbn [fold_left ExpressExtractor.groupPush].
  rewrite (fileKey_absolute _ Hr), (fold_one_key "root").
  - reflexivity.
  - revert Hrs. apply List.Forall_impl. intros x. apply fileKey_absolute.
Qed.

Lemma groupRoutesByFile_absolute_witness :
  [sampleRoute "/users" "list"; sampleRoute "/orders/:id" "show"] <> []
  /\ Forall (fun r => startsWith (path r) "/" = true)
            [sampleRoute "/users" "list"; sampleRoute "/orders/:id" "show"]
  /\ ExpressExtractor.groupRoutesByFile [sampleRoute "/users" "list"; sampleRoute "/orders/:id" "show"]
     = [ {| ctl_name := "root";
            routes := [sampleRoute "/users" "list"; sampleRoute "/orders/:id" "show"];
            ctl_framework := express; ctl_filePath := "root" |} ].
Proof.
  assert (H1 : [sampleRoute "/users" "list"; sampleRoute "/orders/:id" "show"] <> [])
    by discriminate.
  assert (H2 : Forall (fun r => startsWith (path r) "/" = true)
                      [sampleRoute "/users" "list"; sampleRoute "/orders/:id" "show"])
    by (repeat constructor).
  split; [exact H1|]. split; [exact H2|].
  exact (groupRoutesByFile_absolute _ H1 H2).
Defined.

(** ** What a call-style match holds *)

Module CallStyleFacts.
Import Js JsFacts Re ReSpec ReFacts ExtractionFacts HandlerFacts.

Lemma callStyle_shape (recv t : string) (f : found) :
  matchHere (callStyle recv) t = Some f ->
  exists v p h,
    groups f = [(3, h); (2, p); (1, v)]
    /\ In v lowerVerbs
    /\ p <> EmptyString /\ allChars notQuote p = true
    /\ h <> EmptyString /\ allChars notCommaParen h = true
    /\ callShape recv t v p h (after f).
Proof.
  unfold matchHere, callStyle. intros H.
  rewrite m_seqs_cons in H. apply m_lit in H as (s1 & -> & H).
  rewrite m_seqs_cons in H. apply m_lit in H as (s2 & -> & H).
  rewrite m_seqs_cons, m_grp in H.
  apply m_alts_lit in H as (v & s3 & Hv & -> & H). rewrite take_append in H.
  rewrite m_seqs_cons in H. apply m_lit in H as (s4 & -> & H).
  rewrite m_seqs_cons in H. apply m_chr in H as (q1 & s5 & -> & Hq1 & H).
  rewrite m_seqs_cons, m_grp in H.
  apply m_plus_chr in H as (p & s6 & -> & Hp & Hp' & H). rewrite take_append in H.
  rewrite m_seqs_cons in H. apply m_chr in H as (q2 & s7 & -> & Hq2 & H).
  rewrite m_seqs_cons in H. apply m_lit in H as (s8 & -> & H).
  rewrite m_seqs_cons in H. apply m_star_chr in H as (ws & s9 & -> & Hws & H).
  rewrite m_seqs_cons, m_grp in H.
  apply m_plus_chr in H as (h & s10 & -> & Hh & Hh' & H). rewrite take_append in H.
  injection H as <-. exists v, p, h. cbn [groups after].
  repeat split; try assumption. exists q1, q2, ws. repeat split; assumption.
Qed.

End CallStyleFacts.

Module ExpressRoutesFacts.
Import Js JsFacts Re ReSpec ReFacts ExtractionFacts HandlerFacts CallStyleFacts.

Lemma expressRouteOfMatch_call (recv t text : string) (p : Pattern) (f : found) :
  matchHere (callStyle recv) t = Some f ->
  map (withFramework express) (routeOfMatch text p f) = [expressRouteOfMatch f].
Proof.
  intros H. apply callStyle_shape in H as (v & pth & h & G & _ & _ & _ & Hh & _).
  rewrite routeOfMatch_single. unfold expressRouteOfMatch, withFramework, extractHandler.
  cbn [map path method handler middleware parameters]. rewrite G.
  cbn [group Nat.eqb]. simpl default.
  rewrite (or_else_id _ _ Hh). apply truthy_true in Hh. rewrite Hh. reflexivity.
Qed.

Lemma express_of_pattern (text : string) (p : Pattern) (recv : string) :
  re p = callStyle recv ->
  map expressRouteOfMatch (execAll (callStyle recv) 0 text)
  = map (withFramework express) (routesOfPattern text p).
Proof.
  intros E. unfold routesOfPattern. rewrite E.
  assert (H : forall f, In f (execAll (callStyle recv) 0 text) ->
                        exists t, matchHere (callStyle recv) t = Some f).
  { intros f Hf. apply execAll_matchHere in Hf as (t & _ & Hm). now exists t. }
  induction (execAll (callStyle recv) 0 text) as [|f l IH]; [reflexivity|].
  cbn [map flat_map]. rewrite map_app.
  destruct (H f (or_introl eq_refl)) as [t Ht].
  rewrite (expressRouteOfMatch_call _ _ _ _ _ Ht). cbn [app]. f_equal.
  apply IH. intros g Hg. apply H. now right.
Qed.

End ExpressRoutesFacts.

Import Re ReSpec ReFacts CallStyleFacts ExpressRoutesFacts.

(** X3. The Express extractor reports what the generic pattern scan
    reports for the receivers app and router, with the framework tag set
    to express: same paths, methods, handlers and parameters, in the same
    order. *)
Theorem extractExpressRoutes_generic (text : string) :
  extractExpressRoutes text
  = map (withFramework express)
        (routesOfPattern text appPattern ++ routesOfPattern text routerPattern).
Proof.
  unfold extractExpressRoutes, expressPatterns. cbn [flat_map].
  rewrite app_nil_r, map_app.
  now rewrite (express_of_pattern text appPattern "app"),
              (express_of_pattern text routerPattern "router").
Qed.

(** ** Greedy runs that succeed at once *)

Module GreedyFacts.
Import Js JsFacts Re ReSpec ReFacts ExtractionFacts HandlerFacts CallStyleFacts.

Lemma allChars_append (p : ascii -> bool) (a b : string) :
  allChars p (a +:+ b) = allChars p a && allChars p b.
Proof. induction a as [|x a IH]; simpl; [reflexivity|]. now rewrite IH, andb_assoc. Qed.

Lemma allChars_impl (p q : ascii -> bool) (s : string) :
  (forall c, p c = true -> q c = true) -> allChars p s = true -> allChars q s = true.
Proof.
  intros Hpq. induction s as [|a s IH]; simpl; [reflexivity|].
  intros H. apply andb_true_iff in H as [Ha Hs]. now rewrite (Hpq _ Ha), IH.
Qed.

#[local] Arguments Re.m : simpl never.

Section Greedy.
Context {R : Type}.
Implicit Types (k : string -> caps -> option R) (s t : string) (c : caps) (x : R).

Lemma m_chr_cons (p : ascii -> bool) k a s c :
  m (Chr p) k (String a s) c = if p a then k s c else None.
Proof. reflexivity. Qed.

Lemma m_chr_nil (p : ascii -> bool) k c : m (Chr p) k EmptyString c = None.
Proof. reflexivity. Qed.

Lemma starLoop_greedy (p : ascii -> bool) k t s' c x :
  allChars p t = true -> stopsAt p s' = true -> k s' c = Some x ->
  forall n, String.length t <= n ->
            starLoop (m (Chr p)) k n (t +:+ s') c = Some x.
Proof.
  intros Ht Hs Hk. induction t as [|a t IH]; intros n Hn.
  - simpl. destruct n as [|n]; [assumption|]. cbn [starLoop].
    destruct s' as [|b s']; [now rewrite m_chr_nil, Hk|].
    simpl in Hs. apply negb_true_iff in Hs. now rewrite m_chr_cons, Hs, Hk.
  - simpl in Ht. apply andb_true_iff in Ht as [Ha Ht].
    destruct n as [|n]; [simpl in Hn; lia|].
    change (String a t +:+ s') with (String a (t +:+ s')).
    assert (L : (String.length (t +:+ s') <? String.length (String a (t +:+ s'))) = true)
      by (apply Nat.ltb_lt; simpl; lia).
    specialize (IH Ht n ltac:(simpl in Hn; lia)).
    cbn [starLoop]. now rewrite m_chr_cons, Ha, L, IH.
Qed.

Lemma m_seq_eq (r1 r2 : regex) k s c : m (Seq r1 r2) k s c = m r1 (m r2 k) s c.
Proof. reflexivity. Qed.

Lemma m_star_greedy (p : ascii -> bool) k t s' c x :
  allChars p t = true -> stopsAt p s' = true -> k s' c = Some x ->
  m (Star (Chr p)) k (t +:+ s') c = Some x.
Proof.
  intros Ht Hs Hk. cbn [m]. apply starLoop_greedy; try assumption.
  rewrite length_append. lia.
Qed.

Lemma m_plus_greedy (p : ascii -> bool) k t s' c x :
  t <> EmptyString -> allChars p t = true -> stopsAt p s' = true ->
  k s' c = Some x ->
  m (Plus (Chr p)) k (t +:+ s') c = Some x.
Proof.
  intros Hne Ht Hs Hk. destruct t as [|a t]; [contradiction|].
  simpl in Ht. apply andb_true_iff in Ht as [Ha Ht].
  unfold Plus. change (String a t +:+ s') with (String a (t +:+ s')).
  rewrite m_seq_eq, m_chr_cons, Ha. now apply m_star_greedy.
Qed.

End Greedy.

(** The scan after a match, and the scan of a text without a match. *)
Lemma execAll_skip (r : regex) (pre s : string) :
  execAll r (String.length pre) (pre +:+ s) = execAll r 0 s.
Proof. induction pre as [|a pre IH]; simpl; [reflexivity | assumption]. Qed.

Lemma execAll_none (r : regex) (s : string) :
  (forall t, suffixOf t s -> matchHere r t = None) ->
  forall skip, execAll r skip s = [].
Proof.
  induction s as [|a s IH]; intros H skip.
  - destruct skip; cbn [execAll]; [|reflexivity].
    now rewrite (H EmptyString (suffixOf_refl _)).
  - assert (H' : forall t, suffixOf t s -> matchHere r t = None).
    { intros t Ht. apply H. eapply suffixOf_trans; [eassumption | apply suffixOf_tail]. }
    destruct skip; cbn [execAll]; [|now apply IH].
    rewrite (H _ (suffixOf_refl _)). now apply IH.
Qed.

Lemma suffixOf_allChars (p : ascii -> bool) (t s : string) :
  suffixOf t s -> allChars p s = true -> allChars p t = true.
Proof.
  intros [pre ->] H. rewrite allChars_append in H. now apply andb_true_iff in H as [_ H].
Qed.

(** A text without an opening parenthesis holds no match of a route
    pattern. *)
Lemma routePattern_needs_paren (p : Pattern) (t : string) :
  In p routePatterns -> allChars notParen t = true -> matchHere (re p) t = None.
Proof.
  intros Hp Ht. destruct (matchHere (re p) t) as [f|] eqn:E; [exfalso|reflexivity].
  destruct (routePatterns_re p Hp) as [[recv Er]|Er]; rewrite Er in E.
  - apply callStyle_shape in E as (v & pth & h & _ & _ & _ & _ & _ & _ & (q1 & q2 & ws & -> & _)).
    rewrite allChars_append in Ht. apply andb_true_iff in Ht as [_ Ht].
    simpl in Ht. rewrite allChars_append in Ht. apply andb_true_iff in Ht as [_ Ht].
    simpl in Ht. discriminate.
  - unfold matchHere, annotationStyle in E.
    rewrite m_seqs_cons in E. apply m_lit in E as (s1 & -> & E).
    rewrite m_seqs_cons, m_grp in E. apply m_alts_lit in E as (v & s2 & _ & -> & E).
    rewrite m_seqs_cons in E. apply m_lit in E as (s3 & -> & _).
    simpl in Ht. rewrite allChars_append in Ht. apply andb_true_iff in Ht as [_ Ht].
    simpl in Ht. discriminate.
Qed.

Lemma execAll_no_paren (p : Pattern) (s : string) (skip : nat) :
  In p routePatterns -> allChars notParen s = true -> execAll (re p) skip s = [].
Proof.
  intros Hp Hs. apply execAll_none. intros t Ht.
  apply routePattern_needs_paren; [assumption|]. eapply suffixOf_allChars; eassumption.
Qed.

End GreedyFacts.

(** ** A registration is found *)

Module RegistrationFacts.
Import Js JsFacts Re ReSpec ReFacts ExtractionFacts HandlerFacts CallStyleFacts GreedyFacts.

Lemma word_not_space (c : ascii) : isWord c = true -> isSpace c = false.
Proof. destruct c as [[] [] [] [] [] [] [] []]; (reflexivity || discriminate). Qed.

Lemma word_notCommaParen (c : ascii) : isWord c = true -> notCommaParen c = true.
Proof. destruct c as [[] [] [] [] [] [] [] []]; (reflexivity || discriminate). Qed.

Lemma word_notParen (c : ascii) : isWord c = true -> notParen c = true.
Proof. destruct c as [[] [] [] [] [] [] [] []]; (reflexivity || discriminate). Qed.

Lemma m_alts_verbs {R : Type} (k : string -> caps -> option R) v s' c x :
  In v lowerVerbs -> k (String "(" s') c = Some x ->
  m (alts (map lit lowerVerbs)) k (v +:+ String "(" s') c = Some x.
Proof.
  intros Hv Hk.
  repeat (destruct Hv as [<-|Hv]; [simpl; now rewrite Hk|]). destruct Hv.
Qed.

Section Found.
#[local] Arguments Re.m : simpl never.

Lemma registration_eq (recv v p h : string) :
  registration recv v p h
  = recv +:+ "." +:+ v +:+ String "(" (String squote (p +:+ String squote
      ("," +:+ " " +:+ h +:+ ")"))).
Proof. reflexivity. Qed.

Lemma registration_found (recv v p h : string) :
  In v lowerVerbs ->
  p <> EmptyString -> allChars notQuote p = true ->
  h <> EmptyString -> allChars isWord h = true ->
  matchHere (callStyle recv) (registration recv v p h)
  = Some {| matched := take (String.length (registration recv v p h) - 1)
                            (registration recv v p h);
            groups := [(3, h); (2, p); (1, v)];
            after := ")" |}.
Proof.
  intros Hv Hp Hp' Hh Hh'. unfold matchHere. rewrite registration_eq.
  set (T := recv +:+ _). unfold callStyle, T. clear T.
  rewrite m_seqs_cons. apply m_lit. eexists; split; [reflexivity|].
  rewrite m_seqs_cons. apply m_lit. eexists; split; [reflexivity|].
  rewrite m_seqs_cons, m_grp. apply m_alts_verbs; [assumption|]. rewrite take_append.
  rewrite m_seqs_cons. apply m_lit. eexists; split; [reflexivity|].
  rewrite m_seqs_cons, m_chr_cons.
  replace (quote squote) with true by reflexivity.
  rewrite m_seqs_cons, m_grp. apply m_plus_greedy; [assumption | assumption | reflexivity|].
  rewrite take_append.
  rewrite m_seqs_cons, m_chr_cons.
  replace (quote squote) with true by reflexivity.
  rewrite m_seqs_cons. apply m_lit. eexists; split; [reflexivity|].
  rewrite m_seqs_cons.
  apply (m_star_greedy isSpace _ " " (h +:+ ")")); [reflexivity | |].
  { destruct h as [|a h]; [contradiction|]. simpl in Hh'.
    apply andb_true_iff in Hh' as [Ha _]. simpl. now rewrite (word_not_space _ Ha). }
  rewrite m_seqs_cons, m_grp.
  apply m_plus_greedy; [assumption | | reflexivity |].
  { revert Hh'. apply allChars_impl, word_notCommaParen. }
  rewrite take_append. reflexivity.
Qed.
End Found.

End RegistrationFacts.

Module RegistrationRoutes.
Import Js JsFacts Re ReSpec ReFacts ExtractionFacts HandlerFacts CallStyleFacts
       GreedyFacts RegistrationFacts.

Lemma identifier_anonymous (h : string) :
  allChars isWord h = true -> extractHandlerName h = "anonymous".
Proof.
  intros Hw. unfold extractHandlerName.
  destruct (firstGroup arrowRe h) as [n|] eqn:E1.
  { exfalso. apply firstGroup_arrow in E1 as (pre & ws & post & -> & _).
    rewrite !allChars_append in Hw.
    apply andb_true_iff in Hw as [_ Hw]. apply andb_true_iff in Hw as [_ Hw].
    apply andb_true_iff in Hw as [_ Hw]. apply andb_true_iff in Hw as [Hw _].
    discriminate. }
  assert (K : forall kw n, keywordShape kw h n -> False).
  { intros kw n (pre & ws & post & -> & Hws & Hws' & _).
    rewrite !allChars_append in Hw.
    apply andb_true_iff in Hw as [_ Hw]. apply andb_true_iff in Hw as [_ Hw].
    apply andb_true_iff in Hw as [Hw _].
    destruct ws as [|a ws]; [contradiction|]. simpl in Hw, Hws'.
    apply andb_true_iff in Hw as [Hw _]. apply andb_true_iff in Hws' as [Hs _].
    rewrite (word_not_space _ Hw) in Hs. discriminate. }
  destruct (firstGroup functionRe h) as [n|] eqn:E2.
  { exfalso. apply firstGroup_keyword in E2. eapply K; eassumption. }
  destruct (firstGroup asyncRe h) as [n|] eqn:E3.
  { exfalso. apply firstGroup_keyword in E3. eapply K; eassumption. }
  reflexivity.
Qed.

Lemma execAll_found (r : regex) (a : ascii) (pre rest : string) (f : found) :
  matchHere r (String a (pre +:+ rest)) = Some f ->
  matched f = String a pre ->
  execAll r 0 (String a (pre +:+ rest)) = f :: execAll r 0 rest.
Proof.
  intros H M. cbn [execAll]. rewrite H, M.
  replace (String.length (String a pre) - 1) with (String.length pre) by (simpl; lia).
  now rewrite execAll_skip.
Qed.

Lemma registration_split (recv v p h : string) :
  registration recv v p h
  = (recv +:+ "." +:+ v +:+ "('" +:+ p +:+ "', " +:+ h) +:+ ")".
Proof. unfold registration. now rewrite !append_assoc. Qed.

Lemma registration_paren (recv v p h : string) :
  registration recv v p h
  = recv +:+ "." +:+ v +:+ String "(" (String squote (p +:+ "', " +:+ h +:+ ")")).
Proof. reflexivity. Qed.

Lemma tail_no_paren (p h : string) :
  allChars notParen p = true -> allChars isWord h = true ->
  allChars notParen (String squote (p +:+ "', " +:+ h +:+ ")")) = true.
Proof.
  intros Hp Hh. change (String squote ?x) with ("'" +:+ x).
  rewrite !allChars_append, Hp, (allChars_impl _ _ _ word_notParen Hh). reflexivity.
Qed.

(** The scan of a registration by the pattern of its own receiver. *)
Lemma execAll_own (recv v p h : string) :
  In recv ["app"; "router"; "fastify"] ->
  In v lowerVerbs ->
  p <> EmptyString -> allChars notQuote p = true ->
  h <> EmptyString -> allChars isWord h = true ->
  exists f, execAll (callStyle recv) 0 (registration recv v p h) = [f]
            /\ groups f = [(3, h); (2, p); (1, v)].
Proof.
  intros Hr Hv Hp Hp' Hh Hh'.
  pose proof (registration_found recv v p h Hv Hp Hp' Hh Hh') as F.
  exists {| matched := recv +:+ "." +:+ v +:+ "('" +:+ p +:+ "', " +:+ h;
            groups := [(3, h); (2, p); (1, v)]; after := ")" |}.
  split; [|reflexivity].
  rewrite registration_split in F |- *.
  change 1 with (String.length ")") in F. rewrite take_append in F.
  set (Y := "." +:+ v +:+ "('" +:+ p +:+ "', " +:+ h) in *.
  destruct Hr as [<-|[<-|[<-|[]]]].
  - exact (execAll_found (callStyle "app") "a" ("pp" +:+ Y) ")" _ F eq_refl).
  - exact (execAll_found (callStyle "router") "r" ("outer" +:+ Y) ")" _ F eq_refl).
  - exact (execAll_found (callStyle "fastify") "f" ("astify" +:+ Y) ")" _ F eq_refl).
Qed.

(** The scan of a registration by a pattern of another receiver, or by
    the annotation pattern. *)
Lemma execAll_other (q : Pattern) (recv v : string) (s : string) :
  In (q, recv) [(routerPattern, "app"); (nestPattern, "app"); (fastifyPattern, "app");
                (appPattern, "router"); (nestPattern, "router");
                (fastifyPattern, "router");
                (appPattern, "fastify"); (routerPattern, "fastify");
                (nestPattern, "fastify")] ->
  In v lowerVerbs ->
  allChars notParen s = true ->
  execAll (re q) 0 (recv +:+ "." +:+ v +:+ String "(" s) = [].
Proof.
  intros Hq Hv Hs.
  assert (Hin : In q routePatterns).
  { repeat (destruct Hq as [[= <- _]|Hq]; [simpl; tauto|]). destruct Hq. }
  rewrite <- (execAll_no_paren q s 0 Hin Hs). clear Hin.
  repeat (destruct Hq as [[= <- <-]|Hq];
          [repeat (destruct Hv as [<-|Hv]; [reflexivity|]); destruct Hv|]).
  destruct Hq.
Qed.

Lemma routesOfPattern_other (q : Pattern) (recv v p h : string) :
  In (q, recv) [(routerPattern, "app"); (nestPattern, "app"); (fastifyPattern, "app");
                (appPattern, "router"); (nestPattern, "router");
                (fastifyPattern, "router");
                (appPattern, "fastify"); (routerPattern, "fastify");
                (nestPattern, "fastify")] ->
  In v lowerVerbs -> allChars notParen p = true -> allChars isWord h = true ->
  routesOfPattern (registration recv v p h) q = [].
Proof.
  intros Hq Hv Hp Hh. unfold routesOfPattern.
  rewrite registration_paren, (execAll_other q recv v _ Hq Hv (tail_no_paren p h Hp Hh)).
  reflexivity.
Qed.

Lemma routesOfPattern_own (q : Pattern) (recv v p h : string) :
  In (q, recv) [(appPattern, "app"); (routerPattern, "router");
                (fastifyPattern, "fastify")] ->
  In v lowerVerbs ->
  p <> EmptyString -> allChars notQuote p = true ->
  h <> EmptyString -> allChars isWord h = true ->
  routesOfPattern (registration recv v p h) q
  = [ {| path := p; method := toUpperCase v; handler := "anonymous";
         middleware := []; parameters := fixedParameters;
         framework := detectFrameworkFromPattern q |} ].
Proof.
  intros Hq Hv Hp Hp' Hh Hh'. unfold routesOfPattern.
  assert (Hr : In recv ["app"; "router"; "fastify"] /\ re q = callStyle recv).
  { repeat (destruct Hq as [[= <- <-]|Hq]; [simpl; tauto|]). destruct Hq. }
  destruct Hr as [Hr ->].
  destruct (execAll_own recv v p h Hr Hv Hp Hp' Hh Hh') as (f & -> & G).
  cbn [flat_map]. rewrite routeOfMatch_single, app_nil_r.
  unfold extractPath, extractMethod, extractHandler. rewrite G.
  cbn [group Nat.eqb]. simpl default.
  rewrite (or_else_id _ _ Hp). pose proof Hh as Hh2. apply truthy_true in Hh2.
  rewrite Hh2, (identifier_anonymous _ Hh').
  repeat (destruct Hv as [<-|Hv]; [reflexivity|]). destruct Hv.
Qed.

End RegistrationRoutes.

Import GreedyFacts RegistrationFacts RegistrationRoutes.

(** X5. A handler text made of word characters only, such as the name
    of a function, matches none of the three resolution patterns: the
    handler of the route is anonymous. *)
Theorem identifier_handler_anonymous (h : string) :
  allChars Js.isWord h = true -> extractHandlerName h = "anonymous".
Proof. apply identifier_anonymous. Qed.

Lemma identifier_handler_anonymous_witness :
  allChars Js.isWord "listUsers" = true /\ extractHandlerName "listUsers" = "anonymous".
Proof.
  split; [reflexivity | exact (identifier_handler_anonymous "listUsers" eq_refl)].
Defined.

(** X6. A file that holds one registration [recv.verb('path', handler)],
    with a path free of quotes and parentheses and an identifier as
    handler, yields exactly the route with that path and the upper-cased
    verb: tagged express for the receiver app, fastify for fastify, and
    twice, tagged koa, for router.  The handler is anonymous. *)
Theorem extractRoutes_registration (v p h : string) :
  In v lowerVerbs ->
  p <> EmptyString -> allChars notQuote p = true -> allChars notParen p = true ->
  h <> EmptyString -> allChars Js.isWord h = true ->
  let route fw :=
    {| path := p; method := Js.toUpperCase v; handler := "anonymous";
       middleware := []; parameters := fixedParameters; framework := fw |} in
  extractRoutes (registration "app" v p h) = [route express]
  /\ extractRoutes (registration "fastify" v p h) = [route fastify]
  /\ extractRoutes (registration "router" v p h) = [route koa; route koa].
Proof.
  intros Hv Hp Hq Hn Hh Hw route. unfold extractRoutes, routePatterns. cbn [flat_map].
  repeat split.
  - rewrite (routesOfPattern_own appPattern "app" v p h), 
      (routesOfPattern_other routerPattern "app" v p h),
      (routesOfPattern_other nestPattern "app" v p h),
      (routesOfPattern_other fastifyPattern "app" v p h);
      try assumption; try (simpl; tauto); try reflexivity.
  - rewrite (routesOfPattern_own fastifyPattern "fastify" v p h), 
      (routesOfPattern_other routerPattern "fastify" v p h),
      (routesOfPattern_other nestPattern "fastify" v p h),
      (routesOfPattern_other appPattern "fastify" v p h);
      try assumption; try (simpl; tauto); try reflexivity.
  - rewrite (routesOfPattern_own routerPattern "router" v p h), 
      (routesOfPattern_other appPattern "router" v p h),
      (routesOfPattern_other nestPattern "router" v p h),
      (routesOfPattern_other fastifyPattern "router" v p h);
      try assumption; try (simpl; tauto); try reflexivity.
Qed.

Lemma extractRoutes_registration_witness :
  extractRoutes (registration "app" "get" "/users" "listUsers")
  = [ {| path := "/users"; method := "GET"; handler := "anonymous";
         middleware := []; parameters := fixedParameters; framework := express |} ]
  /\ extractRoutes (registration "router" "post" "/users/:id" "save")
     = [ {| path := "/users/:id"; method := "POST"; handler := "anonymous";
            middleware := []; parameters := fixedParameters; framework := koa |};
         {| path := "/users/:id"; method := "POST"; handler := "anonymous";
            middleware := []; parameters := fixedParameters; framework := koa |} ].
Proof.
  split.
  - exact (proj1 (extractRoutes_registration "get" "/users" "listUsers"
                    (or_introl eq_refl) ltac:(discriminate) eq_refl eq_refl
                    ltac:(discriminate) eq_refl)).
  - exact (proj2 (proj2 (extractRoutes_registration "post" "/users/:id" "save"
                    (or_intror (or_introl eq_refl)) ltac:(discriminate) eq_refl eq_refl
                    ltac:(discriminate) eq_refl))).
Defined.

(** ** The fallback in full *)

Module FallbackFacts.
Import Js JsFacts Re ReSpec ReFacts NamingFacts GroupingFacts GreedyFacts.

Lemma pushRoute_Some (chunks ch1 : gmap string (list UniversalRoute)) mn r :
  pushRoute chunks mn r = Some ch1 ->
  ch1 = <[mn := default [] (chunks !! mn) ++ [r]]> chunks
  /\ (chunks !! mn = None -> inherited mn = false).
Proof.
  unfold pushRoute. destruct (chunks !! mn) as [l|]; simpl.
  - intros [= <-]. split; [reflexivity | discriminate].
  - destruct (inherited mn); [discriminate|]. intros [= <-]. split; reflexivity.
Qed.

Lemma fallbackLoop_lookup sm (rs : list UniversalRoute) :
  forall i (chunks chunks' : gmap string (list UniversalRoute)),
    fallbackLoop sm i rs chunks = Some chunks' ->
    forall mn, chunks' !! mn
               = match assignedTo sm i rs mn with
                 | [] => chunks !! mn
                 | l => Some (default [] (chunks !! mn) ++ l)
                 end.
Proof.
  induction rs as [|r rs IH]; intros i chunks chunks' H mn; cbn [fallbackLoop] in H.
  - injection H as <-. reflexivity.
  - destruct (pushRoute chunks (fallbackModule sm i r) r) as [ch1|] eqn:P; [|discriminate].
    apply pushRoute_Some in P as [-> _]. rewrite (IH _ _ _ H mn). cbn [assignedTo].
    destruct (String.eqb_spec (fallbackModule sm i r) mn) as [->|Hne].
    + rewrite lookup_insert_eq. cbn [app].
      destruct (assignedTo sm (S i) rs mn) as [|x l]; [reflexivity|].
      simpl. now rewrite <- app_assoc.
    + rewrite lookup_insert_ne by assumption. reflexivity.
Qed.

(** The loop throws exactly when a route is given a name that the
    object inherits. *)
Lemma fallbackLoop_None sm (rs : list UniversalRoute) :
  forall i (chunks : gmap string (list UniversalRoute)),
    (forall k, inherited k = true -> chunks !! k = None) ->
    fallbackLoop sm i rs chunks = None <->
    exists j r, rs !! j = Some r /\ inherited (fallbackModule sm (i + j) r) = true.
Proof.
  induction rs as [|r rs IH]; intros i chunks Inv; cbn [fallbackLoop].
  - split; [discriminate | intros (j & r & H & _); now rewrite lookup_nil in H].
  - destruct (pushRoute chunks (fallbackModule sm i r) r) as [ch1|] eqn:P.
    + apply pushRoute_Some in P as [-> Hown].
      assert (Hi : inherited (fallbackModule sm i r) = false).
      { destruct (inherited (fallbackModule sm i r)) eqn:E; [|reflexivity].
        apply Hown, Inv, E. }
      rewrite IH.
      * split.
        -- intros (j & x & Hj & Hx). exists (S j), x. split; [assumption|].
           now rewrite Nat.add_succ_r.
        -- intros ([|j] & x & Hj & Hx).
           ++ injection Hj as <-. rewrite Nat.add_0_r in Hx. congruence.
           ++ exists j, x. split; [assumption|]. now rewrite Nat.add_succ_r in Hx.
      * intros k Hk. rewrite lookup_insert_ne; [now apply Inv | congruence].
    + split; [intros _ | reflexivity].
      exists 0, r. split; [reflexivity|]. rewrite Nat.add_0_r.
      unfold pushRoute in P. destruct (chunks !! fallbackModule sm i r); [discriminate|].
      now destruct (inherited _).
Qed.

(** Which inherited names the fallback can produce. *)
Lemma toLowerChar_noCapital (c : ascii) : noCapital (toLowerChar c) = true.
Proof. destruct c as [[] [] [] [] [] [] [] []]; reflexivity. Qed.

Lemma toLowerCase_noCapital (s : string) : allChars noCapital (toLowerCase s) = true.
Proof.
  induction s as [|a s IH]; [reflexivity|]. cbn [toLowerCase map_string allChars].
  rewrite toLowerChar_noCapital. exact IH.
Qed.

Lemma sanitize_cons (a : ascii) (s : string) :
  sanitize (String a s) = String (if isModuleChar a then a else "_"%char) (sanitize s).
Proof. unfold sanitize. cbn [replaceChars]. now destruct (isModuleChar a). Qed.

Lemma sanitize_noCapital (s : string) :
  allChars noCapital s = true -> allChars noCapital (sanitize s) = true.
Proof.
  induction s as [|a s IH]; [reflexivity|]. rewrite sanitize_cons.
  cbn [allChars]. intros H. apply andb_true_iff in H as [Ha Hs].
  rewrite (IH Hs), andb_true_r. now destruct (isModuleChar a).
Qed.

Lemma sanitize_endsWith_s (s : string) :
  endsWith s "s" = true -> endsWith (sanitize s) "s" = true.
Proof.
  induction s as [|a s IH]; [discriminate|].
  rewrite sanitize_cons. cbn [endsWith]. intros H. apply orb_true_iff in H as [H|H].
  - apply String.eqb_eq in H. injection H as -> ->. reflexivity.
  - rewrite (IH H). apply orb_true_r.
Qed.

Lemma inherited_noCapital (k : string) :
  inherited k = true -> allChars noCapital k = true ->
  k = "constructor" \/ k = "__proto__".
Proof.
  unfold inherited. intros H. apply existsb_exists in H as (w & Hin & E).
  apply String.eqb_eq in E as ->.
  repeat (destruct Hin as [<-|Hin]; [(now left) || (now right) || discriminate|]).
  destruct Hin.
Qed.

Lemma mapSet_endsWith (k v : string) (sm : list (string * string)) :
  endsWith k "s" = true ->
  Forall (fun kv => endsWith (fst kv) "s" = true) sm ->
  Forall (fun kv => endsWith (fst kv) "s" = true) (mapSet k v sm).
Proof.
  intros Hk. induction 1 as [|[k' v'] sm Hkv Hsm IH]; cbn [mapSet].
  - repeat constructor. assumption.
  - destruct (String.eqb k' k); constructor; assumption.
Qed.

Lemma serviceModulesOf_endsWith (services : list UniversalService) :
  Forall (fun kv => endsWith (fst kv) "s" = true) (serviceModulesOf services).
Proof.
  unfold serviceModulesOf.
  assert (G : forall acc, Forall (fun kv => endsWith (fst kv) "s" = true) acc ->
              Forall (fun kv : string * string => endsWith (fst kv) "s" = true)
                (fold_left (fun sm service =>
                   if truthy (svc_name service) then
                     match extractModuleFromName (svc_name service) with
                     | Some moduleName =>
                         if truthy moduleName
                         then mapSet moduleName (svc_name service) sm else sm
                     | None => sm
                     end
                   else sm) services acc)).
  { induction services as [|s ss IH]; intros acc Hacc; [assumption|].
    cbn [fold_left]. apply IH.
    destruct (truthy (svc_name s)); [|assumption].
    destruct (extractModuleFromName (svc_name s)) as [mn|] eqn:E; [|assumption].
    destruct (truthy mn) eqn:T; [|assumption].
    apply mapSet_endsWith; [|assumption]. eapply extractModuleFromName_endsWith, E. }
  apply G. constructor.
Qed.

Lemma fallbackModule_inherited (services : list UniversalService) i r :
  inherited (fallbackModule (serviceModulesOf services) i r) = true ->
  fallbackModule (serviceModulesOf services) i r = "constructor"
  \/ fallbackModule (serviceModulesOf services) i r = "__proto__".
Proof.
  pose proof (serviceModulesOf_endsWith services) as Hs.
  set (sm := serviceModulesOf services) in *. intros H.
  assert (Ends : forall x, endsWith x "s" = true -> inherited (sanitize x) = true -> False).
  { intros x Hx Hi. apply sanitize_endsWith_s in Hx.
    apply inherited_endsWith in Hi. congruence. }
  assert (Pos : inherited (sanitize (byPosition sm i)) = true -> False).
  { unfold byPosition. destruct (_ <? _); [|discriminate].
    destruct (map fst sm !! (i / 3)) as [k|] eqn:E; [|discriminate].
    simpl default. unfold or_else. destruct (truthy k); [|discriminate].
    apply Ends. apply list_elem_of_lookup_2, list_elem_of_In, in_map_iff in E
      as ([k' v] & <- & Hin).
    rewrite List.Forall_forall in Hs. exact (Hs _ Hin). }
  revert H. unfold fallbackModule.
  destruct (String.eqb (matchService sm r) "unknown") eqn:U.
  - destruct (_ || _); [discriminate|].
    destruct (pathSegments (path r)) as [|seg segs].
    + intros H. destruct (Pos H).
    + intros H. apply inherited_noCapital; [assumption|].
      apply sanitize_noCapital, toLowerCase_noCapital.
  - intros H. exfalso. revert H. apply Ends.
    unfold matchService. unfold matchService in U.
    destruct (find _ sm) as [[mn sn]|] eqn:F; [|discriminate].
    apply find_some in F as [Hin _]. rewrite List.Forall_forall in Hs. exact (Hs _ Hin).
Qed.

(** With no usable controller the controller loop leaves [chunks] empty. *)
Lemma controllers_unusable (controllers : list UniversalController) :
  Forall unusable controllers -> forEachM groupController ∅ controllers = Some ∅.
Proof.
  intros H.
  assert (O : forall mn, ownedBy controllers mn = []).
  { intros mn. unfold ownedBy. induction H as [|c cs Hc _ IH]; [reflexivity|].
    cbn [flat_map]. rewrite IH, app_nil_r. destruct Hc as [Hc|Hc].
    - rewrite Hc. reflexivity.
    - rewrite Hc. destruct (truthy (ctl_name c) && _); reflexivity. }
  destruct (controllers_lookup controllers ∅) as (chunks & -> & L).
  f_equal. apply map_eq. intros mn. now rewrite L, O.
Qed.

Lemma assignedTo_In sm (rs : list UniversalRoute) :
  forall i j r, rs !! j = Some r -> In r (assignedTo sm i rs (fallbackModule sm (i + j) r)).
Proof.
  induction rs as [|x rs IH]; intros i j r H; [now rewrite lookup_nil in H|].
  cbn [assignedTo]. apply in_or_app. destruct j as [|j].
  - injection H as ->. rewrite Nat.add_0_r, String.eqb_refl. left. now left.
  - right. rewrite <- Nat.add_succ_comm. now apply IH.
Qed.

Lemma assignedTo_sub sm (rs : list UniversalRoute) i mn r :
  In r (assignedTo sm i rs mn) -> In r rs.
Proof.
  revert i. induction rs as [|x rs IH]; intros i; cbn [assignedTo]; [intros []|].
  intros H. apply in_app_iff in H as [H|H].
  - destruct (String.eqb _ _); [|destruct H]. destruct H as [<-|[]]. now left.
  - right. eapply IH, H.
Qed.

Lemma grouping_None (rs : list UniversalRoute)
      (services : list UniversalService) (controllers : list UniversalController) :
  Forall unusable controllers ->
  groupRoutesByController rs services controllers = None <->
  exists j r, rs !! j = Some r
              /\ (fallbackModule (serviceModulesOf services) j r = "constructor"
                  \/ fallbackModule (serviceModulesOf services) j r = "__proto__").
Proof.
  intros Hc. unfold groupRoutesByController.
  rewrite (controllers_unusable _ Hc), map_size_empty. cbn [Nat.eqb].
  rewrite fallbackLoop_None by (intros k _; apply lookup_empty).
  split; intros (j & r & Hj & H); exists j, r; (split; [assumption|]).
  - now apply fallbackModule_inherited.
  - cbn [Nat.add]. destruct H as [-> | ->]; reflexivity.
Qed.

End FallbackFacts.

Import FallbackFacts.

(** X7. When no controller has both a name and a route, the grouping
    throws exactly when some route is given the module name constructor
    or __proto__: of the names a plain object inherits, these are the
    only ones the fallback can produce. *)
Theorem fallback_throws (rs : list UniversalRoute)
        (services : list UniversalService) (controllers : list UniversalController) :
  Forall unusable controllers ->
  groupRoutesByController rs services controllers = None <->
  exists j r, rs !! j = Some r
              /\ (fallbackModule (serviceModulesOf services) j r = "constructor"
                  \/ fallbackModule (serviceModulesOf services) j r = "__proto__").
Proof. apply grouping_None. Qed.

Lemma fallback_throws_witness :
  Forall unusable []
  /\ groupRoutesByController [sampleRoute "/constructor/:id" "show"] [] [] = None.
Proof.
  split; [constructor|].
  apply (fallback_throws [sampleRoute "/constructor/:id" "show"] [] [] (List.Forall_nil unusable)).
  exists 0, (sampleRoute "/constructor/:id" "show"). split; [reflexivity|].
  left. reflexivity.
Defined.

(** X8. When no controller has both a name and a route and no route is
    named constructor or __proto__, the grouping returns, and under every
    module name stand exactly the routes whose fallback name it is, in
    their order: every route is in the group of its name, no group holds
    a route that was not passed, and every key is sanitized. *)
Theorem fallback_groups (rs : list UniversalRoute)
        (services : list UniversalService) (controllers : list UniversalController) :
  Forall unusable controllers ->
  (forall j r, rs !! j = Some r ->
               fallbackModule (serviceModulesOf services) j r <> "constructor"
               /\ fallbackModule (serviceModulesOf services) j r <> "__proto__") ->
  exists chunks : gmap string (list UniversalRoute),
    groupRoutesByController rs services controllers = Some chunks
    /\ (forall mn, chunks !! mn
                   = nonEmpty (assignedTo (serviceModulesOf services) 0 rs mn))
    /\ (forall j r, rs !! j = Some r ->
                    exists l, chunks !! fallbackModule (serviceModulesOf services) j r
                              = Some l /\ In r l)
    /\ (forall mn l r, chunks !! mn = Some l -> In r l -> In r rs)
    /\ (forall mn, is_Some (chunks !! mn) -> sanitize mn = mn).
Proof.
  intros Hc Hok.
  destruct (groupRoutesByController rs services controllers) as [chunks|] eqn:E.
  2:{ apply (grouping_None _ _ _ Hc) in E as (j & r & Hj & H).
      destruct (Hok _ _ Hj). tauto. }
  exists chunks. split; [reflexivity|].
  unfold groupRoutesByController in E.
  rewrite (controllers_unusable _ Hc), map_size_empty in E. cbn [Nat.eqb] in E.
  assert (L : forall mn, chunks !! mn
                         = nonEmpty (assignedTo (serviceModulesOf services) 0 rs mn)).
  { intros mn. rewrite (fallbackLoop_lookup _ _ _ _ _ E), lookup_empty.
    now destruct (assignedTo _ 0 rs mn). }
  split; [exact L|]. split; [|split].
  - intros j r Hj. rewrite L.
    pose proof (assignedTo_In (serviceModulesOf services) rs 0 j r Hj) as Hin.
    cbn [Nat.add] in Hin.
    destruct (assignedTo _ 0 rs _) as [|x l] eqn:A; [destruct Hin|].
    exists (x :: l). split; [reflexivity | assumption].
  - intros mn l r Hl Hin. rewrite L in Hl.
    destruct (assignedTo _ 0 rs mn) as [|x l'] eqn:A; [discriminate|].
    injection Hl as <-. rewrite <- A in Hin. eapply assignedTo_sub, Hin.
  - eapply GroupingFacts.fallbackLoop_keys; [|exact E].
    intros k [x Hx]. rewrite lookup_empty in Hx. discriminate.
Qed.

Lemma fallback_groups_witness :
  exists chunks : gmap string (list UniversalRoute),
    groupRoutesByController
      [sampleRoute "/users" "list"; sampleRoute "/" "home"; sampleRoute "/users/:id" "show"]
      [] []
    = Some chunks
    /\ chunks !! "users"
       = Some [sampleRoute "/users" "list"; sampleRoute "/users/:id" "show"].
Proof.
  destruct (fallback_groups
              [sampleRoute "/users" "list"; sampleRoute "/" "home";
               sampleRoute "/users/:id" "show"] [] [] (List.Forall_nil unusable))
    as (chunks & E & L & _).
  - intros [|[|[|j]]] r; [| | |discriminate]; intros [= <-]; split; discriminate.
  - exists chunks. split; [exact E|]. rewrite L. reflexivity.
Defined.

(** ** The declaration extractor and the assembler *)

Module AssemblerFacts.
Import Js JsFacts Re ReSpec ReFacts NamingFacts GroupingFacts ExtractionFacts.

Lemma firstArgumentOr_truthy (dflt : string) (args : list string) :
  dflt <> EmptyString -> firstArgumentOr dflt args <> EmptyString.
Proof.
  intros H. unfold firstArgumentOr. destruct args as [|a args]; [assumption|].
  apply truthy_true, or_else_truthy. now apply truthy_true.
Qed.

Lemma combinePaths_nonempty (b p : string) : p <> EmptyString -> combinePaths b p <> EmptyString.
Proof.
  intros Hp. unfold combinePaths. destruct (truthy b); [discriminate | assumption].
Qed.

Lemma extractRouteFromMethod_fields (mth : MethodDeclaration) (c : ClassDeclaration)
      (r : UniversalRoute) :
  extractRouteFromMethod mth c = Some r ->
  framework r = nestjs /\ middleware r = [] /\ handler r = mth_name mth
  /\ path r <> EmptyString
  /\ length (parameters r) = length (mth_parameters mth).
Proof.
  unfold extractRouteFromMethod.
  destruct (find isRouteDecorator (mth_decorators mth)) as [d|]; [|discriminate].
  intros [= <-]. cbn [framework middleware handler path parameters].
  repeat split.
  - apply combinePaths_nonempty. unfold routePathOf.
    apply firstArgumentOr_truthy. discriminate.
  - now rewrite length_map.
Qed.

Lemma classRoutes_In (c : ClassDeclaration) (r : UniversalRoute) :
  In r (classRoutes c) <->
  exists mth, In mth (cls_methods c) /\ isRouteMethod mth = true
              /\ extractRouteFromMethod mth c = Some r.
Proof.
  unfold classRoutes. rewrite in_flat_map. split.
  - intros (mth & Hm & Hr). exists mth. split; [assumption|].
    destruct (isRouteMethod mth); [|destruct Hr].
    destruct (extractRouteFromMethod mth c) as [x|]; [|destruct Hr].
    destruct Hr as [<-|[]]. auto.
  - intros (mth & Hm & Hi & He). exists mth. split; [assumption|].
    rewrite Hi, He. now left.
Qed.

Lemma extractControllers_In (sf : SourceFile) (ctl : UniversalController) :
  In ctl (extractControllers sf) ->
  exists c, In c (getClasses sf) /\ isControllerClass c = true
            /\ routes ctl = classRoutes c /\ routes ctl <> []
            /\ ctl_name ctl = or_else (default EmptyString (cls_name c)) "AnonymousController"
            /\ ctl_filePath ctl = getFilePath sf
            /\ ctl_framework ctl = detectFrameworkFromClass c.
Proof.
  unfold extractControllers. rewrite in_flat_map. intros (c & Hc & H).
  exists c. split; [assumption|]. destruct (isControllerClass c); [|destruct H].
  destruct (classRoutes c) as [|r0 l] eqn:E; [destruct H|].
  destruct H as [<-|[]]. cbn [routes ctl_name ctl_filePath ctl_framework].
  repeat split. discriminate.
Qed.

Lemma fold_extractFile (files : list SourceFile) :
  forall acc,
    all_routes (fold_left extractFile files acc)
    = all_routes acc ++ flat_map fileRoutes files
    /\ all_controllers (fold_left extractFile files acc)
       = all_controllers acc ++ flat_map fileControllers files
    /\ all_services (fold_left extractFile files acc)
       = all_services acc ++ flat_map fileServices files.
Proof.
  induction files as [|sf files IH]; intros acc.
  - cbn [fold_left flat_map]. now rewrite !app_nil_r.
  - cbn [fold_left flat_map]. destruct (IH (extractFile acc sf)) as (-> & -> & ->).
    unfold extractFile, fileRoutes, fileControllers, fileServices.
    destruct (shouldSkipFile sf); cbn [all_routes all_controllers all_services app].
    + repeat split; reflexivity.
    + now rewrite <- !app_assoc.
Qed.

(** The controller-direct grouping, for any controllers of which one is
    named and has a route. *)
Lemma controller_direct (controllers : list UniversalController) :
  Exists (fun c => ctl_name c <> EmptyString /\ routes c <> []) controllers ->
  exists chunks : gmap string (list UniversalRoute),
    (forall rs services,
        groupRoutesByController rs services controllers = Some chunks)
    /\ (forall mn, chunks !! mn = nonEmpty (ownedBy controllers mn)).
Proof.
  intros Hex.
  destruct (controllers_lookup controllers ∅) as (chunks & Hrun & Hl).
  assert (Hl' : forall mn, chunks !! mn = nonEmpty (ownedBy controllers mn)).
  { intros mn. rewrite Hl, lookup_empty. now destruct (ownedBy controllers mn). }
  exists chunks. split; [|exact Hl'].
  intros rs services. unfold groupRoutesByController. rewrite Hrun.
  apply List.Exists_exists in Hex as (c & Hc & Hn & Hr).
  destruct (extractModuleFromName (ctl_name c)) as [mn|] eqn:E.
  2:{ unfold extractModuleFromName in E. apply truthy_true in Hn. rewrite Hn in E.
      simpl in E. repeat destruct (endsWith _ _); discriminate. }
  destruct (routes c) as [|r l] eqn:Rs; [contradiction|].
  assert (In r (ownedBy controllers mn)) as Hin.
  { apply ownedBy_In. exists c. rewrite Rs. repeat split; auto; now left. }
  destruct (Nat.eqb_spec (size chunks) 0) as [Z|]; [|reflexivity].
  apply map_size_empty_iff in Z. subst chunks.
  specialize (Hl' mn). rewrite lookup_empty in Hl'. revert Hin Hl'.
  destruct (ownedBy controllers mn); [intros [] | discriminate].
Qed.

Lemma extractControllers_inv (sf : SourceFile) :
  Forall (fun ctl =>
            ctl_name ctl <> EmptyString /\ routes ctl <> []
            /\ ctl_filePath ctl = getFilePath sf
            /\ Forall (fun r => framework r = nestjs /\ middleware r = []
                                /\ path r <> EmptyString
                                /\ In (method r) (httpVerbs ++ ["ALL"]))
                      (routes ctl))
         (extractControllers sf).
Proof.
  apply List.Forall_forall. intros ctl Hctl.
  pose proof (extractControllers_In _ _ Hctl) as (c & Hc & Hi & Hr & Hne & Hn & Hf & _).
  split; [|split; [assumption|split; [assumption|]]].
  - rewrite Hn. apply truthy_true, or_else_truthy. reflexivity.
  - apply List.Forall_forall. intros r Hin. rewrite Hr in Hin.
    apply classRoutes_In in Hin as (mth & Hm & _ & He).
    destruct (extractRouteFromMethod_fields _ _ _ He) as (F & M & _ & P & _).
    repeat split; try assumption. eapply extractRouteFromMethod_method, He.
Qed.

Lemma extractAll_flat (files : list SourceFile) :
  all_routes (extractAll files) = flat_map fileRoutes files
  /\ all_controllers (extractAll files) = flat_map fileControllers files
  /\ all_services (extractAll files) = flat_map fileServices files.
Proof.
  unfold extractAll.
  destruct (fold_extractFile files
              {| all_routes := []; all_controllers := []; all_services := [] |})
    as (-> & -> & ->).
  repeat split.
Qed.

End AssemblerFacts.

Import AssemblerFacts.

(** X9. Every controller the declaration extractor emits has a name, at
    least one route and the path of its file; each of its routes is
    tagged nestjs, whatever the tag of the controller, has no middleware,
    a path that is not empty, and one of the six methods. *)
Theorem extractControllers_invariant (sf : SourceFile) :
  Forall (fun ctl =>
            ctl_name ctl <> EmptyString /\ routes ctl <> []
            /\ ctl_filePath ctl = getFilePath sf
            /\ Forall (fun r => framework r = nestjs /\ middleware r = []
                                /\ path r <> EmptyString
                                /\ In (method r) (httpVerbs ++ ["ALL"]))
                      (routes ctl))
         (extractControllers sf).
Proof. exact (extractControllers_inv sf). Qed.

(** X10. [extractAll] keeps nothing from one file to the next: its
    routes, controllers and services are the routes, controllers and
    services of each file in turn, a skipped file (node_modules, .spec.,
    .test. in its path) adding nothing, and the routes of a file being
    those of its controllers followed by its pattern matches. *)
Theorem extractAll_per_file (files : list SourceFile) :
  all_routes (extractAll files) = flat_map fileRoutes files
  /\ all_controllers (extractAll files) = flat_map fileControllers files
  /\ all_services (extractAll files) = flat_map fileServices files.
Proof. exact (extractAll_flat files). Qed.

(** X11. Every route of every controller of the result is among the
    routes of the result. *)
Theorem extractAll_controller_routes (files : list SourceFile) :
  Forall (fun ctl => Forall (fun r => In r (all_routes (extractAll files))) (routes ctl))
         (all_controllers (extractAll files)).
Proof.
  destruct (extractAll_flat files) as (-> & -> & _).
  apply List.Forall_forall. intros ctl Hc. apply List.Forall_forall. intros r Hr.
  apply in_flat_map in Hc as (sf & Hsf & Hc). apply in_flat_map. exists sf.
  split; [assumption|]. unfold fileControllers, fileRoutes in *.
  destruct (shouldSkipFile sf); [destruct Hc|].
  apply in_or_app. left. apply in_flat_map. now exists ctl.
Qed.

(** X12. When an analysis found a controller, the grouping of its
    result is the controller-direct one and does not throw: every group
    holds routes of controllers only, under the derived names of their
    controllers, so a route found by the pattern scan alone is in no
    group. *)
Theorem analysis_grouping (files : list SourceFile) :
  all_controllers (extractAll files) <> [] ->
  exists chunks : gmap string (list UniversalRoute),
    groupRoutesByController (all_routes (extractAll files))
                            (all_services (extractAll files))
                            (all_controllers (extractAll files))
    = Some chunks
    /\ (forall mn, chunks !! mn
                   = nonEmpty (ownedBy (all_controllers (extractAll files)) mn))
    /\ (forall mn l r, chunks !! mn = Some l -> In r l ->
                       exists ctl, In ctl (all_controllers (extractAll files))
                                   /\ In r (routes ctl)
                                   /\ extractModuleFromName (ctl_name ctl) = Some mn
                                   /\ framework r = nestjs).
Proof.
  intros Hne.
  assert (Inv : Forall (fun ctl => ctl_name ctl <> EmptyString /\ routes ctl <> []
                                   /\ Forall (fun r => framework r = nestjs) (routes ctl))
                       (all_controllers (extractAll files))).
  { destruct (extractAll_flat files) as (_ & -> & _).
    apply List.Forall_forall. intros ctl Hc. apply in_flat_map in Hc as (sf & _ & Hc).
    unfold fileControllers in Hc. destruct (shouldSkipFile sf); [destruct Hc|].
    pose proof (extractControllers_inv sf) as H.
    rewrite List.Forall_forall in H. destruct (H _ Hc) as (H1 & H2 & _ & H3).
    split; [assumption|]. split; [assumption|].
    revert H3. apply List.Forall_impl. tauto. }
  destruct (controller_direct (all_controllers (extractAll files))) as (chunks & Hg & Hl).
  { destruct (all_controllers (extractAll files)) as [|c cs]; [contradiction|].
    apply Exists_cons_hd. apply List.Forall_inv in Inv. tauto. }
  exists chunks. split; [apply Hg|]. split; [exact Hl|].
  intros mn l r L Hin. rewrite Hl in L.
  destruct (ownedBy _ mn) as [|r0 l0] eqn:O; [discriminate|].
  injection L as <-. rewrite <- O in Hin.
  apply ownedBy_In in Hin as (c & Hc & _ & He & Hrc). exists c.
  rewrite List.Forall_forall in Inv. destruct (Inv _ Hc) as (_ & _ & Hf).
  rewrite List.Forall_forall in Hf. auto.
Qed.

Lemma analysis_grouping_witness :
  all_controllers (extractAll [controllerFile]) <> []
  /\ exists chunks : gmap string (list UniversalRoute),
      groupRoutesByController (all_routes (extractAll [controllerFile]))
                              (all_services (extractAll [controllerFile]))
                              (all_controllers (extractAll [controllerFile]))
      = Some chunks
      /\ chunks !! "users" = Some (flat_map routes (extractControllers controllerFile)).
Proof.
  assert (H : all_controllers (extractAll [controllerFile]) <> []) by discriminate.
  split; [exact H|].
  destruct (analysis_grouping [controllerFile] H) as (chunks & E & L & _).
  exists chunks. split; [exact E|]. rewrite L. reflexivity.
Defined.

(** ** The framework detector *)

(** X13. The guess of the detector follows a fixed order of precedence:
    nestjs when the NestJS dependency or one of its files is there, else
    express when the Express dependency or one of its files is there, else
    fastify, else koa, by their dependency, else unknown.  So a Fastify or
    Koa project with an index.js is reported as express.  The confidence
    is at most 100, and it is 0 exactly when nothing indicated a framework,
    which is exactly when the guess is unknown. *)
Theorem detectFramework_precedence (p : FrameworkDetector.Project) :
  let info := FrameworkDetector.detectFramework p in
  FrameworkDetector.framework info
  = (if hasDependency p "@nestjs/core" || FrameworkDetector.hasNestJSPatterns p
     then FrameworkDetector.nestjs
     else if hasDependency p "express" || FrameworkDetector.hasExpressPatterns p
     then FrameworkDetector.express
     else if hasDependency p "fastify" then FrameworkDetector.fastify
     else if hasDependency p "koa" then FrameworkDetector.koa
     else FrameworkDetector.unknown)
  /\ FrameworkDetector.confidence info <= 100
  /\ (FrameworkDetector.framework info = FrameworkDetector.unknown
      <-> FrameworkDetector.indicators info = [])
  /\ (FrameworkDetector.indicators info = []
      <-> FrameworkDetector.confidence info = 0).
Proof.
  unfold FrameworkDetector.detectFramework, hasDependency.
  destruct (FrameworkDetector.dependencies p) as [deps|].
  - destruct (FrameworkDetector.dependsOn deps "express"),
             (FrameworkDetector.dependsOn deps "@nestjs/core"),
             (FrameworkDetector.dependsOn deps "fastify"),
             (FrameworkDetector.dependsOn deps "koa"),
             (FrameworkDetector.hasExpressPatterns p),
             (FrameworkDetector.hasNestJSPatterns p);
      cbn; repeat split; intros; (reflexivity || discriminate || lia).
  - destruct (FrameworkDetector.hasExpressPatterns p),
             (FrameworkDetector.hasNestJSPatterns p);
      cbn; repeat split; intros; (reflexivity || discriminate || lia).
Qed.

(** ** Names, modules and what goes with a module *)

Module StringFacts.
Import Js JsFacts ReSpec.

Lemma startsWith_split (p s : string) :
  startsWith s p = true -> exists post, s = p +:+ post.
Proof.
  revert s. induction p as [|a p IH]; intros s H.
  - now exists s.
  - destruct s as [|b s]; [discriminate|]. cbn [startsWith] in H.
    apply andb_true_iff in H as [E H]. apply Ascii.eqb_eq in E as ->.
    destruct (IH _ H) as [post ->]. now exists post.
Qed.

Lemma includes_split (s x : string) :
  includes s x = true -> exists pre post, s = pre +:+ (x +:+ post).
Proof.
  induction s as [|a s IH]; cbn [includes]; intros H.
  - rewrite orb_false_r in H. apply startsWith_split in H as [post ->].
    now exists EmptyString, post.
  - apply orb_true_iff in H as [H|H].
    + apply startsWith_split in H as [post ->]. now exists EmptyString, post.
    + destruct (IH H) as (pre & post & ->). now exists (String a pre), post.
Qed.

Lemma endsWith_split (s x : string) :
  endsWith s x = true -> exists pre, s = pre +:+ x.
Proof.
  induction s as [|a s IH]; cbn [endsWith]; intros H.
  - rewrite orb_false_r in H. apply String.eqb_eq in H as <-. now exists EmptyString.
  - apply orb_true_iff in H as [H|H].
    + apply String.eqb_eq in H as <-. now exists EmptyString.
    + destruct (IH H) as [pre ->]. now exists (String a pre).
Qed.

Lemma startsWith_refl (s : string) : startsWith s s = true.
Proof. induction s as [|a s IH]; simpl; [reflexivity|]. now rewrite Ascii.eqb_refl. Qed.

Lemma startsWith_append_l (a b c : string) :
  startsWith (a +:+ b) (a +:+ c) = startsWith b c.
Proof. induction a as [|x a IH]; simpl; [reflexivity|]. now rewrite Ascii.eqb_refl. Qed.

Lemma endsWith_includes (s x : string) : endsWith s x = true -> includes s x = true.
Proof.
  intros H. apply endsWith_split in H as [pre ->].
  apply includes_append, startsWith_refl.
Qed.

Lemma includes_empty (s : string) : includes s EmptyString = true.
Proof. now destruct s. Qed.

Lemma map_string_append f (a b : string) :
  map_string f (a +:+ b) = map_string f a +:+ map_string f b.
Proof. induction a as [|x a IH]; simpl; [reflexivity | now rewrite IH]. Qed.

Lemma map_string_split f (a b s : string) :
  map_string f s = a +:+ b ->
  exists s1 s2, s = s1 +:+ s2 /\ map_string f s1 = a /\ map_string f s2 = b.
Proof.
  revert s. induction a as [|x a IH]; intros s H.
  - now exists EmptyString, s.
  - destruct s as [|y s]; [discriminate|]. simpl in H. injection H as Hx H.
    destruct (IH _ H) as (s1 & s2 & -> & H1 & H2).
    exists (String y s1), s2. simpl. now rewrite Hx, H1.
Qed.

Lemma map_dropLast f (s : string) :
  map_string f (dropLast s) = dropLast (map_string f s).
Proof.
  induction s as [|a s IH]; [reflexivity|].
  destruct s as [|b s]; [reflexivity|].
  change (dropLast (String a (String b s))) with (String a (dropLast (String b s))).
  cbn [map_string] in *. now rewrite IH.
Qed.

Lemma dropLast_snoc (s : string) (a : ascii) :
  dropLast (s +:+ String a EmptyString) = s.
Proof.
  induction s as [|b s IH]; [reflexivity|].
  simpl. rewrite IH. now destruct s.
Qed.

Lemma endsWith_trans (s x y : string) :
  endsWith s x = true -> endsWith x y = true -> endsWith s y = true.
Proof.
  intros H1 H2. apply endsWith_split in H1 as [pre ->].
  apply endsWith_split in H2 as [pre' ->].
  rewrite <- append_assoc. apply endsWith_append.
Qed.

Lemma last_unique (s : string) (a b : ascii) :
  endsWith s (String a EmptyString) = true ->
  endsWith s (String b EmptyString) = true -> a = b.
Proof.
  induction s as [|c s IH]; cbn [endsWith]; intros Ha Hb.
  - discriminate.
  - apply orb_true_iff in Ha as [Ha|Ha]; apply orb_true_iff in Hb as [Hb|Hb].
    + apply String.eqb_eq in Ha, Hb. congruence.
    + apply String.eqb_eq in Ha. injection Ha as _ ->. discriminate Hb.
    + apply String.eqb_eq in Hb. injection Hb as _ ->. discriminate Ha.
    + now apply IH.
Qed.

Lemma toLowerChar_idem (c : ascii) : toLowerChar (toLowerChar c) = toLowerChar c.
Proof. destruct c as [[] [] [] [] [] [] [] []]; reflexivity. Qed.

Lemma toLowerCase_idem (s : string) : toLowerCase (toLowerCase s) = toLowerCase s.
Proof.
  induction s as [|a s IH]; [reflexivity|].
  unfold toLowerCase in *. simpl. now rewrite toLowerChar_idem, IH.
Qed.

(** A character that folds onto an ASCII capital lower-cases as it. *)
Lemma toLowerChar_canonicalize (c : ascii) :
  between 65 90 (canonicalize c) = true ->
  toLowerChar c = toLowerChar (canonicalize c).
Proof.
  destruct c as [[] [] [] [] [] [] [] []]; intros H;
    first [reflexivity | discriminate H].
Qed.

Lemma toLowerCase_canon (t w : string) :
  allChars (between 65 90) w = true ->
  map_string canonicalize t = w -> toLowerCase t = toLowerCase w.
Proof.
  revert w. induction t as [|a t IH]; intros w Hw E; subst w; [reflexivity|].
  cbn [map_string allChars] in Hw. apply andb_true_iff in Hw as [Ha Hw].
  unfold toLowerCase in *. cbn [map_string].
  rewrite (toLowerChar_canonicalize a Ha). f_equal. now apply IH.
Qed.

End StringFacts.

Module RelatedFacts.
Import Js JsFacts ReSpec NamingFacts StringFacts.

Lemma relatedName_includes (moduleName nm : string) :
  relatedName moduleName nm = includes (toLowerCase nm) (toLowerCase moduleName).
Proof.
  unfold relatedName. destruct (String.eqb_spec moduleName "app") as [->|_].
  - change (toLowerCase "app") with "app". cbn [andb]. apply orb_diag.
  - cbn [andb]. apply orb_false_r.
Qed.

(** A name that ends with the word Service, in any letter case. *)
Lemma endsWithCI_Service (nm : string) :
  endsWithCI nm "Service" = true ->
  exists base t, nm = base +:+ t /\ stripSuffix nm = base
                 /\ toLowerCase t = "service" /\ t <> EmptyString.
Proof.
  intros H. pose proof H as H0. unfold endsWithCI, canon in H.
  apply endsWith_split in H as [pre H].
  apply map_string_split in H as (base & t & -> & _ & Ht).
  exists base, t. repeat split.
  - unfold stripSuffix. cbn [suffixWords find]. rewrite H0.
    replace (String.length "Service") with (String.length t).
    + apply take_append.
    + rewrite <- (length_map_string canonicalize), Ht. reflexivity.
  - exact (toLowerCase_canon t "SERVICE" eq_refl Ht).
  - intros ->. discriminate Ht.
Qed.

Lemma pluralize_lower (s : string) :
  toLowerCase s = s -> toLowerCase (pluralize s) = pluralize s.
Proof.
  intros H. unfold pluralize, toLowerCase in *.
  destruct (endsWith s "y"); [|destruct (endsWith s "s")].
  - now rewrite map_string_append, map_dropLast, H.
  - exact H.
  - now rewrite map_string_append, H.
Qed.

(** The plural in ies is not found in the name it was made from. *)
Lemma ies_not_included (a : string) :
  includes (a +:+ "yservice") (a +:+ "ies") = false.
Proof.
  destruct (includes _ _) eqn:E; [|reflexivity]. exfalso.
  apply includes_split in E as (pre & post & E).
  rewrite append_assoc in E.
  assert (G : forall j, String.get (String.length pre + j) "yservice"
                        = String.get j ("ies" +:+ post)).
  { intros j.
    rewrite (String.append_correct2 a "yservice" (String.length pre + j)).
    rewrite (String.append_correct2 a ("ies" +:+ post) j).
    rewrite (String.append_correct2 pre (a +:+ ("ies" +:+ post))
               (j + String.length a)).
    rewrite E. f_equal. lia. }
  pose proof (G 0) as G0. pose proof (G 1) as G1.
  rewrite Nat.add_0_r in G0.
  destruct (String.length pre) as [|[|[|[|[|[|[|[|n]]]]]]]]; simpl in G0, G1;
    discriminate.
Qed.

Lemma own_service_related (nm mn : string) :
  endsWithCI nm "Service" = true ->
  extractModuleFromName nm = Some mn ->
  relatedName mn nm = negb (endsWith (toLowerCase (stripSuffix nm)) "y").
Proof.
  intros H E. destruct (endsWithCI_Service nm H) as (base & t & -> & Hs & Ht & Hne).
  rewrite extractModuleFromName_derive in E. unfold deriveModuleName in E.
  destruct (String.eqb_spec (base +:+ t) EmptyString) as [E0|_].
  { destruct base; [now destruct t | discriminate]. }
  injection E as <-. rewrite Hs, relatedName_includes.
  rewrite pluralize_lower by apply toLowerCase_idem.
  replace (toLowerCase (base +:+ t)) with (toLowerCase base +:+ "service")
    by (unfold toLowerCase in *; now rewrite map_string_append, Ht).
  unfold pluralize.
  destruct (endsWith (toLowerCase base) "y") eqn:Y;
    [|destruct (endsWith (toLowerCase base) "s") eqn:S]; cbn [negb].
  - apply endsWith_split in Y as [a ->]. rewrite dropLast_snoc, append_assoc.
    apply ies_not_included.
  - apply includes_startsWith, startsWith_append.
  - apply includes_startsWith. now rewrite startsWith_append_l.
Qed.

Lemma endsWith_s_not_word (s w : string) :
  endsWith s "s" = true -> In w suffixWords -> endsWithCI s w = false.
Proof.
  intros Hs Hw. destruct (endsWithCI s w) eqn:E; [|reflexivity]. exfalso.
  unfold endsWithCI in E.
  assert (HS : endsWith (canon s) "S" = true).
  { apply endsWith_split in Hs as [pre ->]. unfold canon.
    rewrite map_string_append. apply endsWith_append. }
  assert (X : forall c, endsWith (canon w) (String c EmptyString) = true ->
                        c = "S"%char).
  { intros c Hc. symmetry. apply (last_unique (canon s)); [exact HS|].
    now apply (endsWith_trans _ (canon w)). }
  repeat (destruct Hw as [<-|Hw];
          [match goal with
           | X : forall c, endsWith (canon ?w) _ = true -> _ |- _ =>
               let l := eval vm_compute in
                 (String.get (String.length w - 1) (canon w)) in
               match l with
               | Some ?c => specialize (X c eq_refl); discriminate X
               end
           end|]).
  destruct Hw.
Qed.

Lemma stripSuffix_plural (s : string) : endsWith s "s" = true -> stripSuffix s = s.
Proof.
  intros Hs. unfold stripSuffix.
  destruct (find (endsWithCI s) suffixWords) as [w|] eqn:F; [|reflexivity].
  apply find_some in F as [Hw E]. now rewrite (endsWith_s_not_word s w Hs Hw) in E.
Qed.

Lemma s_not_y (s : string) : endsWith s "s" = true -> endsWith s "y" = false.
Proof.
  intros Hs. destruct (endsWith s "y") eqn:Y; [|reflexivity].
  discriminate (last_unique s _ _ Hs Y).
Qed.

Lemma module_name_stable (nm : string) :
  nm <> EmptyString ->
  exists mn, extractModuleFromName nm = Some mn
             /\ mn <> EmptyString /\ endsWith mn "s" = true
             /\ toLowerCase mn = mn
             /\ extractModuleFromName mn = Some mn.
Proof.
  intros Hne. rewrite extractModuleFromName_derive. unfold deriveModuleName.
  destruct (String.eqb_spec nm EmptyString) as [|_]; [contradiction|].
  eexists. split; [reflexivity|].
  set (mn := pluralize (toLowerCase (stripSuffix nm))).
  assert (E : extractModuleFromName nm = Some mn).
  { rewrite extractModuleFromName_derive. unfold deriveModuleName.
    now destruct (String.eqb_spec nm EmptyString). }
  pose proof (extractModuleFromName_endsWith _ _ E) as Hs.
  assert (Hl : toLowerCase mn = mn) by apply pluralize_lower, toLowerCase_idem.
  assert (Hm : mn <> EmptyString) by (intros Z; rewrite Z in Hs; discriminate).
  repeat split; try assumption.
  rewrite extractModuleFromName_derive. unfold deriveModuleName.
  destruct (String.eqb_spec mn EmptyString) as [|_]; [contradiction|].
  rewrite (stripSuffix_plural mn Hs), Hl. unfold pluralize.
  now rewrite (s_not_y mn Hs), Hs.
Qed.

Lemma sanitize_facts (s : string) :
  String.length (sanitize s) = String.length s
  /\ allChars isModuleChar (sanitize s) = true
  /\ (sanitize s = s <-> allChars isModuleChar s = true).
Proof.
  induction s as [|a s (L & A & F)]; [now repeat split|].
  unfold sanitize in *. cbn [replaceChars allChars].
  destruct (isModuleChar a) eqn:E; cbn [negb andb].
  - cbn [allChars String.length]. rewrite E, L, A. repeat split; try reflexivity.
    + intros [= H]. now apply F.
    + intros H. f_equal. now apply F.
  - simpl. rewrite L, A. repeat split; try reflexivity; try discriminate.
    intros [= <- _]. discriminate E.
Qed.

End RelatedFacts.

Import StringFacts RelatedFacts.

(** X14. The services and the types that go with a module are those whose
    lower-cased name contains the lower-cased module name, in their
    order; the second test of the filters, for the module app, never
    decides. *)
Theorem related_by_inclusion (moduleName : string) :
  (forall services,
      getRelatedServices moduleName services
      = List.filter (fun service =>
                       includes (toLowerCase (svc_name service))
                                (toLowerCase moduleName)) services)
  /\ (forall types,
         getRelatedTypes moduleName types
         = List.filter (fun t =>
                          includes (toLowerCase (ty_name t))
                                   (toLowerCase moduleName)) types).
Proof.
  split; intros l; apply filter_ext; intros x; apply relatedName_includes.
Qed.

(** X15. A service whose name ends with the word Service, in any letter
    case, goes with the module derived from its own name exactly when the
    lower-cased rest of the name does not end with a y: UsersService goes
    with users and OrderService with orders, but CompanyService does not
    go with companies. *)
Theorem service_of_own_module (services : list UniversalService)
        (service : UniversalService) (mn : string) :
  In service services ->
  endsWithCI (svc_name service) "Service" = true ->
  extractModuleFromName (svc_name service) = Some mn ->
  (In service (getRelatedServices mn services)
   <-> endsWith (toLowerCase (stripSuffix (svc_name service))) "y" = false).
Proof.
  intros Hin H E. unfold getRelatedServices. rewrite filter_In.
  rewrite (own_service_related _ _ H E).
  destruct (endsWith _ "y"); cbn [negb]; split; intros G;
    first [reflexivity | now split | now destruct G].
Qed.

Lemma service_of_own_module_witness :
  let company := {| svc_name := "CompanyService"; methods := [];
                    svc_filePath := "src/company.service.ts";
                    svc_framework := nestjs |} in
  getRelatedServices "companies" [company] = []
  /\ (In company (getRelatedServices "companies" [company])
      <-> endsWith (toLowerCase (stripSuffix "CompanyService")) "y" = false).
Proof.
  intros company. split; [reflexivity|].
  exact (service_of_own_module [company] company "companies"
           (or_introl eq_refl) eq_refl eq_refl).
Defined.

(** X16. Every non-empty name has a module name, which is not empty, ends
    with an s, is in lower case, and is its own module name: deriving a
    module name from a module name changes nothing. *)
Theorem extractModuleFromName_stable (nm : string) :
  nm <> EmptyString ->
  exists mn, extractModuleFromName nm = Some mn
             /\ mn <> EmptyString /\ endsWith mn "s" = true
             /\ toLowerCase mn = mn
             /\ extractModuleFromName mn = Some mn.
Proof. exact (module_name_stable nm). Qed.

Lemma extractModuleFromName_stable_witness :
  "CompanyService" <> EmptyString
  /\ exists mn, extractModuleFromName "CompanyService" = Some mn
                /\ mn <> EmptyString /\ endsWith mn "s" = true
                /\ toLowerCase mn = mn
                /\ extractModuleFromName mn = Some mn.
Proof.
  assert (H : "CompanyService" <> EmptyString) by discriminate.
  split; [exact H|]. exact (extractModuleFromName_stable "CompanyService" H).
Defined.

(** X17. Sanitizing a module name keeps its length, leaves only letters,
    digits, hyphens and underscores, changes nothing a second time, and
    leaves a name as it is exactly when the name has only such
    characters. *)
Theorem sanitize_normal_form (s : string) :
  String.length (sanitize s) = String.length s
  /\ allChars isModuleChar (sanitize s) = true
  /\ sanitize (sanitize s) = sanitize s
  /\ (sanitize s = s <-> allChars isModuleChar s = true).
Proof.
  destruct (sanitize_facts s) as (L & A & F).
  repeat split; try assumption; try apply F. apply sanitize_idem.
Qed.

(** ** Services, class tests and the remaining strategies *)

Module ServiceFacts.
Import Js JsFacts ReSpec NamingFacts GroupingFacts StringFacts RelatedFacts.



Lemma or_else_empty (a b : string) :
  or_else a b = EmptyString <-> a = EmptyString /\ b = EmptyString.
Proof.
  unfold or_else, truthy. destruct (String.eqb_spec a EmptyString) as [->|N]; cbn [negb].
  - tauto.
  - tauto.
Qed.

Lemma or_else_cases (a b : string) :
  (a <> EmptyString /\ or_else a b = a) \/ (a = EmptyString /\ or_else a b = b).
Proof.
  unfold or_else, truthy. destruct (String.eqb_spec a EmptyString) as [->|N]; cbn [negb];
    [right | left]; now split.
Qed.

Lemma getenv_Some (env : gmap string string) (k v : string) :
  getenv env k = v -> v <> EmptyString -> env !! k = Some v.
Proof.
  unfold getenv. destruct (env !! k) as [x|]; simpl; intros <- H;
    [reflexivity | contradiction].
Qed.

Lemma apiKey_facts (env : gmap string string) (provider : string) :
  let key := getAPIKeyFromEnv env provider in
  (key = EmptyString
   <-> Forall (fun k => getenv env k = EmptyString) (keyVariables provider))
  /\ (key <> EmptyString ->
      exists k, In k (keyVariables provider) /\ env !! k = Some key).
Proof.
  unfold getAPIKeyFromEnv, keyVariables.
  destruct (String.eqb provider "google");
    [|destruct (String.eqb provider "openai");
      [|destruct (String.eqb provider "anthropic")]]; cbn zeta.
  - split.
    + rewrite !or_else_empty. split.
      * intros (A & B & C & _). now repeat constructor.
      * intros F. inversion_clear F as [|? ? A F1]. inversion_clear F1 as [|? ? B F2].
        inversion_clear F2 as [|? ? C _]. tauto.
    + intros N.
      destruct (or_else_cases (getenv env "GOOGLE_AI_API_KEY")
                  (or_else (getenv env "GOOGLE_GENERATIVE_AI_API_KEY")
                     (or_else (getenv env "AUTODOCGEN_GOOGLE_API_KEY") EmptyString)))
        as [[A ->]|[_ E]].
      { eexists. split; [left; reflexivity | now apply getenv_Some]. }
      rewrite E in *. clear E.
      destruct (or_else_cases (getenv env "GOOGLE_GENERATIVE_AI_API_KEY")
                  (or_else (getenv env "AUTODOCGEN_GOOGLE_API_KEY") EmptyString))
        as [[A ->]|[_ E]].
      { eexists. split; [right; left; reflexivity | now apply getenv_Some]. }
      rewrite E in *. clear E.
      destruct (or_else_cases (getenv env "AUTODOCGEN_GOOGLE_API_KEY") EmptyString)
        as [[A ->]|[_ E]].
      { eexists. split; [right; right; left; reflexivity | now apply getenv_Some]. }
      rewrite E in N. contradiction.
  - split.
    + rewrite !or_else_empty. split.
      * intros (A & B & _). now repeat constructor.
      * intros F. inversion_clear F as [|? ? A F1]. inversion_clear F1 as [|? ? B _].
        tauto.
    + intros N.
      destruct (or_else_cases (getenv env "OPENAI_API_KEY")
                  (or_else (getenv env "AUTODOCGEN_OPENAI_API_KEY") EmptyString))
        as [[A ->]|[_ E]].
      { eexists. split; [left; reflexivity | now apply getenv_Some]. }
      rewrite E in *. clear E.
      destruct (or_else_cases (getenv env "AUTODOCGEN_OPENAI_API_KEY") EmptyString)
        as [[A ->]|[_ E]].
      { eexists. split; [right; left; reflexivity | now apply getenv_Some]. }
      rewrite E in N. contradiction.
  - split.
    + rewrite !or_else_empty. split.
      * intros (A & B & _). now repeat constructor.
      * intros F. inversion_clear F as [|? ? A F1]. inversion_clear F1 as [|? ? B _].
        tauto.
    + intros N.
      destruct (or_else_cases (getenv env "ANTHROPIC_API_KEY")
                  (or_else (getenv env "AUTODOCGEN_ANTHROPIC_API_KEY") EmptyString))
        as [[A ->]|[_ E]].
      { eexists. split; [left; reflexivity | now apply getenv_Some]. }
      rewrite E in *. clear E.
      destruct (or_else_cases (getenv env "AUTODOCGEN_ANTHROPIC_API_KEY") EmptyString)
        as [[A ->]|[_ E]].
      { eexists. split; [right; left; reflexivity | now apply getenv_Some]. }
      rewrite E in N. contradiction.
  - split; [split; [constructor | reflexivity] | intros N; now contradiction N].
Qed.

End ServiceFacts.

Module AnnotationFacts.
Import Js JsFacts Re ReSpec ReFacts ExtractionFacts HandlerFacts.

Lemma annotationStyle_shape (t : string) (f : found) :
  matchHere annotationStyle t = Some f ->
  exists v p,
    groups f = [(2, p); (1, v)]
    /\ In v capitalVerbs /\ allChars notQuote p = true
    /\ annotationShape t v p (after f).
Proof.
  unfold matchHere, annotationStyle. intros H.
  rewrite m_seqs_cons in H. apply m_lit in H as (s1 & -> & H).
  rewrite m_seqs_cons, m_grp in H.
  apply m_alts_lit in H as (v & s3 & Hv & -> & H). rewrite take_append in H.
  rewrite m_seqs_cons in H. apply m_lit in H as (s4 & -> & H).
  rewrite m_seqs_cons in H. apply m_chr in H as (q1 & s5 & -> & Hq1 & H).
  rewrite m_seqs_cons, m_grp in H.
  apply m_star_chr in H as (p & s6 & -> & Hp & H). rewrite take_append in H.
  rewrite m_seqs_cons in H. apply m_chr in H as (q2 & s7 & -> & Hq2 & H).
  rewrite m_seqs_cons in H. apply m_lit in H as (s8 & -> & H).
  injection H as <-. exists v, p. cbn [groups after].
  repeat split; try assumption. exists q1, q2. repeat split; assumption.
Qed.

End AnnotationFacts.

Import ServiceFacts AnnotationFacts.


(** X19. The third test on a class name never decides: a class is a
    controller class exactly when it has the Controller decorator or its
    lower-cased name contains controller, and a service class exactly
    when it has the Injectable decorator or its lower-cased name contains
    service. *)
Theorem class_tests_by_inclusion (c : ClassDeclaration) :
  isControllerClass c
  = hasDecorator "Controller" (cls_decorators c) || includes (lowerName c) "controller"
  /\ isServiceClass c
     = hasDecorator "Injectable" (cls_decorators c) || includes (lowerName c) "service".
Proof.
  unfold isControllerClass, isServiceClass. split.
  - destruct (endsWith (lowerName c) "controller") eqn:E.
    + rewrite (endsWith_includes _ _ E). now rewrite !orb_true_r.
    + apply orb_false_r.
  - destruct (endsWith (lowerName c) "service") eqn:E.
    + rewrite (endsWith_includes _ _ E). now rewrite !orb_true_r.
    + apply orb_false_r.
Qed.

(** X20. A service whose name is nothing but the suffix, so that its base
    is empty, takes every route that has a handler when its module comes
    first among the service modules: the handler of every such route
    contains the empty base, whatever its path. *)
Theorem empty_service_base (sm : list (string * string)) (mn nm : string)
        (index : nat) (r : UniversalRoute) :
  serviceBase nm = EmptyString -> handler r <> EmptyString -> mn <> "unknown" ->
  fallbackModule ((mn, nm) :: sm) index r = sanitize mn.
Proof.
  intros B H N. unfold fallbackModule, matchService. cbn [find].
  rewrite B, includes_empty. apply truthy_true in H. rewrite H. cbn [andb].
  now destruct (String.eqb_spec mn "unknown").
Qed.

Lemma empty_service_base_witness :
  let r := {| path := "/orders/:id"; method := "GET"; handler := "getOrder";
              middleware := []; parameters := fixedParameters; framework := express |} in
  let services := [ {| svc_name := "Service"; methods := [];
                       svc_filePath := "src/service.ts"; svc_framework := nestjs |} ] in
  serviceModulesOf services = [("s", "Service")]
  /\ fallbackModule (("s", "Service") :: []) 0 r = sanitize "s".
Proof.
  intros r services. split; [reflexivity|].
  apply (empty_service_base [] "s" "Service" 0 r); [reflexivity | discriminate..].
Defined.

(** X21. The API key of a provider is empty exactly when each of the
    provider's environment variables is unset or empty, and a key that is
    not empty is the value of one of the provider's own variables; a
    provider other than google, openai and anthropic has no variable and
    so no key. *)
Theorem getAPIKeyFromEnv_variables (env : gmap string string) (provider : string) :
  let key := getAPIKeyFromEnv env provider in
  (key = EmptyString
   <-> Forall (fun k => getenv env k = EmptyString) (keyVariables provider))
  /\ (key <> EmptyString ->
      exists k, In k (keyVariables provider) /\ env !! k = Some key).
Proof. exact (apiKey_facts env provider). Qed.

(** X22. Every route the annotation pattern reports stands in the text:
    at some place the text reads an at sign, one of the five capitalised
    verbs, and a path without quotes between two quotes in parentheses.
    The method is the verb in upper case, the path is the quoted text, or
    a slash when that is empty, the handler is looked for in the text
    after the match, and the framework is nestjs. *)
Theorem annotation_routes_sound (text : string) (r : UniversalRoute) :
  In r (routesOfPattern text nestPattern) ->
  exists t v p post,
    suffixOf t text /\ annotationShape t v p post
    /\ In v capitalVerbs /\ allChars notQuote p = true
    /\ method r = toUpperCase v
    /\ path r = (if String.eqb p EmptyString then "/" else p)
    /\ handler r = default "anonymous" (firstGroup callRe post)
    /\ framework r = nestjs.
Proof.
  intros H. unfold routesOfPattern in H. apply in_flat_map in H as (f & Hf & Hr).
  apply execAll_matchHere in Hf as (t & Ht & Hm). cbn [re nestPattern] in Hm.
  pose proof (annotationStyle_shape t f Hm) as (v & p & G & Hv & Hp & Sh).
  rewrite routeOfMatch_single in Hr by (exists t; now left + (cbn; tauto)).
  destruct Hr as [<-|[]]. exists t, v, p, (after f).
  cbn [method path handler framework].
  unfold extractMethod, extractPath, extractHandler. rewrite G.
  cbn [group Nat.eqb]. simpl default.
  repeat split; try assumption.
  - unfold or_else.
    assert (T : truthy (toUpperCase v) = true).
    { repeat (destruct Hv as [<-|Hv]; [reflexivity|]). destruct Hv. }
    now rewrite T.
  - unfold or_else, truthy. now destruct (String.eqb p EmptyString).
Qed.

Lemma annotation_routes_sound_witness :
  let text := "@Get('') list() {}" in
  let r := {| path := "/"; method := "GET"; handler := "list";
              middleware := []; parameters := fixedParameters; framework := nestjs |} in
  routesOfPattern text nestPattern = [r]
  /\ exists t v p post,
      suffixOf t text /\ annotationShape t v p post
      /\ In v capitalVerbs /\ allChars notQuote p = true
      /\ method r = toUpperCase v
      /\ path r = (if String.eqb p EmptyString then "/" else p)
      /\ handler r = default "anonymous" (firstGroup callRe post)
      /\ framework r = nestjs.
Proof.
  intros text r. split; [reflexivity|].
  apply (annotation_routes_sound text r). left. reflexivity.
Defined.

(** ** The configuration *)

Module ConfigFacts.
Import Js JsFacts ServiceFacts.

Lemma getAPIKeyForProvider_cli (env : gmap string string) (provider : string) :
  ConfigManager.getAPIKeyForProvider env provider = getAPIKeyFromEnv env provider.
Proof. reflexivity. Qed.

Lemma url_truthy (env : gmap string string) :
  truthy (ConfigManager.url (ConfigManager.loadDatabaseConfig env)) = true.
Proof.
  unfold ConfigManager.loadDatabaseConfig. cbn [ConfigManager.url].
  apply or_else_truthy, or_else_truthy. reflexivity.
Qed.

End ConfigFacts.

Import ConfigFacts.

(** X23. The configuration manager and the command line read the API key
    of a provider the same way, and for a configuration read from the
    environment the validation can only ask for the API key: the database
    URL always has a value, so the second error is never reported, and
    the configuration is invalid exactly when each of the provider's key
    variables is unset or empty. *)
Theorem validateConfig_environment (env : gmap string string) :
  let config := ConfigManager.loadConfig env in
  let key := getAPIKeyFromEnv env (ConfigManager.provider (ConfigManager.ai config)) in
  ConfigManager.apiKey (ConfigManager.ai config) = key
  /\ ConfigManager.validateConfig config
     = (truthy key, if truthy key then [] else [ConfigManager.keyRequired])
  /\ (fst (ConfigManager.validateConfig config) = false
      <-> Forall (fun k => getenv env k = EmptyString)
                 (keyVariables (ConfigManager.provider (ConfigManager.ai config)))).
Proof.
  cbn zeta. unfold ConfigManager.validateConfig, ConfigManager.loadConfig.
  cbn [ConfigManager.ai ConfigManager.db]. rewrite url_truthy.
  cbn [negb]. rewrite andb_false_r.
  unfold ConfigManager.loadAIConfig.
  cbn [ConfigManager.apiKey ConfigManager.provider].
  rewrite getAPIKeyForProvider_cli.
  set (provider := or_else (getenv env "AUTODOCGEN_AI_PROVIDER") "google").
  destruct (apiKey_facts env provider) as [K _]. cbn zeta in K.
  split; [reflexivity|].
  destruct (truthy (getAPIKeyFromEnv env provider)) eqn:T; cbn [negb app length fst].
  - split; [reflexivity|]. split; [discriminate|]. intros F. apply K in F.
    rewrite F in T. discriminate T.
  - split; [reflexivity|]. split; [|reflexivity]. intros _. apply K.
    unfold truthy in T. apply negb_false_iff, String.eqb_eq in T. exact T.
Qed.

(** X24. For each of the three providers the model chosen when no model
    variable is set is one of the models listed for the provider. *)
Theorem default_model_available (env : gmap string string) (provider : string) :
  In provider ConfigManager.getAvailableProviders ->
  (forall k, In k ["AUTODOCGEN_GOOGLE_MODEL"; "AUTODOCGEN_OPENAI_MODEL";
                   "AUTODOCGEN_ANTHROPIC_MODEL"] -> getenv env k = EmptyString) ->
  In (ConfigManager.getModelForProvider env provider)
     (ConfigManager.getAvailableModels provider).
Proof.
  intros Hp He. unfold ConfigManager.getModelForProvider.
  destruct Hp as [<-|[<-|[<-|[]]]]; cbn [String.eqb Ascii.eqb Bool.eqb];
    rewrite He by (cbn; tauto); now left.
Qed.

Lemma default_model_available_witness :
  In "openai" ConfigManager.getAvailableProviders
  /\ In (ConfigManager.getModelForProvider ∅ "openai")
        (ConfigManager.getAvailableModels "openai").
Proof.
  split; [right; left; reflexivity|].
  apply (default_model_available ∅ "openai"); [right; left; reflexivity|].
  intros k _. reflexivity.
Defined.

(** ** Greedy runs, as a whole *)

Module RunFacts.
Import Js JsFacts Re ReSpec ReFacts ExtractionFacts StringFacts GreedyFacts
       RegistrationFacts.

#[local] Arguments Re.m : simpl never.

Lemma span_append (p : ascii -> bool) (s : string) :
  s = takeWhile p s +:+ dropWhile p s.
Proof.
  induction s as [|a s IH]; [reflexivity|]. simpl.
  destruct (p a); simpl; [now rewrite <- IH | reflexivity].
Qed.

Lemma takeWhile_all (p : ascii -> bool) (s : string) : allChars p (takeWhile p s) = true.
Proof.
  induction s as [|a s IH]; [reflexivity|]. simpl.
  destruct (p a) eqn:E; simpl; [now rewrite E | reflexivity].
Qed.

Lemma dropWhile_stops (p : ascii -> bool) (s : string) : stopsAt p (dropWhile p s) = true.
Proof.
  induction s as [|a s IH]; [reflexivity|]. simpl.
  destruct (p a) eqn:E; [assumption|]. simpl. now rewrite E.
Qed.


Lemma take_takeWhile (p : ascii -> bool) (s : string) :
  take (String.length s - String.length (dropWhile p s)) s = takeWhile p s.
Proof.
  rewrite (span_append p s) at 1 3. apply take_append.
Qed.




Section Runs.
Context {R : Type}.
Implicit Types (k : string -> caps -> option R) (s t : string) (c : caps) (x : R).

Lemma starLoop_run (p : ascii -> bool) k n :
  forall s c, String.length s <= n ->
              starLoop (m (Chr p)) k n s c = greedyRun p k s c.
Proof.
  induction n as [|n IH]; intros s c Hn.
  - destruct s; [reflexivity | simpl in Hn; lia].
  - cbn [starLoop]. destruct s as [|a s]; [now rewrite m_chr_nil|].
    rewrite m_chr_cons. cbn [greedyRun]. destruct (p a); [|reflexivity].
    replace (String.length s <? String.length (String a s)) with true
      by (symmetry; apply Nat.ltb_lt; simpl; lia).
    rewrite IH by (simpl in Hn; lia). reflexivity.
Qed.

Lemma m_star_run (p : ascii -> bool) k s c :
  m (Star (Chr p)) k s c = greedyRun p k s c.
Proof. cbn [m]. now apply starLoop_run. Qed.

Lemma m_plus_run (p : ascii -> bool) k s c :
  m (Plus (Chr p)) k s c
  = match s with
    | String a s' => if p a then greedyRun p k s' c else None
    | EmptyString => None
    end.
Proof.
  unfold Plus. rewrite m_seq_eq. destruct s as [|a s]; [apply m_chr_nil|].
  rewrite m_chr_cons. destruct (p a); [apply m_star_run | reflexivity].
Qed.

Lemma m_eps k s c : m Eps k s c = k s c.
Proof. reflexivity. Qed.



Lemma greedyRun_longest (p : ascii -> bool) k s c x :
  k (dropWhile p s) c = Some x -> greedyRun p k s c = Some x.
Proof.
  induction s as [|d s IH]; intros H; [assumption|].
  cbn [greedyRun dropWhile] in *. destruct (p d); [|assumption]. now rewrite IH.
Qed.

(** What a greedy run returns comes from the continuation on what is
    left after some run, and either that run cannot go on or the
    continuation refused what is left after one more character. *)
Lemma greedyRun_inv (p : ascii -> bool) k s c x :
  greedyRun p k s c = Some x ->
  exists a b, s = a +:+ b /\ allChars p a = true /\ k b c = Some x
              /\ (stopsAt p b = true
                  \/ exists d b', b = String d b' /\ p d = true /\ k b' c = None).
Proof.
  induction s as [|d s IH]; intros H.
  - exists EmptyString, EmptyString. repeat split; [assumption | now left].
  - cbn [greedyRun] in H. destruct (p d) eqn:E.
    + destruct (greedyRun p k s c) as [y|] eqn:G.
      * injection H as ->. destruct (IH eq_refl) as (a & b & -> & Ha & Hk & Hb).
        exists (String d a), b. simpl. rewrite E. repeat split; assumption.
      * exists EmptyString, (String d s). repeat split; [assumption|]. right.
        exists d, s. repeat split; [assumption|].
        destruct (k s c) as [y|] eqn:K; [|reflexivity]. exfalso.
        clear -K G. destruct s as [|e s]; [simpl in G; congruence|].
        cbn [greedyRun] in G. destruct (p e); [|congruence].
        destruct (greedyRun p k s c); congruence.
    + exists EmptyString, (String d s). repeat split; [assumption|]. left.
      simpl. now rewrite E.
Qed.

End Runs.


Lemma space_notCommaParen (c : ascii) : isSpace c = true -> notCommaParen c = true.
Proof. destruct c as [[] [] [] [] [] [] [] []]; (reflexivity || discriminate). Qed.

End RunFacts.

(** ** The handler name, place by place *)

Module ResolveFacts.
Import Js JsFacts Re ReSpec ReFacts ExtractionFacts HandlerFacts StringFacts
       GreedyFacts RegistrationFacts RunFacts.

#[local] Arguments Re.m : simpl never.























End ResolveFacts.

(** ** What a call-style match captures *)

Module CaptureFacts.
Import Js JsFacts Re ReSpec ReFacts ExtractionFacts HandlerFacts StringFacts
       CallStyleFacts GreedyFacts RegistrationFacts RunFacts.

#[local] Arguments Re.m : simpl never.

Lemma head_run (p : ascii -> bool) (e : ascii) (b : string) :
  p e = true ->
  take (String.length (String e b) - String.length (dropWhile p b)) (String e b)
  = String e (takeWhile p b).
Proof.
  intros He. pose proof (take_takeWhile p (String e b)) as H.
  cbn [takeWhile dropWhile] in H. now rewrite He in H.
Qed.

Lemma callStyle_whole (recv t : string) (f : found) :
  matchHere (callStyle recv) t = Some f ->
  exists v p h,
    captures f v p h
    /\ In v lowerVerbs
    /\ p <> EmptyString /\ allChars notQuote p = true
    /\ callShape recv t v p h (after f)
    /\ wholeHandler h (after f).
Proof.
  unfold matchHere, callStyle. intros H.
  rewrite m_seqs_cons in H. apply m_lit in H as (s1 & -> & H).
  rewrite m_seqs_cons in H. apply m_lit in H as (s2 & -> & H).
  rewrite m_seqs_cons, m_grp in H.
  apply m_alts_lit in H as (v & s3 & Hv & -> & H). rewrite take_append in H.
  rewrite m_seqs_cons in H. apply m_lit in H as (s4 & -> & H).
  rewrite m_seqs_cons in H. apply m_chr in H as (q1 & s5 & -> & Hq1 & H).
  rewrite m_seqs_cons, m_grp in H.
  apply m_plus_chr in H as (p & s6 & -> & Hp & Hp' & H). rewrite take_append in H.
  rewrite m_seqs_cons in H. apply m_chr in H as (q2 & s7 & -> & Hq2 & H).
  rewrite m_seqs_cons in H. apply m_lit in H as (s8 & -> & H).
  rewrite m_seqs_cons, m_star_run in H.
  apply greedyRun_inv in H as (ws & b & -> & Hws & H & Hmax).
  rewrite m_seqs_cons, m_grp, m_plus_run in H.
  destruct b as [|e b]; [discriminate|].
  destruct (notCommaParen e) eqn:Ee; [|discriminate].
  erewrite greedyRun_longest in H by reflexivity.
  rewrite (head_run _ _ _ Ee) in H. injection H as <-.
  exists v, p, (String e (takeWhile notCommaParen b)). cbn [groups after].
  split; [reflexivity|]. repeat split; try assumption.
  - exists q1, q2, ws. repeat split; try assumption.
    change (String e (takeWhile notCommaParen b) +:+ dropWhile notCommaParen b)
      with (String e (takeWhile notCommaParen b +:+ dropWhile notCommaParen b)).
    now rewrite <- span_append.
  - cbn [allChars]. now rewrite Ee, takeWhile_all.
  - discriminate.
  - apply dropWhile_stops.
  - destruct Hmax as [Hs|(d & b' & [= <- <-] & Hd & Hn)]; [now left|]. right.
    rewrite m_seqs_cons, m_grp, m_plus_run in Hn.
    assert (E : takeWhile notCommaParen b = EmptyString).
    { destruct b as [|g b]; [reflexivity|]. cbn [takeWhile].
      destruct (notCommaParen g); [|reflexivity].
      erewrite greedyRun_longest in Hn by reflexivity. discriminate. }
    rewrite E. cbn [String.length allChars]. now rewrite Hd.
Qed.

(** The route of a call-style match, from what it captured. *)
Lemma routeOfMatch_captured (text : string) (pat : Pattern) (f : found) (v p h : string) :
  captures f v p h -> In v lowerVerbs -> p <> EmptyString -> h <> EmptyString ->
  routeOfMatch text pat f = [capturedRoute (detectFrameworkFromPattern pat) v p h].
Proof.
  intros G Hv Hp Hh. rewrite routeOfMatch_single.
  unfold capturedRoute, extractMethod, extractPath, extractHandler. rewrite G.
  cbn [group Nat.eqb]. simpl default.
  rewrite (or_else_id _ _ Hp). apply truthy_true in Hh. rewrite Hh.
  do 2 f_equal. repeat (destruct Hv as [<-|Hv]; [reflexivity|]). destruct Hv.
Qed.

Lemma expressRouteOfMatch_captured (f : found) (v p h : string) :
  captures f v p h -> In v lowerVerbs -> p <> EmptyString -> h <> EmptyString ->
  expressRouteOfMatch f = capturedRoute express v p h.
Proof.
  intros G Hv Hp Hh.
  unfold capturedRoute, expressRouteOfMatch, extractMethod, extractPath. rewrite G.
  cbn [group Nat.eqb]. simpl default.
  rewrite (or_else_id _ _ Hp), (or_else_id _ _ Hh).
  f_equal. repeat (destruct Hv as [<-|Hv]; [reflexivity|]). destruct Hv.
Qed.

End CaptureFacts.

(** ** The scan from left to right *)

Module ScanFacts.
Import Js JsFacts Re ReSpec ReFacts ExtractionFacts StringFacts GreedyFacts RunFacts
       CaptureFacts.

Lemma matchHere_split (r : regex) (t : string) (f : found) :
  matchHere r t = Some f -> t = matched f +:+ after f.
Proof.
  unfold matchHere. intros H. apply m_inv in H as (s' & c' & H & [pre ->] & _).
  injection H as <-. cbn [matched after]. now rewrite take_append.
Qed.

Section Scans.
Variable r : regex.
Hypothesis nonempty : forall t f, matchHere r t = Some f -> matched f <> EmptyString.

Lemma execAll_after (t : string) (f : found) :
  matchHere r t = Some f ->
  execAll r 0 t = f :: execAll r 0 (after f).
Proof.
  intros H. pose proof (matchHere_split _ _ _ H) as E.
  pose proof (nonempty _ _ H) as Hne.
  destruct t as [|a t].
  - destruct (matched f); [contradiction | discriminate].
  - cbn [execAll]. rewrite H. f_equal.
    destruct (matched f) as [|b mt]; [contradiction|].
    simpl in E. injection E as _ ->.
    replace (String.length (String b mt) - 1) with (String.length mt)
      by (simpl; lia).
    apply execAll_skip.
Qed.

Lemma Scan_execAll (s : string) (fs : list found) :
  Scan r s fs -> execAll r 0 s = fs.
Proof.
  induction 1 as [s H|pre t f fs Hm Hno _ IH].
  - now apply execAll_none.
  - induction pre as [|a pre IHp].
    + change (EmptyString +:+ t) with t. rewrite (execAll_after _ _ Hm). now f_equal.
    + assert (H0 : matchHere r (String a (pre +:+ t)) = None)
        by (apply (Hno EmptyString (String a pre) eq_refl); discriminate).
      change (String a pre +:+ t) with (String a (pre +:+ t)).
      cbn [execAll]. rewrite H0. apply IHp.
      intros pre1 pre2 -> Hne. now apply (Hno (String a pre1)).
Qed.

Lemma Scan_cons (a : ascii) (s : string) (fs : list found) :
  matchHere r (String a s) = None -> Scan r s fs -> Scan r (String a s) fs.
Proof.
  intros H0 HS. revert H0. destruct HS as [s0 H|pre t f fs0 Hm Hno Hs]; intros H0.
  - apply Scan_none. intros t [pre E]. destruct pre as [|b pre].
    + simpl in E. now subst t.
    + simpl in E. injection E as _ ->. apply H. now exists pre.
  - apply (Scan_found r (String a pre) t f fs0 Hm); [|assumption].
    intros pre1 pre2 E Hne. destruct pre1 as [|b pre1].
    + simpl in E. now subst pre2.
    + simpl in E. injection E as _ ->. now apply (Hno pre1).
Qed.

Lemma execAll_Scan_bounded (n : nat) :
  forall s, String.length s <= n -> Scan r s (execAll r 0 s).
Proof.
  induction n as [|n IHn]; intros s.
  - intros Hn. destruct s; [|simpl in Hn; lia]. cbn [execAll].
    destruct (matchHere r EmptyString) as [f|] eqn:E.
    + pose proof (matchHere_split _ _ _ E) as S. pose proof (nonempty _ _ E).
      destruct (matched f); [contradiction | discriminate].
    + apply Scan_none. intros t [pre Ht].
      destruct pre; [simpl in Ht; now subst t | discriminate].
  - induction s as [|a s IHs]; intros Hn; [apply IHn; simpl; lia|].
    destruct (matchHere r (String a s)) as [f|] eqn:E.
    + rewrite (execAll_after _ _ E).
      apply (Scan_found r EmptyString (String a s) f _ E).
      * intros pre1 pre2 E0 Hne. destruct pre1; [simpl in E0; now subst|discriminate].
      * apply IHn. pose proof (matchHere_split _ _ _ E) as S.
        pose proof (nonempty _ _ E) as Hne.
        apply (f_equal String.length) in S. rewrite length_append in S.
        destruct (matched f); [contradiction|]. simpl in *. lia.
    + cbn [execAll]. rewrite E. apply Scan_cons; [assumption|].
      apply IHs. simpl in Hn. lia.
Qed.

Lemma execAll_Scan (s : string) : Scan r s (execAll r 0 s).
Proof. now apply (execAll_Scan_bounded (String.length s)). Qed.

End Scans.

Lemma callStyle_matched (recv t : string) (f : found) :
  matchHere (callStyle recv) t = Some f -> matched f <> EmptyString.
Proof. apply callStyle_nonempty. Qed.

(** The routes of the matches of a call-style pattern, one for each. *)
Lemma call_routes (text : string) (pat : Pattern) (recv : string) :
  re pat = callStyle recv ->
  Forall2 (fun f r => exists v p h,
               captures f v p h /\ In v lowerVerbs /\ p <> EmptyString
               /\ wholeHandler h (after f)
               /\ r = capturedRoute (detectFrameworkFromPattern pat) v p h)
          (execAll (callStyle recv) 0 text) (routesOfPattern text pat).
Proof.
  intros E. unfold routesOfPattern. rewrite E.
  assert (H : forall f, In f (execAll (callStyle recv) 0 text) ->
                        exists t, matchHere (callStyle recv) t = Some f).
  { intros f Hf. apply execAll_matchHere in Hf as (t & _ & Hm). now exists t. }
  induction (execAll (callStyle recv) 0 text) as [|f l IH]; [constructor|].
  destruct (H f (or_introl eq_refl)) as [t Ht].
  apply callStyle_whole in Ht as (v & p & h & G & Hv & Hp & _ & _ & W).
  cbn [flat_map].
  rewrite (routeOfMatch_captured text pat f v p h G Hv Hp (proj1 (proj2 W))).
  cbn [app]. constructor.
  - exists v, p, h. repeat split; try assumption; apply W.
  - apply IH. intros g Hg. apply H. now right.
Qed.

Lemma filter_tag (text : string) (p : Pattern) :
  List.filter (fun r => isKoa (framework r)) (routesOfPattern text p)
  = if isKoa (detectFrameworkFromPattern p) then routesOfPattern text p else [].
Proof.
  unfold routesOfPattern. induction (execAll (re p) 0 text) as [|f l IH].
  - now destruct (isKoa _).
  - cbn [flat_map]. rewrite List.filter_app, IH, routeOfMatch_single.
    cbn [List.filter framework]. now destruct (isKoa _).
Qed.

Lemma extractRoutes_length (text : string) :
  length (extractRoutes text)
  = callMatches text + annotationMatches text + routerMatches text.
Proof.
  unfold extractRoutes, routePatterns, callMatches, annotationMatches, routerMatches.
  cbn [flat_map]. rewrite !length_app, !length_routesOfPattern. cbn [re appPattern
    routerPattern nestPattern fastifyPattern length]. lia.
Qed.

Lemma find_existsb {A : Type} (p : A -> bool) (l : list A) :
  existsb p l = true -> exists x, find p l = Some x.
Proof.
  induction l as [|a l IH]; [discriminate|]. simpl.
  destruct (p a); [now exists a | exact IH].
Qed.

Lemma length_classRoutes (c : ClassDeclaration) :
  length (classRoutes c) = length (List.filter isRouteMethod (cls_methods c)).
Proof.
  unfold classRoutes. induction (cls_methods c) as [|mth l IH]; [reflexivity|].
  cbn [flat_map List.filter]. rewrite length_app, IH.
  destruct (isRouteMethod mth) eqn:E; [|reflexivity].
  unfold isRouteMethod in E. apply find_existsb in E as [d E].
  unfold extractRouteFromMethod. rewrite E. reflexivity.
Qed.

Lemma length_controller_routes (sf : SourceFile) :
  length (flat_map routes (extractControllers sf)) = routeMethodCount sf.
Proof.
  unfold extractControllers, routeMethodCount.
  induction (getClasses sf) as [|c l IH]; [reflexivity|].
  cbn [flat_map map list_sum]. rewrite flat_map_app, length_app, IH. f_equal.
  destruct (isControllerClass c); [|reflexivity].
  rewrite <- length_classRoutes.
  destruct (classRoutes c) as [|r rs]; [reflexivity|].
  cbn [flat_map routes]. now rewrite app_nil_r.
Qed.

End ScanFacts.

Import RunFacts ResolveFacts CaptureFacts ScanFacts.

(** ** The scan, the handler names and the counts *)

(** X4. Every route of the Express extractor stands in the text: at some
    place the text reads app or router, a dot, one of the five verbs, an
    opening parenthesis, a path that is not empty and holds no quote
    between two quotes, a comma, white space and the handler text.  The
    handler text is all there is up to the next comma, closing
    parenthesis or end of the text.  The route has that path (the default
    path is never used), the verb in upper case as method, the name
    resolved from the handler text as handler, no middleware, the three
    fixed parameters, and the framework express. *)
Theorem extractExpressRoutes_sound (text : string) (r : UniversalRoute) :
  In r (extractExpressRoutes text) ->
  exists recv t v p h post,
    In recv ["app"; "router"] /\ suffixOf t text /\ callShape recv t v p h post
    /\ In v lowerVerbs /\ p <> EmptyString /\ allChars notQuote p = true
    /\ wholeHandler h post
    /\ r = capturedRoute express v p h.
Proof.
  unfold extractExpressRoutes. rewrite in_flat_map. intros (q & Hq & Hr).
  apply in_map_iff in Hr as (f & <- & Hf).
  apply execAll_matchHere in Hf as (t & Ht & Hm).
  assert (exists recv, In recv ["app"; "router"] /\ q = callStyle recv) as (recv & Hin & ->).
  { destruct Hq as [<-|[<-|[]]]; [exists "app" | exists "router"]; simpl; auto. }
  apply callStyle_whole in Hm as (v & p & h & G & Hv & Hp & Hp' & Hs & W).
  exists recv, t, v, p, h, (after f). repeat split; try assumption; try apply W.
  apply expressRouteOfMatch_captured; try assumption. apply W.
Qed.

Lemma extractExpressRoutes_sound_witness :
  In (capturedRoute express "get" "/users" "listUsers")
     (extractExpressRoutes "app.get('/users', listUsers)")
  /\ exists recv t v p h post,
      In recv ["app"; "router"] /\ suffixOf t "app.get('/users', listUsers)"
      /\ callShape recv t v p h post
      /\ In v lowerVerbs /\ p <> EmptyString /\ allChars notQuote p = true
      /\ wholeHandler h post
      /\ capturedRoute express "get" "/users" "listUsers" = capturedRoute express v p h.
Proof.
  assert (H : In (capturedRoute express "get" "/users" "listUsers")
                 (extractExpressRoutes "app.get('/users', listUsers)"))
    by (left; reflexivity).
  split; [exact H | exact (extractExpressRoutes_sound _ _ H)].
Defined.

(** C6 (as the code has it). For a file whose text holds one call-style
    match and one annotation match: when the file is skipped it yields
    no route; when it is not, it yields the routes of its controllers
    followed by every match of every pattern, nothing removed.  These are
    two routes, one more when the call-style match is one of the router
    pattern, which is listed twice, and one more for each route method of
    each controller class of the file.  So a file that is not skipped
    never yields fewer than two. *)
Theorem C6_no_deduplication (sf : SourceFile) :
  callMatches (getFullText sf) = 1 ->
  annotationMatches (getFullText sf) = 1 ->
  (shouldSkipFile sf = true -> all_routes (extractAll [sf]) = [])
  /\ (shouldSkipFile sf = false ->
      all_routes (extractAll [sf])
      = flat_map routes (extractControllers sf) ++ extractRoutes (getFullText sf)
      /\ length (flat_map routes (extractControllers sf)) = routeMethodCount sf
      /\ length (extractRoutes (getFullText sf)) = 2 + routerMatches (getFullText sf)
      /\ (routerMatches (getFullText sf) = 0 \/ routerMatches (getFullText sf) = 1)
      /\ length (all_routes (extractAll [sf]))
         = 2 + routerMatches (getFullText sf) + routeMethodCount sf
      /\ 2 <= length (all_routes (extractAll [sf]))).
Proof.
  intros C A. split.
  - intros S. unfold extractAll. cbn [fold_left]. unfold extractFile. now rewrite S.
  - intros S.
    assert (E : all_routes (extractAll [sf])
                = flat_map routes (extractControllers sf) ++ extractRoutes (getFullText sf))
      by (unfold extractAll; cbn [fold_left]; now rewrite (extractFile_routes _ _ S)).
    assert (L : length (extractRoutes (getFullText sf))
                = 2 + routerMatches (getFullText sf))
      by (rewrite extractRoutes_length, C, A; reflexivity).
    assert (R : routerMatches (getFullText sf) = 0 \/ routerMatches (getFullText sf) = 1)
      by (unfold callMatches, routerMatches in *; lia).
    split; [exact E|]. split; [apply length_controller_routes|].
    split; [exact L|]. split; [exact R|].
    rewrite E, length_app, L, length_controller_routes. split; lia.
Qed.

Lemma C6_no_deduplication_witness :
  callMatches (getFullText threeMethodsFile) = 1
  /\ annotationMatches (getFullText threeMethodsFile) = 1
  /\ shouldSkipFile threeMethodsFile = false
  /\ routerMatches (getFullText threeMethodsFile) = 0
  /\ routeMethodCount threeMethodsFile = 3
  /\ length (all_routes (extractAll [threeMethodsFile])) = 5
  /\ length (all_routes (extractAll [threeMethodsFile]))
     = 2 + routerMatches (getFullText threeMethodsFile)
       + routeMethodCount threeMethodsFile.
Proof.
  repeat (split; [reflexivity|]).
  exact (proj1 (proj2 (proj2 (proj2 (proj2
           (proj2 (C6_no_deduplication threeMethodsFile eq_refl eq_refl) eq_refl)))))).
Defined.

(** The claim of two routes fails three ways: with the annotation on a
    controller method the declaration-based source adds its own route,
    with the [router] receiver the call is matched twice, and a skipped
    file yields nothing. *)
Lemma C6_counterexample :
  (callMatches (getFullText controllerFile) = 1
   /\ annotationMatches (getFullText controllerFile) = 1
   /\ length (all_routes (extractAll [controllerFile])) = 3
   /\ length (all_routes (extractAll [controllerFile])) <> 2)
  /\ (callMatches (getFullText routerFile) = 1
      /\ annotationMatches (getFullText routerFile) = 1
      /\ length (extractRoutes (getFullText routerFile)) = 3
      /\ length (all_routes (extractAll [routerFile])) = 3
      /\ length (all_routes (extractAll [routerFile])) <> 2)
  /\ (callMatches (getFullText specFile) = 1
      /\ annotationMatches (getFullText specFile) = 1
      /\ length (all_routes (extractAll [specFile])) = 0).
Proof. repeat split; vm_compute; congruence. Qed.




(** C10 (as the code has it). The matches of the router pattern are
    read from left to right: the leftmost one, then the leftmost one in
    what follows it, a place inside a match being passed over.  Every
    text has such a reading, and each of its matches is emitted twice by
    the scan, the router pattern standing at the second and at the fifth
    place of the pattern list: once after the routes of the app pattern
    and once at the end.  Both copies have the captured path, the verb in
    upper case, the name resolved from the captured handler text, and the
    tag koa; the routes tagged koa are just these two copies.  The text
    [router.get('/a', h)] gives its route twice. *)
Theorem C10_router_twice (text : string) :
  (exists fs, Scan (callStyle "router") text fs)
  /\ (forall fs,
         Scan (callStyle "router") text fs ->
         exists rs,
           Forall2 (fun f r => exists v p h,
                        captures f v p h /\ In v lowerVerbs /\ p <> EmptyString
                        /\ wholeHandler h (after f)
                        /\ r = capturedRoute koa v p h)
                   fs rs
           /\ routesOfPattern text routerPattern = rs
           /\ routePatterns !! 1 = Some routerPattern
           /\ routePatterns !! 4 = Some routerPattern
           /\ extractRoutes text
              = routesOfPattern text appPattern ++ rs
                  ++ routesOfPattern text nestPattern
                  ++ routesOfPattern text fastifyPattern ++ rs
           /\ List.filter (fun r => isKoa (framework r)) (extractRoutes text)
              = rs ++ rs)
  /\ extractRoutes "router.get('/a', h)"
     = [capturedRoute koa "get" "/a" "h"; capturedRoute koa "get" "/a" "h"].
Proof.
  split; [|split; [|reflexivity]].
  - exists (execAll (callStyle "router") 0 text).
    apply execAll_Scan, callStyle_matched.
  - intros fs HS. apply (Scan_execAll _ (callStyle_matched "router")) in HS.
    exists (routesOfPattern text routerPattern).
    split; [rewrite <- HS; now apply (call_routes text routerPattern "router")|].
    split; [reflexivity|]. split; [reflexivity|]. split; [reflexivity|].
    assert (E : extractRoutes text
       = routesOfPattern text appPattern ++ routesOfPattern text routerPattern
         ++ routesOfPattern text nestPattern ++ routesOfPattern text fastifyPattern
         ++ routesOfPattern text routerPattern)
      by (unfold extractRoutes, routePatterns; cbn [flat_map]; now rewrite app_nil_r).
    split; [exact E|].
    rewrite E, !List.filter_app, !filter_tag.
    replace (isKoa (detectFrameworkFromPattern appPattern)) with false by reflexivity.
    replace (isKoa (detectFrameworkFromPattern routerPattern)) with true by reflexivity.
    replace (isKoa (detectFrameworkFromPattern nestPattern)) with false by reflexivity.
    replace (isKoa (detectFrameworkFromPattern fastifyPattern)) with false by reflexivity.
    reflexivity.
Qed.

Lemma C10_router_twice_witness :
  let text := "router.post('/users/:id', save)" in
  let f := {| matched := "router.post('/users/:id', save";
              groups := [(3, "save"); (2, "/users/:id"); (1, "post")];
              after := ")" |} in
  Scan (callStyle "router") text [f]
  /\ List.filter (fun r => isKoa (framework r)) (extractRoutes text)
     = [capturedRoute koa "post" "/users/:id" "save";
        capturedRoute koa "post" "/users/:id" "save"].
Proof.
  intros text f.
  assert (HS : Scan (callStyle "router") text [f]).
  { apply (Scan_found (callStyle "router") EmptyString text f []).
    - reflexivity.
    - intros pre1 pre2 E Hne. destruct pre1; [simpl in E; now subst | discriminate].
    - apply Scan_none. intros t [pre E]. cbn [after f] in E.
      destruct pre as [|a [|b pre]]; simpl in E.
      + now subst t.
      + injection E as _ <-. reflexivity.
      + destruct pre; discriminate. }
  split; [exact HS|].
  destruct (proj1 (proj2 (C10_router_twice text)) [f] HS)
    as (rs & _ & <- & _ & _ & _ & ->).
  reflexivity.
Defined.

(** A registration of the router form that stands inside the handler of
    an earlier match is passed over: it is emitted not twice but never. *)
Lemma C10_counterexample :
  let t := "router.get('/b', h))" in
  suffixOf t nestedRouterText
  /\ (exists f, matchHere (callStyle "router") t = Some f
                /\ captures f "get" "/b" "h")
  /\ map path (extractRoutes nestedRouterText) = ["/a"; "/a"]
  /\ ~ In "/b" (map path (extractRoutes nestedRouterText)).
Proof.
  intros t. split; [|split; [|split]].
  - now exists "router.get('/a', x || ".
  - eexists. split; reflexivity.
  - reflexivity.
  - vm_compute. intuition discriminate.
Qed.
